(** * Source maps, document registry and call hierarchy of the language service

    A shallow embedding of
    - [packages/language-service/src/languageFeatures/callHierarchy.ts],
    - the [SourceMap] / [TeleportSourceMap] classes and [parseSourceFileDocuments]
      (the documents module of the language service),
    - [packages/pug-language-service/src/services/hover.ts].

    Generators are embedded as the finite list of the values they yield, in
    yield order; a [for ... of] loop that returns on its first iteration is the
    function [firstOf].  Values that may be [undefined] are options.  Offsets
    are JavaScript integers, embedded as [Z]. *)

From Stdlib Require Import ZArith List Bool String Ascii Lia.
Import ListNotations.
Open Scope string_scope.
Open Scope list_scope.
Open Scope Z_scope.

Set Warnings "-register-all".

Set Implicit Arguments.

(** ** Positions, ranges and text documents *)

Record Position : Type := mkPosition { line : Z; character : Z }.

Record Range : Type := mkRange { range_start : Position; range_end : Position }.

Definition Position_eqb (p q : Position) : bool :=
  (line p =? line q) && (character p =? character q).

Definition Range_eqb (r s : Range) : bool :=
  Position_eqb (range_start r) (range_start s)
  && Position_eqb (range_end r) (range_end s).

(** Document order on positions: by line, then by character. *)
Definition Position_leb (p q : Position) : bool :=
  (line p <? line q) || ((line p =? line q) && (character p <=? character q)).

(** A range is inverted when its end lies strictly before its start. *)
Definition inverted (r : Range) : bool :=
  negb (Position_leb (range_start r) (range_end r)).

(** [TextDocument] of vscode-languageserver-textdocument: an immutable text
    with [positionAt] and [offsetAt].  The library is an external collaborator;
    this is its line-table algorithm. *)
Record TextDocument : Type := mkTextDocument {
  doc_uri : string;
  doc_languageId : string;
  doc_version : Z;
  doc_text : string
}.

Definition strlen (s : string) : Z := Z.of_nat (String.length s).

Definition isCR (c : ascii) : bool := Ascii.eqb c "013"%char.
Definition isLF (c : ascii) : bool := Ascii.eqb c "010"%char.

(** [computeLineOffsets]: offset of the first character of every line; [i] is
    the offset of the head of [s]. *)
Fixpoint lineBreaks (s : string) (i : Z) : list Z :=
  match s with
  | EmptyString => []
  | String c rest =>
      if isLF c then (i + 1) :: lineBreaks rest (i + 1)
      else if isCR c then
        match rest with
        | String d _ => if isLF d then lineBreaks rest (i + 1)
                        else (i + 1) :: lineBreaks rest (i + 1)
        | EmptyString => (i + 1) :: lineBreaks rest (i + 1)
        end
      else lineBreaks rest (i + 1)
  end.

Definition getLineOffsets (d : TextDocument) : list Z := 0 :: lineBreaks (doc_text d) 0.

Definition getText (d : TextDocument) : string := doc_text d.

(** The binary search of [positionAt] finds the last line whose offset is not
    greater than [offset]; the line table is increasing, so this is the number
    of such lines minus one. *)
Definition positionAt (d : TextDocument) (offset : Z) : Position :=
  let offset := Z.max (Z.min offset (strlen (doc_text d))) 0 in
  let lineOffsets := getLineOffsets d in
  let low := Z.of_nat (List.length (filter (fun o => o <=? offset) lineOffsets)) in
  let ln := low - 1 in
  mkPosition ln (offset - nth (Z.to_nat ln) lineOffsets 0).

Definition offsetAt (d : TextDocument) (p : Position) : Z :=
  let lineOffsets := getLineOffsets d in
  let n := Z.of_nat (List.length lineOffsets) in
  if n <=? line p then strlen (doc_text d)
  else if line p <? 0 then 0
  else
    let lineOffset := nth (Z.to_nat (line p)) lineOffsets 0 in
    let nextLineOffset :=
      if line p + 1 <? n then nth (Z.to_nat (line p + 1)) lineOffsets 0
      else strlen (doc_text d) in
    Z.max (Z.min (lineOffset + character p) nextLineOffset) lineOffset.

(** ** Mapping entries *)

Record Mapping (Data : Type) : Type := mkMapping {
  sourceRange : Z * Z;
  generatedRange : Z * Z;
  data : Data
}.

(** The property names ['sourceRange' | 'generatedRange'] passed around as
    [from] and [to]. *)
Inductive RangeKey : Type := KSourceRange | KGeneratedRange.

Definition rangeOf {Data} (k : RangeKey) (m : Mapping Data) : Z * Z :=
  match k with
  | KSourceRange => sourceRange m
  | KGeneratedRange => generatedRange m
  end.

(** The bias ['left' | 'right']. *)
Inductive BaseOffset : Type := Left | Right.

Definition isRight (b : BaseOffset) : bool :=
  match b with Right => true | Left => false end.

(** A [for (const x of xs) { return x; }] loop. *)
Definition firstOf {A} (xs : list A) : option A :=
  match xs with
  | [] => None
  | x :: _ => Some x
  end.

(** [shared.notEmpty] as a filter: keeps the defined values. *)
Fixpoint notEmpty {A} (xs : list (option A)) : list A :=
  match xs with
  | [] => []
  | Some x :: r => x :: notEmpty r
  | None :: r => notEmpty r
  end.

(** ** SourceMapBase *)

Module SourceMapBase.

(** Modelled from the spec: [matchOffset] of the base class in
    [@volar/source-map], which is not among the sources.  An entry accepts an
    offset that its origin-side range contains, both ends included: section 8
    has offset 8 accepted by the entry [8,9) at the default left bias and the
    range [0,1) mapped back through one entry with its end resolved at right
    bias.  The translation is the linear shift
    [dest.start + (pos - origin.start)] of section 4.1; the spec gives the bias
    no part in this arithmetic. *)
Definition matchOffset (start : Z) (mappedFromRange mappedToRange : Z * Z)
    (baseOnRight : bool) : option Z :=
  if (fst mappedFromRange <=? start) && (start <=? snd mappedFromRange)
  then Some (fst mappedToRange + (start - fst mappedFromRange))
  else None.

(** Modelled from the spec: [matcing] of the base class in
    [@volar/source-map].  It scans the table in table order and yields, for
    every entry that accepts the offset, the translated offset and the entry. *)
Fixpoint matcing {Data} (mappings : list (Mapping Data)) (startOffset : Z)
    (from to : RangeKey) (baseOnRight : bool) : list (Z * Mapping Data) :=
  match mappings with
  | [] => []
  | mapping :: rest =>
      match matchOffset startOffset (rangeOf from mapping) (rangeOf to mapping) baseOnRight with
      | Some mapped => (mapped, mapping) :: matcing rest startOffset from to baseOnRight
      | None => matcing rest startOffset from to baseOnRight
      end
  end.

End SourceMapBase.

(** ** SourceMap *)

Record SourceMap (Data : Type) : Type := mkSourceMap {
  sourceDocument : TextDocument;
  mappedDocument : TextDocument;
  mappings : list (Mapping Data)
}.

Section SourceMapOps.

Context {Data : Type}.
Variable this : SourceMap Data.

(** The loop body of [toPositions], for one element of [matcing]. *)
Definition toPositions_step (filter : Data -> bool) (toDoc : TextDocument)
    (baseOffset : BaseOffset) (mapped : Z * Mapping Data)
    : option (Position * Mapping Data) :=
  if negb (filter (data (snd mapped))) then None
  else
    let offset := fst mapped in
    let mapping := snd mapped in
    let offset :=
      match baseOffset with
      | Right =>
          offset + ((snd (sourceRange mapping) - fst (sourceRange mapping))
                    - (snd (generatedRange mapping) - fst (generatedRange mapping)))
      | Left => offset
      end in
    Some (positionAt toDoc offset, mapping).

Definition toPositions (position : Position) (filter : Data -> bool)
    (fromDoc toDoc : TextDocument) (from to : RangeKey) (baseOffset : BaseOffset)
    : list (Position * Mapping Data) :=
  notEmpty
    (map (toPositions_step filter toDoc baseOffset)
       (SourceMapBase.matcing (mappings this) (offsetAt fromDoc position) from to
          (isRight baseOffset))).

Definition toSourcePositionsBase (position : Position) (filter : Data -> bool)
    (baseOffset : BaseOffset) : list (Position * Mapping Data) :=
  toPositions position filter (mappedDocument this) (sourceDocument this)
    KGeneratedRange KSourceRange baseOffset.

Definition toGeneratedPositionsBase (position : Position) (filter : Data -> bool)
    (baseOffset : BaseOffset) : list (Position * Mapping Data) :=
  toPositions position filter (sourceDocument this) (mappedDocument this)
    KSourceRange KGeneratedRange baseOffset.

Definition toSourcePositions (position : Position) (filter : Data -> bool)
    (baseOffset : BaseOffset) : list Position :=
  map fst (toSourcePositionsBase position filter baseOffset).

Definition toGeneratedPositions (position : Position) (filter : Data -> bool)
    (baseOffset : BaseOffset) : list Position :=
  map fst (toGeneratedPositionsBase position filter baseOffset).

Definition toSourcePosition (position : Position) (filter : Data -> bool)
    (baseOffset : BaseOffset) : option Position :=
  firstOf (toSourcePositions position filter baseOffset).

Definition toGeneratedPosition (position : Position) (filter : Data -> bool)
    (baseOffset : BaseOffset) : option Position :=
  firstOf (toGeneratedPositions position filter baseOffset).

Definition matchSourcePosition (position : Position) (mapping : Mapping Data)
    (baseOffset : BaseOffset) : option Position :=
  match SourceMapBase.matchOffset (offsetAt (mappedDocument this) position)
          (generatedRange mapping) (sourceRange mapping) (isRight baseOffset) with
  | Some offset => Some (positionAt (sourceDocument this) offset)
  | None => None
  end.

Definition matchGeneratedPosition (position : Position) (mapping : Mapping Data)
    (baseOffset : BaseOffset) : option Position :=
  match SourceMapBase.matchOffset (offsetAt (sourceDocument this) position)
          (sourceRange mapping) (generatedRange mapping) (isRight baseOffset) with
  | Some offset => Some (positionAt (mappedDocument this) offset)
  | None => None
  end.

(** The two string-keyed method selections of [toRanges]. *)
Inductive Api : Type := ApiToSourcePositionsBase | ApiToGeneratedPositionsBase.
Inductive Api2 : Type := ApiMatchSourcePosition | ApiMatchGeneratedPosition.

Definition callApi (api : Api) :=
  match api with
  | ApiToSourcePositionsBase => toSourcePositionsBase
  | ApiToGeneratedPositionsBase => toGeneratedPositionsBase
  end.

Definition callApi2 (api2 : Api2) :=
  match api2 with
  | ApiMatchSourcePosition => matchSourcePosition
  | ApiMatchGeneratedPosition => matchGeneratedPosition
  end.

(** First loop of [toRanges]: the ranges it yields, and [failedLookUps]. *)
Fixpoint toRanges_first (api2 : Api2) (range : Range)
    (starts : list (Position * Mapping Data))
    : list Range * list (Position * Mapping Data) :=
  match starts with
  | [] => ([], [])
  | mapped :: rest =>
      let '(yielded, failedLookUps) := toRanges_first api2 range rest in
      match callApi2 api2 (range_end range) (snd mapped) Right with
      | Some end_ => (mkRange (fst mapped) end_ :: yielded, failedLookUps)
      | None => (yielded, mapped :: failedLookUps)
      end
  end.

(** Second loop of [toRanges]: every failed start paired with every match of
    [range.end] at right bias. *)
Definition toRanges_second (api : Api) (filter : Data -> bool) (range : Range)
    (failedLookUps : list (Position * Mapping Data)) : list Range :=
  flat_map
    (fun failedLookUp =>
       map (fun mapped => mkRange (fst failedLookUp) (fst mapped))
         (callApi api (range_end range) filter Right))
    failedLookUps.

Definition toRanges (range : Range) (filter : Data -> bool) (api : Api) (api2 : Api2)
    : list Range :=
  let '(yielded, failedLookUps) :=
    toRanges_first api2 range (callApi api (range_start range) filter Left) in
  yielded ++ toRanges_second api filter range failedLookUps.

Definition toSourceRanges (range : Range) (filter : Data -> bool) : list Range :=
  toRanges range filter ApiToSourcePositionsBase ApiMatchSourcePosition.

Definition toGeneratedRanges (range : Range) (filter : Data -> bool) : list Range :=
  toRanges range filter ApiToGeneratedPositionsBase ApiMatchGeneratedPosition.

Definition toSourceRange (range : Range) (filter : Data -> bool) : option Range :=
  firstOf (toSourceRanges range filter).

Definition toGeneratedRange (range : Range) (filter : Data -> bool) : option Range :=
  firstOf (toGeneratedRanges range filter).

End SourceMapOps.

(** The default filter [() => true]. *)
Definition anyData {Data} (_ : Data) : bool := true.

(** ** TeleportSourceMap *)

(** [PositionCapabilities] and [TeleportMappingData] are declared in
    [@volar/language-core]; the fields kept are the ones the sources read. *)
Record PositionCapabilities : Type := mkPositionCapabilities {
  references : bool;
  completion : bool
}.

Record TeleportMappingData : Type := mkTeleportMappingData {
  toSourceCapabilities : PositionCapabilities;
  toGenedCapabilities : PositionCapabilities
}.

(** A virtual file: a node of the embedded-document tree. *)
Inductive VirtualFile : Type :=
  mkVirtualFile
    (fileName : string)
    (text : string)
    (mappings : list (Mapping PositionCapabilities))
    (teleportMappings : option (list (Mapping TeleportMappingData)))
    (embeddeds : list VirtualFile).

Definition vf_fileName (f : VirtualFile) : string :=
  let '(mkVirtualFile n _ _ _ _) := f in n.
Definition vf_text (f : VirtualFile) : string :=
  let '(mkVirtualFile _ t _ _ _) := f in t.
Definition vf_mappings (f : VirtualFile) : list (Mapping PositionCapabilities) :=
  let '(mkVirtualFile _ _ m _ _) := f in m.
Definition vf_teleportMappings (f : VirtualFile) : option (list (Mapping TeleportMappingData)) :=
  let '(mkVirtualFile _ _ _ t _) := f in t.
Definition vf_embeddeds (f : VirtualFile) : list VirtualFile :=
  let '(mkVirtualFile _ _ _ _ e) := f in e.

Record TeleportSourceMap : Type := mkTeleportSourceMapRaw {
  tsm_file : VirtualFile;
  tsm_document : TextDocument;
  tsm_map : SourceMap TeleportMappingData
}.

(** The constructor: [super(document, document, mappings)]. *)
Definition mkTeleportSourceMap (file : VirtualFile) (document : TextDocument)
    (mappings : list (Mapping TeleportMappingData)) : TeleportSourceMap :=
  mkTeleportSourceMapRaw file document (mkSourceMap document document mappings).

Definition findTeleports (this : TeleportSourceMap) (start : Position)
    : list (Position * PositionCapabilities) :=
  map (fun mapped => (fst mapped, toGenedCapabilities (data (snd mapped))))
    (toGeneratedPositionsBase (tsm_map this) start anyData Left)
  ++
  map (fun mapped => (fst mapped, toSourceCapabilities (data (snd mapped))))
    (toSourcePositionsBase (tsm_map this) start anyData Left).

Record EmbeddedDocumentSourceMap : Type := mkEmbeddedDocumentSourceMap {
  esm_rootFile : VirtualFile;
  esm_file : VirtualFile;
  esm_map : SourceMap PositionCapabilities
}.

(** ** Strings *)

Definition lowerAscii (c : ascii) : ascii :=
  let n := nat_of_ascii c in
  if (Nat.leb 65 n && Nat.leb n 90)%bool then ascii_of_nat (n + 32) else c.

(** [String.prototype.toLowerCase], on ASCII letters. *)
Fixpoint toLowerCase (s : string) : string :=
  match s with
  | EmptyString => EmptyString
  | String c r => String (lowerAscii c) (toLowerCase r)
  end.

(** The text after the last ["."] of [s], when there is one. *)
Fixpoint afterLastDot (s : string) : option string :=
  match s with
  | EmptyString => None
  | String c r =>
      match afterLastDot r with
      | Some x => Some x
      | None => if Ascii.eqb c "."%char then Some r else None
      end
  end.

(** [s.substring(s.lastIndexOf('.') + 1)]: the whole of [s] when it has no dot. *)
Definition extensionOf (s : string) : string :=
  match afterLastDot s with
  | Some x => x
  | None => s
  end.

(** The helpers of [@volar/shared] and [path] that the sources call. *)
Record Shared : Type := mkShared {
  getPathOfUri : string -> string;
  getUriByPath : string -> string;
  syntaxToLanguageId : string -> string;
  basename : string -> string
}.

(** ** Document registry: [parseSourceFileDocuments] *)

(** A [ts.IScriptSnapshot] object.  Two snapshot values denote the same object
    exactly when they are equal: [snapshot_id] is the identity token, which
    keeps apart distinct objects with equal text. *)
Record IScriptSnapshot : Type := mkSnapshot {
  snapshot_id : positive;
  snapshot_text : string
}.

Definition IScriptSnapshot_eqb (a b : IScriptSnapshot) : bool :=
  Pos.eqb (snapshot_id a) (snapshot_id b) && String.eqb (snapshot_text a) (snapshot_text b).

(** The [DocumentRegistry] of [@volar/language-core], an external collaborator. *)
Record DocumentRegistry : Type := mkDocumentRegistry {
  mapper_get : string -> option (IScriptSnapshot * VirtualFile);
  getSourceByVirtualFileName : string -> option (string * IScriptSnapshot * VirtualFile)
}.

(** The value type of [snapshotsToMaps]. *)
Record Bundle : Type := mkBundle {
  b_fileName : string;
  b_snapshot : IScriptSnapshot;
  b_document : TextDocument;
  b_file : VirtualFile;
  b_maps : list (VirtualFile * EmbeddedDocumentSourceMap);
  b_teleports : list (VirtualFile * TeleportSourceMap)
}.

(** The closure state of [parseSourceFileDocuments]: the counter [version] and
    the [WeakMap] [snapshotsToMaps], keyed by snapshot object. *)
Record RegistryState : Type := mkRegistryState {
  version : Z;
  snapshotsToMaps : list (IScriptSnapshot * Bundle)
}.

Definition initialRegistry : RegistryState := mkRegistryState 0 [].

Fixpoint weakMapGet (m : list (IScriptSnapshot * Bundle)) (k : IScriptSnapshot)
    : option Bundle :=
  match m with
  | [] => None
  | (k', v) :: r => if IScriptSnapshot_eqb k' k then Some v else weakMapGet r k
  end.

(** [WeakMap.prototype.set]: replaces the value of a present key. *)
Fixpoint weakMapSet (m : list (IScriptSnapshot * Bundle)) (k : IScriptSnapshot)
    (v : Bundle) : list (IScriptSnapshot * Bundle) :=
  match m with
  | [] => [(k, v)]
  | (k', v') :: r =>
      if IScriptSnapshot_eqb k' k then (k, v) :: r else (k', v') :: weakMapSet r k v
  end.

(** Modelled from the spec: [forEachEmbeddeds] of [@volar/language-core], the
    pre-order walk of the virtual file tree (section 3), as the list of files
    in visiting order. *)
Fixpoint forEachEmbeddeds (file : VirtualFile) : list VirtualFile :=
  match file with
  | mkVirtualFile _ _ _ _ embeddeds =>
      file :: (fix walk (fs : list VirtualFile) : list VirtualFile :=
                 match fs with
                 | [] => []
                 | f :: r => forEachEmbeddeds f ++ walk r
                 end) embeddeds
  end.

Section Registry.

Variable shared : Shared.
Variable mapper : DocumentRegistry.

(** The callback given to [forEachEmbeddeds] in [getMaps], as a step on the
    variables it updates: [version], [maps] and [teleports].  The files of one
    tree are distinct objects, so [Map.prototype.set] appends. *)
Definition embedStep (rootFile : VirtualFile) (document : TextDocument)
    (acc : Z * list (VirtualFile * EmbeddedDocumentSourceMap)
             * list (VirtualFile * TeleportSourceMap))
    (file : VirtualFile)
    : Z * list (VirtualFile * EmbeddedDocumentSourceMap)
        * list (VirtualFile * TeleportSourceMap) :=
  let '(version, maps, teleports) := acc in
  let virtualFileDocument :=
    mkTextDocument
      (getUriByPath shared (vf_fileName file))
      (syntaxToLanguageId shared (extensionOf (vf_fileName file)))
      version
      (vf_text file) in
  let maps :=
    maps ++ [(file, mkEmbeddedDocumentSourceMap rootFile file
                      (mkSourceMap document virtualFileDocument (vf_mappings file)))] in
  let teleports :=
    match vf_teleportMappings file with
    | Some teleportMappings =>
        teleports ++ [(file, mkTeleportSourceMap file virtualFileDocument teleportMappings)]
    | None => teleports
    end in
  (version + 1, maps, teleports).

(** The miss branch of [getMaps]: the bundle built for a snapshot, and the
    counter after it. *)
Definition buildBundle (version : Z) (fileName : string) (snapshot : IScriptSnapshot)
    (rootFile : VirtualFile) : Bundle * Z :=
  let document :=
    mkTextDocument (getUriByPath shared fileName) "vue" version (snapshot_text snapshot) in
  let '(version, maps, teleports) :=
    fold_left (embedStep rootFile document) (forEachEmbeddeds rootFile)
      (version + 1, [], []) in
  (mkBundle fileName snapshot document rootFile maps teleports, version).

Definition getMaps (fileName : string) (snapshot : IScriptSnapshot)
    (rootFile : VirtualFile) (st : RegistryState) : Bundle * RegistryState :=
  match weakMapGet (snapshotsToMaps st) snapshot with
  | Some result => (result, st)
  | None =>
      let '(result, version) := buildBundle (version st) fileName snapshot rootFile in
      (result, mkRegistryState version (weakMapSet (snapshotsToMaps st) snapshot result))
  end.

Definition registry_get (uri : string) (st : RegistryState)
    : option Bundle * RegistryState :=
  let fileName := getPathOfUri shared uri in
  match mapper_get mapper fileName with
  | Some (snapshot, rootFile) =>
      let '(result, st) := getMaps fileName snapshot rootFile st in
      (Some result, st)
  | None => (None, st)
  end.

(** The loop of [getTeleport] and [getMap] over the values of a [Map]. *)
Fixpoint findByFileName {K V} (file : V -> VirtualFile) (fileName : string)
    (entries : list (K * V)) : option V :=
  match entries with
  | [] => None
  | (_, v) :: r =>
      if String.eqb (toLowerCase (vf_fileName (file v))) (toLowerCase fileName)
      then Some v
      else findByFileName file fileName r
  end.

Definition getTeleport (virtualFileUri : string) (st : RegistryState)
    : option TeleportSourceMap * RegistryState :=
  let fileName := getPathOfUri shared virtualFileUri in
  match getSourceByVirtualFileName mapper fileName with
  | Some (source0, source1, source2) =>
      let '(maps, st) := getMaps source0 source1 source2 st in
      (findByFileName tsm_file fileName (b_teleports maps), st)
  | None => (None, st)
  end.

Definition getMap (virtualFileUri : string) (st : RegistryState)
    : option EmbeddedDocumentSourceMap * RegistryState :=
  let fileName := getPathOfUri shared virtualFileUri in
  match getSourceByVirtualFileName mapper fileName with
  | Some (source0, source1, source2) =>
      let '(maps, st) := getMaps source0 source1 source2 st in
      (findByFileName esm_file fileName (b_maps maps), st)
  | None => (None, st)
  end.

(** Every cached bundle was built from the snapshot that keys it. *)
Definition bundleOf (k : IScriptSnapshot) (b : Bundle) : Prop :=
  b_snapshot b = k /\ doc_text (b_document b) = snapshot_text k.

Definition cache_ok (st : RegistryState) : Prop :=
  forall k b, weakMapGet (snapshotsToMaps st) k = Some b -> bundleOf k b.

(** The states the registry can be in: the initial one, and those reached by
    calls of [getMaps]. *)
Inductive reachable : RegistryState -> Prop :=
| reachable_init : reachable initialRegistry
| reachable_getMaps : forall st fileName snapshot rootFile,
    reachable st ->
    reachable (snd (getMaps fileName snapshot rootFile st)).

End Registry.

(** ** Call hierarchy *)

(** [vscode.CallHierarchyItem], whose [data] is a [PluginCallHierarchyData]
    holding the plugin's own item. *)
Inductive CallHierarchyItem : Type :=
  mkCallHierarchyItem
    (name : string) (kind : Z) (uri : string)
    (range selectionRange : Range)
    (data : option PluginCallHierarchyData)
with PluginCallHierarchyData : Type :=
  mkPluginCallHierarchyData
    (uri : string)
    (originalItem : CallHierarchyItem)
    (pluginId : Z)
    (map : option string).

Definition item_name (i : CallHierarchyItem) : string :=
  let '(mkCallHierarchyItem n _ _ _ _ _) := i in n.
Definition item_kind (i : CallHierarchyItem) : Z :=
  let '(mkCallHierarchyItem _ k _ _ _ _) := i in k.
Definition item_uri (i : CallHierarchyItem) : string :=
  let '(mkCallHierarchyItem _ _ u _ _ _) := i in u.
Definition item_range (i : CallHierarchyItem) : Range :=
  let '(mkCallHierarchyItem _ _ _ r _ _) := i in r.
Definition item_selectionRange (i : CallHierarchyItem) : Range :=
  let '(mkCallHierarchyItem _ _ _ _ s _) := i in s.
Definition item_data (i : CallHierarchyItem) : option PluginCallHierarchyData :=
  let '(mkCallHierarchyItem _ _ _ _ _ d) := i in d.

Definition data_originalItem (d : PluginCallHierarchyData) : CallHierarchyItem :=
  let '(mkPluginCallHierarchyData _ o _ _) := d in o.
Definition data_pluginId (d : PluginCallHierarchyData) : Z :=
  let '(mkPluginCallHierarchyData _ _ p _) := d in p.
(** [data.map], given by its [embeddedDocumentUri]. *)
Definition data_map (d : PluginCallHierarchyData) : option string :=
  let '(mkPluginCallHierarchyData _ _ _ m) := d in m.

Record CallHierarchyIncomingCall : Type := mkIncomingCall {
  from : CallHierarchyItem;
  in_fromRanges : list Range
}.

Record CallHierarchyOutgoingCall : Type := mkOutgoingCall {
  to : CallHierarchyItem;
  out_fromRanges : list Range
}.

(** The [callHierarchy] member of a plugin; the awaited results of its
    queries are functions of their argument. *)
Record CallHierarchyApi : Type := mkCallHierarchyApi {
  onIncomingCalls : CallHierarchyItem -> list CallHierarchyIncomingCall;
  onOutgoingCalls : CallHierarchyItem -> list CallHierarchyOutgoingCall
}.

Record Plugin : Type := mkPlugin {
  callHierarchy : option CallHierarchyApi
}.

(** A query made to a plugin, recorded with the index of the plugin. *)
Inductive PluginQuery : Type :=
| QueryIncomingCalls (pluginId : Z) (item : CallHierarchyItem)
| QueryOutgoingCalls (pluginId : Z) (item : CallHierarchyItem).

(** [array[i]] for a number [i]: [undefined] outside the array. *)
Definition arrayGet {A} (xs : list A) (i : Z) : option A :=
  if i <? 0 then None else nth_error xs (Z.to_nat i).

(** *** Dedupe *)

Module dedupe.

(** The location of an item: its uri and the two ends of its range. *)
Definition sameLocation (a b : CallHierarchyItem) : bool :=
  String.eqb (item_uri a) (item_uri b) && Range_eqb (item_range a) (item_range b).

(** Source order on ranges: by start, then by end. *)
Definition Range_leb (r s : Range) : bool :=
  if Position_eqb (range_start r) (range_start s)
  then Position_leb (range_end r) (range_end s)
  else Position_leb (range_start r) (range_start s).

(** Insertion of a range at its place in source order; a range already there
    is not repeated. *)
Fixpoint insertRange (r : Range) (rs : list Range) : list Range :=
  match rs with
  | [] => [r]
  | s :: rest =>
      if Range_eqb r s then rs
      else if Range_leb r s then r :: rs
      else s :: insertRange r rest
  end.

(** Modelled from the spec: the union in source order of two call-site range
    lists (section 4.5); [../utils/dedupe] is not among the sources. *)
Definition unionInSourceOrder (xs ys : list Range) : list Range :=
  fold_right insertRange [] (xs ++ ys).

(** Modelled from the spec: [withLocations] of [../utils/dedupe] (section 4.5):
    the first occurrence of every location is kept, in first-occurrence
    order. *)
Fixpoint withLocations (items : list CallHierarchyItem) : list CallHierarchyItem :=
  match items with
  | [] => []
  | i :: rest => i :: filter (fun j => negb (sameLocation i j)) (withLocations rest)
  end.

(** Adds one incoming call to the calls kept so far: merged into the kept
    call with the same caller location, or put at the end. *)
Fixpoint addIncoming (c : CallHierarchyIncomingCall)
    (kept : list CallHierarchyIncomingCall) : list CallHierarchyIncomingCall :=
  match kept with
  | [] => [c]
  | k :: rest =>
      if sameLocation (from k) (from c)
      then mkIncomingCall (from k) (unionInSourceOrder (in_fromRanges k) (in_fromRanges c)) :: rest
      else k :: addIncoming c rest
  end.

Fixpoint addOutgoing (c : CallHierarchyOutgoingCall)
    (kept : list CallHierarchyOutgoingCall) : list CallHierarchyOutgoingCall :=
  match kept with
  | [] => [c]
  | k :: rest =>
      if sameLocation (to k) (to c)
      then mkOutgoingCall (to k) (unionInSourceOrder (out_fromRanges k) (out_fromRanges c)) :: rest
      else k :: addOutgoing c rest
  end.

(** Modelled from the spec: [withCallHierarchyIncomingCalls] of
    [../utils/dedupe] (section 4.5): the location rule of [withLocations] on
    the caller, the call-site ranges of location-equal items unioned in source
    order. *)
Definition withCallHierarchyIncomingCalls (items : list CallHierarchyIncomingCall)
    : list CallHierarchyIncomingCall :=
  fold_left (fun kept c => addIncoming c kept) items [].

(** Modelled from the spec: [withCallHierarchyOutgoingCalls] of
    [../utils/dedupe] (section 4.5), the same on the callee. *)
Definition withCallHierarchyOutgoingCalls (items : list CallHierarchyOutgoingCall)
    : list CallHierarchyOutgoingCall :=
  fold_left (fun kept c => addOutgoing c kept) items [].

End dedupe.

(** *** [register] of callHierarchy.ts *)

Section CallHierarchy.

Variable shared : Shared.

(** The runtime context: the plugins, and [context.documents.getMap].  The
    registry answers [getMap] from its snapshot-keyed cache; here it is the
    function from uris to maps that those answers define. *)
Variable plugins : list Plugin.
Variable documents_getMap : string -> option EmbeddedDocumentSourceMap.

Definition transformCallHierarchyItem (tsItem : CallHierarchyItem) (tsRanges : list Range)
    : option (CallHierarchyItem * list Range) :=
  match documents_getMap (item_uri tsItem) with
  | None => Some (tsItem, tsRanges)
  | Some emap =>
      let map := esm_map emap in
      let range :=
        match toSourceRange map (item_range tsItem) anyData with
        | Some range => range
        | None =>
            mkRange (positionAt (sourceDocument map) 0)
              (positionAt (sourceDocument map) (strlen (getText (sourceDocument map))))
        end in
      match toSourceRange map (item_selectionRange tsItem) anyData with
      | None => None
      | Some selectionRange =>
          let vueRanges :=
            notEmpty (List.map (fun tsRange => toSourceRange map tsRange anyData) tsRanges) in
          let vueItem :=
            mkCallHierarchyItem
              (if String.eqb (item_name tsItem)
                    (basename shared (getPathOfUri shared (doc_uri (mappedDocument map))))
               then basename shared (getPathOfUri shared (doc_uri (sourceDocument map)))
               else item_name tsItem)
              (item_kind tsItem)
              (doc_uri (sourceDocument map))
              (mkRange (range_start range) (range_end range))
              (mkRange (range_start selectionRange) (range_end selectionRange))
              (item_data tsItem) in
          Some (vueItem, vueRanges)
      end
  end.


(** The loop over the incoming calls a plugin returned. *)
Fixpoint pushIncoming (_calls : list CallHierarchyIncomingCall)
    : list CallHierarchyIncomingCall :=
  match _calls with
  | [] => []
  | _call :: rest =>
      match transformCallHierarchyItem (from _call) (in_fromRanges _call) with
      | None => pushIncoming rest
      | Some calls => mkIncomingCall (fst calls) (snd calls) :: pushIncoming rest
      end
  end.

Fixpoint pushOutgoing (_calls : list CallHierarchyOutgoingCall)
    : list CallHierarchyOutgoingCall :=
  match _calls with
  | [] => []
  | call :: rest =>
      match transformCallHierarchyItem (to call) (out_fromRanges call) with
      | None => pushOutgoing rest
      | Some calls => mkOutgoingCall (fst calls) (snd calls) :: pushOutgoing rest
      end
  end.

(** [getIncomingCalls]: the calls returned, and the plugin queries made, in
    the order they were made. *)
Definition getIncomingCalls (item : CallHierarchyItem)
    : list CallHierarchyIncomingCall * list PluginQuery :=
  match item_data item with
  | Some data =>
      match arrayGet plugins (data_pluginId data) with
      | None => ([], [])
      | Some plugin =>
          match callHierarchy plugin with
          | None => ([], [])
          | Some api =>
              let originalItem := data_originalItem data in
              match data_map data with
              | Some embeddedDocumentUri =>
                  match documents_getMap embeddedDocumentUri with
                  | Some sourceMap =>
                      let _calls := onIncomingCalls api originalItem in
                      (dedupe.withCallHierarchyIncomingCalls (pushIncoming _calls),
                       [QueryIncomingCalls (data_pluginId data) originalItem])
                  | None => (dedupe.withCallHierarchyIncomingCalls [], [])
                  end
              | None =>
                  let _calls := onIncomingCalls api item in
                  (dedupe.withCallHierarchyIncomingCalls (pushIncoming _calls),
                   [QueryIncomingCalls (data_pluginId data) item])
              end
          end
      end
  | None => (dedupe.withCallHierarchyIncomingCalls [], [])
  end.

Definition getOutgoingCalls (item : CallHierarchyItem)
    : list CallHierarchyOutgoingCall * list PluginQuery :=
  match item_data item with
  | Some data =>
      match arrayGet plugins (data_pluginId data) with
      | None => ([], [])
      | Some plugin =>
          match callHierarchy plugin with
          | None => ([], [])
          | Some api =>
              let originalItem := data_originalItem data in
              match data_map data with
              | Some embeddedDocumentUri =>
                  match documents_getMap embeddedDocumentUri with
                  | Some sourceMap =>
                      let _calls := onOutgoingCalls api originalItem in
                      (dedupe.withCallHierarchyOutgoingCalls (pushOutgoing _calls),
                       [QueryOutgoingCalls (data_pluginId data) originalItem])
                  | None => (dedupe.withCallHierarchyOutgoingCalls [], [])
                  end
              | None =>
                  let _calls := onOutgoingCalls api item in
                  (dedupe.withCallHierarchyOutgoingCalls (pushOutgoing _calls),
                   [QueryOutgoingCalls (data_pluginId data) item])
              end
          end
      end
  | None => (dedupe.withCallHierarchyOutgoingCalls [], [])
  end.

End CallHierarchy.

(** ** Pug hover: [register] of hover.ts *)

Section PugHover.

(** [MappingKind] of [../baseParse] is the data of a pug mapping; the test
    [data !== MappingKind.EmptyTagCompletion] is all the hover reads of it. *)
Variable MappingKind : Type.
Variable isEmptyTagCompletion : MappingKind -> bool.

(** The html language service and [transformHover] of [@volar/transforms]
    are external collaborators. *)
Variable Hover : Type.
Variable HTMLDocument : Type.
Variable HoverSettings : Type.
Variable doHover : TextDocument -> Position -> HTMLDocument -> option HoverSettings -> option Hover.
Variable transformHover : Hover -> (Range -> option Range) -> option Hover.

Record PugDocument : Type := mkPugDocument {
  pug_map : SourceMap MappingKind;
  htmlDocument : HTMLDocument
}.

Definition pugHover (pugDoc : PugDocument) (pos : Position) (options : option HoverSettings)
    : option Hover :=
  match toGeneratedPosition (pug_map pugDoc) pos
          (fun data => negb (isEmptyTagCompletion data)) Left with
  | None => None
  | Some htmlPos =>
      match doHover (mappedDocument (pug_map pugDoc)) htmlPos (htmlDocument pugDoc) options with
      | None => None
      | Some htmlResult =>
          transformHover htmlResult
            (fun htmlRange => toSourceRange (pug_map pugDoc) htmlRange anyData)
      end
  end.

End PugHover.

(** ** Vocabulary of the statements *)

(** An offset lies in a range, both ends included. *)
Definition within (r : Z * Z) (offset : Z) : bool :=
  (fst r <=? offset) && (offset <=? snd r).

(** An entry accepts an offset on its [from] side under a filter. *)
Definition accepts {Data} (from : RangeKey) (offset : Z) (filter : Data -> bool)
    (m : Mapping Data) : bool :=
  within (rangeOf from m) offset && filter (data m).


Definition rangeLength (r : Z * Z) : Z := snd r - fst r.

(** The offset [toPositions] hands to [positionAt] for an accepted entry. *)
Definition shifted {Data} (from to : RangeKey) (baseOffset : BaseOffset) (offset : Z)
    (m : Mapping Data) : Z :=
  match baseOffset with
  | Left => fst (rangeOf to m) + (offset - fst (rangeOf from m))
  | Right =>
      fst (rangeOf to m) + (offset - fst (rangeOf from m))
      + (rangeLength (sourceRange m) - rangeLength (generatedRange m))
  end.

(** The singular lookups as the spec words them: the head of the plural
    sequence, absent when the sequence is empty. *)
Definition headOf {A} (xs : list A) : option A := nth_error xs 0.

(** The cases in which [getIncomingCalls] and [getOutgoingCalls] have nothing
    to ask a plugin. *)
Inductive unanswerable (plugins : list Plugin)
    (documents_getMap : string -> option EmbeddedDocumentSourceMap)
    (item : CallHierarchyItem) : Prop :=
| no_data : item_data item = None -> unanswerable plugins documents_getMap item
| no_plugin : forall data,
    item_data item = Some data ->
    arrayGet plugins (data_pluginId data) = None ->
    unanswerable plugins documents_getMap item
| no_callHierarchy : forall data plugin,
    item_data item = Some data ->
    arrayGet plugins (data_pluginId data) = Some plugin ->
    callHierarchy plugin = None ->
    unanswerable plugins documents_getMap item
| no_sourceMap : forall data embeddedDocumentUri,
    item_data item = Some data ->
    data_map data = Some embeddedDocumentUri ->
    documents_getMap embeddedDocumentUri = None ->
    unanswerable plugins documents_getMap item.

(** The sides and documents each position api of [toRanges] works between,
    and the matcher that goes with it. *)
Definition fromKey (api : Api) : RangeKey :=
  match api with
  | ApiToSourcePositionsBase => KGeneratedRange
  | ApiToGeneratedPositionsBase => KSourceRange
  end.

Definition toKey (api : Api) : RangeKey :=
  match api with
  | ApiToSourcePositionsBase => KSourceRange
  | ApiToGeneratedPositionsBase => KGeneratedRange
  end.

Definition fromDocOf {Data} (this : SourceMap Data) (api : Api) : TextDocument :=
  match api with
  | ApiToSourcePositionsBase => mappedDocument this
  | ApiToGeneratedPositionsBase => sourceDocument this
  end.

Definition toDocOf {Data} (this : SourceMap Data) (api : Api) : TextDocument :=
  match api with
  | ApiToSourcePositionsBase => sourceDocument this
  | ApiToGeneratedPositionsBase => mappedDocument this
  end.

Definition api2Of (api : Api) : Api2 :=
  match api with
  | ApiToSourcePositionsBase => ApiMatchSourcePosition
  | ApiToGeneratedPositionsBase => ApiMatchGeneratedPosition
  end.

(** The two phases of [toRanges]: the ranges resolved through one entry
    (step 1) and the ranges of the cross-entry fallback (step 2). *)
Definition sameEntryRanges {Data} (this : SourceMap Data) (range : Range)
    (filter : Data -> bool) (api : Api) : list Range :=
  fst (toRanges_first this (api2Of api) range
         (callApi this api (range_start range) filter Left)).

Definition fallbackRanges {Data} (this : SourceMap Data) (range : Range)
    (filter : Data -> bool) (api : Api) : list Range :=
  toRanges_second this api filter range
    (snd (toRanges_first this (api2Of api) range
            (callApi this api (range_start range) filter Left))).

(** The number of entries of a line table that are not greater than an offset. *)
Definition countUpTo (L : list Z) (o : Z) : nat :=
  List.length (List.filter (fun x => x <=? o) L).

(** A strictly increasing table of offsets. *)
Inductive increasing : list Z -> Prop :=
| increasing_nil : increasing []
| increasing_cons : forall x l,
    (forall y, In y l -> x < y) -> increasing l -> increasing (x :: l).


(** The first entry, in table order, that accepts an offset under a filter. *)
Definition firstAccepting {Data} (this : SourceMap Data) (from : RangeKey) (offset : Z)
    (filter : Data -> bool) : option (Mapping Data) :=
  List.find (accepts from offset filter) (mappings this).

(** The two ranges of an entry are offset pairs into their documents, of
    non-negative length (the embedding provider's contract). *)
Definition validEntry {Data} (this : SourceMap Data) (m : Mapping Data) : bool :=
  (0 <=? fst (sourceRange m)) && (fst (sourceRange m) <=? snd (sourceRange m))
  && (snd (sourceRange m) <=? strlen (doc_text (sourceDocument this)))
  && (0 <=? fst (generatedRange m)) && (fst (generatedRange m) <=? snd (generatedRange m))
  && (snd (generatedRange m) <=? strlen (doc_text (mappedDocument this))).



(** ** Sample inputs *)

Module Sample.

Definition sourceDoc : TextDocument :=
  mkTextDocument "file:///a.vue" "vue" 0 "0123456789012345678901234567890123456789".

Definition generatedDoc : TextDocument :=
  mkTextDocument "file:///a.vue.ts" "typescript" 1 "abcdefghijabcdefghijabcdefghijabcdefghij".

Definition pos (n : Z) : Position := mkPosition 0 n.

(** Two entries of equal lengths on both sides, far apart in the source and
    in the opposite order in the generated text. *)
Definition farEntries : list (Mapping unit) :=
  [ mkMapping (0, 5) (10, 15) tt; mkMapping (20, 25) (0, 5) tt ].

Definition farMap : SourceMap unit := mkSourceMap sourceDoc generatedDoc farEntries.





Definition capsAB : PositionCapabilities := mkPositionCapabilities true false.
Definition capsBA : PositionCapabilities := mkPositionCapabilities false true.

(** A teleport entry from range A = [0,10] to the shorter range B = [20,22],
    and one between ranges of equal length. *)
Definition shrinkingTeleport : Mapping TeleportMappingData :=
  mkMapping (0, 10) (20, 22) (mkTeleportMappingData capsBA capsAB).

Definition evenTeleport : Mapping TeleportMappingData :=
  mkMapping (0, 5) (20, 25) (mkTeleportMappingData capsBA capsAB).

Definition teleportFile (teleports : list (Mapping TeleportMappingData)) : VirtualFile :=
  mkVirtualFile "/a.vue.ts" (doc_text generatedDoc) [] (Some teleports) [].

Definition shrinkingTeleports : TeleportSourceMap :=
  mkTeleportSourceMap (teleportFile [shrinkingTeleport]) generatedDoc [shrinkingTeleport].

Definition evenTeleports : TeleportSourceMap :=
  mkTeleportSourceMap (teleportFile [evenTeleport]) generatedDoc [evenTeleport].

Definition shared : Shared :=
  mkShared (fun uri => uri) (fun path => path) (fun ext => ext) (fun path => path).


(** A pug document whose only entry is an empty-tag completion entry. *)
Definition pugDoc : PugDocument bool unit :=
  mkPugDocument (mkSourceMap sourceDoc generatedDoc [mkMapping (0, 5) (0, 5) true]) tt.

Definition noMap : string -> option EmbeddedDocumentSourceMap := fun _ => None.

Definition someRange : Range := mkRange (pos 1) (pos 2).

Definition plainItem : CallHierarchyItem :=
  mkCallHierarchyItem "f" 12 "file:///a.ts" someRange someRange None.

(** An embedded document with one entry, source [0,5] to generated [10,15]. *)
Definition capsEntries : list (Mapping PositionCapabilities) :=
  [ mkMapping (0, 5) (10, 15) capsAB ].

Definition embeddedFile : VirtualFile :=
  mkVirtualFile "file:///a.vue.ts" (doc_text generatedDoc) capsEntries None [].

Definition embeddedMap : EmbeddedDocumentSourceMap :=
  mkEmbeddedDocumentSourceMap embeddedFile embeddedFile
    (mkSourceMap sourceDoc generatedDoc capsEntries).

Definition getMapOfEmbedded (uri : string) : option EmbeddedDocumentSourceMap :=
  if String.eqb uri "file:///a.vue.ts" then Some embeddedMap else None.


Definition wideItem : CallHierarchyItem :=
  mkCallHierarchyItem "g" 12 "file:///a.vue.ts"
    (mkRange (pos 30) (pos 32)) (mkRange (pos 11) (pos 12)) None.

Definition snapshotA : IScriptSnapshot := mkSnapshot 1 "0123456789".
Definition snapshotB : IScriptSnapshot := mkSnapshot 2 "0123456789".

(** The same caller reported twice, with different call sites. *)
Definition laterSite : Range := mkRange (pos 5) (pos 6).

Definition incomingA : CallHierarchyIncomingCall := mkIncomingCall plainItem [laterSite].
Definition incomingB : CallHierarchyIncomingCall := mkIncomingCall plainItem [someRange].
Definition outgoingA : CallHierarchyOutgoingCall := mkOutgoingCall plainItem [laterSite].

End Sample.

(** ** Further vocabulary *)

(** [toSourceRanges] / [toGeneratedRanges] and their singular forms, selected
    by the position api they are built on. *)
Definition toRangesVia {Data} (this : SourceMap Data) (api : Api) (range : Range)
    (filter : Data -> bool) : list Range :=
  match api with
  | ApiToSourcePositionsBase => toSourceRanges this range filter
  | ApiToGeneratedPositionsBase => toGeneratedRanges this range filter
  end.

Definition toRangeVia {Data} (this : SourceMap Data) (api : Api) (range : Range)
    (filter : Data -> bool) : option Range :=
  match api with
  | ApiToSourcePositionsBase => toSourceRange this range filter
  | ApiToGeneratedPositionsBase => toGeneratedRange this range filter
  end.

(** The range a start offset and an end offset make once translated, the
    start through [ms] at left bias and the end through [me] at [endBias]. *)
Definition translated {Data} (this : SourceMap Data) (api : Api)
    (startOffset endOffset : Z) (ms me : Mapping Data) (endBias : BaseOffset) : Range :=
  mkRange
    (positionAt (toDocOf this api) (shifted (fromKey api) (toKey api) Left startOffset ms))
    (positionAt (toDocOf this api) (shifted (fromKey api) (toKey api) endBias endOffset me)).

(** Every entry of the map has valid ranges of the same length on both sides. *)
Definition evenEntries {Data} (this : SourceMap Data) : bool :=
  forallb
    (fun m => validEntry this m
              && (rangeLength (sourceRange m) =? rangeLength (generatedRange m)))
    (mappings this).

(** The document [getMaps] creates for an embedded file, at a given value of
    the version counter. *)
Definition embeddedDocument (shared : Shared) (version : Z) (file : VirtualFile)
    : TextDocument :=
  mkTextDocument
    (getUriByPath shared (vf_fileName file))
    (syntaxToLanguageId shared (extensionOf (vf_fileName file)))
    version
    (vf_text file).

(** The elements of a list with consecutive numbers from [start]. *)
Fixpoint numbered {A} (start : Z) (l : list A) : list (Z * A) :=
  match l with
  | [] => []
  | x :: r => (start, x) :: numbered (start + 1) r
  end.

(** The entry of [maps] for a file whose document has a given version. *)
Definition mapOfFile (shared : Shared) (rootFile : VirtualFile) (document : TextDocument)
    (vf : Z * VirtualFile) : VirtualFile * EmbeddedDocumentSourceMap :=
  (snd vf,
   mkEmbeddedDocumentSourceMap rootFile (snd vf)
     (mkSourceMap document (embeddedDocument shared (fst vf) (snd vf))
        (vf_mappings (snd vf)))).

(** The entry of [teleports] for such a file, when it has teleport mappings. *)
Definition teleportOfFile (shared : Shared) (vf : Z * VirtualFile)
    : option (VirtualFile * TeleportSourceMap) :=
  match vf_teleportMappings (snd vf) with
  | Some teleportMappings =>
      Some (snd vf,
            mkTeleportSourceMap (snd vf) (embeddedDocument shared (fst vf) (snd vf))
              teleportMappings)
  | None => None
  end.

(** The versions of the documents of a bundle: the source document, then the
    embedded documents. *)
Definition bundleVersions (b : Bundle) : list Z :=
  doc_version (b_document b)
  :: List.map (fun e => doc_version (mappedDocument (esm_map (snd e)))) (b_maps b).

(** A bundle as [getMaps] builds it on a miss, at some value of the counter. *)
Definition builtBundle (shared : Shared) (b : Bundle) : Prop :=
  exists version,
    b = fst (buildBundle shared version (b_fileName b) (b_snapshot b) (b_file b))
    /\ snd (buildBundle shared version (b_fileName b) (b_snapshot b) (b_file b))
       = version + 1 + Z.of_nat (List.length (forEachEmbeddeds (b_file b))).

(** Every document version in the cache lies below the counter. *)
Definition versionsBelowCounter (st : RegistryState) : Prop :=
  forall k b v,
    weakMapGet (snapshotsToMaps st) k = Some b ->
    In v (bundleVersions b) -> v < version st.

(** A string without a dot. *)
Fixpoint dotless (s : string) : bool :=
  match s with
  | EmptyString => true
  | String c r => negb (Ascii.eqb c "."%char) && dotless r
  end.

(** ** More of callHierarchy.ts: [doPrepare] *)


Definition withData (item : CallHierarchyItem) (data : PluginCallHierarchyData)
    : CallHierarchyItem :=
  mkCallHierarchyItem (item_name item) (item_kind item) (item_uri item)
    (item_range item) (item_selectionRange item) (Some data).

Section DoPrepare.

Variable same : Plugin -> Plugin -> bool.
Variable plugins : list Plugin.

(** The filter of [doPrepare]: the generated positions of entries with the
    [references] capability. *)
Definition prepareGeneratedPositions (position : Position)
    (map : SourceMap PositionCapabilities) : list Position :=
  toGeneratedPositions map position (fun data => references data) Left.


(** The merge of [doPrepare]: [arr => dedupe.withLocations(arr.flat())]. *)
Definition prepareMerge (arr : list (list CallHierarchyItem)) : list CallHierarchyItem :=
  dedupe.withLocations (List.concat arr).

End DoPrepare.

(** ** Auto insert: the result transform of its [register] *)


Definition autoInsertGeneratedPositions (position : Position)
    (map : SourceMap PositionCapabilities) : list Position :=
  toGeneratedPositions map position (fun data => completion data) Left.


(** The [from] sides of a list of calls whose items are not in virtual files. *)
Definition plainIncoming (documents_getMap : string -> option EmbeddedDocumentSourceMap)
    (calls : list CallHierarchyIncomingCall) : bool :=
  forallb
    (fun c => match documents_getMap (item_uri (from c)) with Some _ => false | None => true end)
    calls.

Definition plainOutgoing (documents_getMap : string -> option EmbeddedDocumentSourceMap)
    (calls : list CallHierarchyOutgoingCall) : bool :=
  forallb
    (fun c => match documents_getMap (item_uri (to c)) with Some _ => false | None => true end)
    calls.

(** The plugin a query was put to. *)
Definition queryPluginId (q : PluginQuery) : Z :=
  match q with
  | QueryIncomingCalls pluginId _ => pluginId
  | QueryOutgoingCalls pluginId _ => pluginId
  end.

Definition queryItem (q : PluginQuery) : CallHierarchyItem :=
  match q with
  | QueryIncomingCalls _ item => item
  | QueryOutgoingCalls _ item => item
  end.

(** ** More sample inputs *)

Module Sample2.

Definition quietApi : CallHierarchyApi :=
  mkCallHierarchyApi (fun _ => []) (fun _ => []).

Definition quietPlugin : Plugin := mkPlugin (Some quietApi).


(** An item of the embedded document whose two ranges lie in the entry
    generated [10,15]. *)
Definition coveredItem : CallHierarchyItem :=
  mkCallHierarchyItem "h" 12 "file:///a.vue.ts"
    (mkRange (Sample.pos 10) (Sample.pos 15)) (mkRange (Sample.pos 11) (Sample.pos 12)) None.

Definition preparedPlain : CallHierarchyItem :=
  withData Sample.plainItem
    (mkPluginCallHierarchyData "file:///a.ts" Sample.plainItem 0 None).

(** A plugin that reports one caller in the embedded document and one in a
    plain file. *)
Definition busyApi : CallHierarchyApi :=
  mkCallHierarchyApi
    (fun _ => [ mkIncomingCall coveredItem [mkRange (Sample.pos 12) (Sample.pos 13)];
                mkIncomingCall Sample.plainItem [Sample.someRange] ])
    (fun _ => []).

(** A pug document with an empty-tag completion entry before an ordinary
    entry over the same source range. *)
Definition pugDoc : PugDocument bool unit :=
  mkPugDocument
    (mkSourceMap Sample.sourceDoc Sample.generatedDoc
       [ mkMapping (0, 5) (0, 5) true; mkMapping (0, 5) (10, 15) false ])
    tt.

End Sample2.

(** ** The project: [createProject] *)

Module Project.

(** A script record of the [scripts] map. *)
Record Script : Type := mkScript {
  s_version : Z;
  s_fileName : string;
  s_snapshot : option IScriptSnapshot;
  s_snapshotVersion : option Z
}.

(** [vscode.FileChangeType]. *)
Inductive FileChangeType : Type := Created | Changed | Deleted.

Record FileEvent : Type := mkFileEvent {
  fe_uri : string;
  fe_type : FileChangeType
}.

(** The file system of the workspace, an external collaborator. *)
Record FileSystem : Type := mkFileSystem {
  fileExists : string -> bool;
  getFileSize : option (string -> option Z);
  readFile : string -> option string
}.

(** The closure variables of [createProject] that its file handling reads and
    writes: the [scripts] map, the two version counters and the file names of
    the parsed command line.  [nextSnapshot] is the identity the next snapshot
    object made by [ts.ScriptSnapshot.fromString] gets. *)
Record State : Type := mkState {
  scripts : list (string * Script);
  projectVersion : Z;
  typeRootVersion : Z;
  fileNames : list string;
  nextSnapshot : positive
}.

Section Operations.

(** [createUriMap] of [./utils/uriMap] is not among the sources.  It is taken
    as a map from keys to values in which a uri is looked up under [uriKey] of
    it and a path under [pathKey] of it; the two normalisations are
    parameters. *)
Variable uriKey : string -> string.
Variable pathKey : string -> string.

(** The open documents ([documents.data.pathGet]): the version and the
    snapshot of the document open under a path. *)
Variable openDocument : string -> option (Z * IScriptSnapshot).

Variable sys : FileSystem.

(** [initOptions.maxFileSize]. *)
Variable maxFileSize : option Z.

(** [createParsedCommandLine(...).fileNames], recomputed from the file system
    when files are created or deleted. *)
Variable parsedFileNames : list string.

Fixpoint mapGet (m : list (string * Script)) (key : string) : option Script :=
  match m with
  | [] => None
  | (k, v) :: r => if String.eqb k key then Some v else mapGet r key
  end.

Fixpoint mapSet (m : list (string * Script)) (key : string) (v : Script)
    : list (string * Script) :=
  match m with
  | [] => [(key, v)]
  | (k, v') :: r =>
      if String.eqb k key then (k, v) :: r else (k, v') :: mapSet r key v
  end.

Fixpoint mapDelete (m : list (string * Script)) (key : string)
    : list (string * Script) :=
  match m with
  | [] => []
  | (k, v) :: r => if String.eqb k key then mapDelete r key else (k, v) :: mapDelete r key
  end.

Definition uriGet (st : State) (uri : string) : option Script :=
  mapGet (scripts st) (uriKey uri).

Definition pathGet (st : State) (path : string) : option Script :=
  mapGet (scripts st) (pathKey path).

Definition withScripts (st : State) (m : list (string * Script)) : State :=
  mkState m (projectVersion st) (typeRootVersion st) (fileNames st) (nextSnapshot st).

Definition bumpProjectVersion (st : State) : State :=
  mkState (scripts st) (projectVersion st + 1) (typeRootVersion st) (fileNames st)
    (nextSnapshot st).

(** [tryAddFile]. *)
Definition tryAddFile (fileName : string) (st : State) : State :=
  if existsb (String.eqb fileName) (fileNames st) then st
  else mkState (scripts st) (projectVersion st + 1) (typeRootVersion st)
         (fileNames st ++ [fileName]) (nextSnapshot st).

(** The new version of a script that a change event touches. *)
Definition touched (script : Script) : Script :=
  mkScript
    (if 0 <=? s_version script then -1 else s_version script - 1)
    (s_fileName script) (s_snapshot script) (s_snapshotVersion script).

(** The body of the loop of [onWorkspaceFilesChanged], for one change. *)
Definition applyChange (st : State) (change : FileEvent) : State :=
  match uriGet st (fe_uri change) with
  | Some script =>
      let st :=
        match fe_type change with
        | Changed | Created =>
            withScripts st (mapSet (scripts st) (uriKey (fe_uri change)) (touched script))
        | Deleted =>
            withScripts st (mapDelete (scripts st) (uriKey (fe_uri change)))
        end in
      bumpProjectVersion st
  | None => st
  end.

Definition isCreated (change : FileEvent) : bool :=
  match fe_type change with Created => true | _ => false end.

Definition isDeleted (change : FileEvent) : bool :=
  match fe_type change with Deleted => true | _ => false end.

Definition onWorkspaceFilesChanged (changes : list FileEvent) (st : State) : State :=
  let st := fold_left applyChange changes st in
  let creates := List.filter isCreated changes in
  let deletes := List.filter isDeleted changes in
  match creates, deletes with
  | [], [] => st
  | _, _ =>
      mkState (scripts st) (projectVersion st + 1) (typeRootVersion st + 1)
        parsedFileNames (nextSnapshot st)
  end.

(** [getScriptVersion]; numbers are kept as numbers, [None] is the empty
    string. *)
Definition getScriptVersion (fileName : string) (st : State) : option Z :=
  match openDocument fileName with
  | Some doc => Some (fst doc)
  | None =>
      match pathGet st fileName with
      | Some script => Some (s_version script)
      | None => None
      end
  end.

(** [ts.ScriptSnapshot.fromString]: a new snapshot object. *)
Definition fromString (text : string) (st : State) : IScriptSnapshot * State :=
  (mkSnapshot (nextSnapshot st) text,
   mkState (scripts st) (projectVersion st) (typeRootVersion st) (fileNames st)
     (Pos.succ (nextSnapshot st))).

(** The test [fileSize !== undefined && fileSize > initOptions.maxFileSize]
    under [if (initOptions.maxFileSize)]. *)
Definition tooLarge (fileName : string) : bool :=
  match maxFileSize with
  | Some limit =>
      if limit =? 0 then false
      else
        match getFileSize sys with
        | Some sizeOf =>
            match sizeOf fileName with
            | Some fileSize => limit <? fileSize
            | None => false
            end
        | None => false
        end
  | None => false
  end.

Definition cachedSnapshot (script : Script) : bool :=
  match s_snapshotVersion script with
  | Some v => v =? s_version script
  | None => false
  end.

Definition getScriptSnapshot (fileName : string) (st : State)
    : option IScriptSnapshot * State :=
  match openDocument fileName with
  | Some doc => (Some (snd doc), st)
  | None =>
      let script := pathGet st fileName in
      match script with
      | Some s =>
          if cachedSnapshot s then (s_snapshot s, st) else
          if fileExists sys fileName then
            if tooLarge fileName then
              let '(snapshot, st) := fromString "" st in (Some snapshot, st)
            else
              match readFile sys fileName with
              | Some text =>
                  let '(snapshot, st) := fromString text st in
                  (Some snapshot,
                   withScripts st
                     (mapSet (scripts st) (pathKey fileName)
                        (mkScript (s_version s) (s_fileName s) (Some snapshot)
                           (Some (s_version s)))))
              | None => (None, st)
              end
          else (None, st)
      | None =>
          if fileExists sys fileName then
            if tooLarge fileName then
              let '(snapshot, st) := fromString "" st in (Some snapshot, st)
            else
              match readFile sys fileName with
              | Some text =>
                  let '(snapshot, st) := fromString text st in
                  (Some snapshot,
                   withScripts st
                     (mapSet (scripts st) (pathKey fileName)
                        (mkScript (-1) fileName (Some snapshot) (Some (-1)))))
              | None => (None, st)
              end
          else (None, st)
      end
  end.

(** The handler of [documents.onDidChangeContent], as far as the modelled
    state goes: [projectVersion++]. *)
Definition onDidChangeContent (st : State) : State := bumpProjectVersion st.

(** [dispose], as far as the modelled state goes: [scripts.clear()]. *)
Definition dispose (st : State) : State := withScripts st [].

(** The states of a project: the initial one and those its operations reach. *)
Inductive reachable : State -> Prop :=
| reachable_init : forall names, reachable (mkState [] 0 0 names 1%positive)
| reachable_tryAddFile : forall st fileName,
    reachable st -> reachable (tryAddFile fileName st)
| reachable_changes : forall st changes,
    reachable st -> reachable (onWorkspaceFilesChanged changes st)
| reachable_snapshot : forall st fileName,
    reachable st -> reachable (snd (getScriptSnapshot fileName st))
| reachable_content : forall st,
    reachable st -> reachable (onDidChangeContent st)
| reachable_dispose : forall st,
    reachable st -> reachable (dispose st).

(** A script has a negative version, a snapshot version, when it has one,
    that is not below its version, and a snapshot, when it has one, that was
    made before the next snapshot [next]. *)
Definition scriptOk (next : positive) (script : Script) : Prop :=
  s_version script < 0
  /\ (forall v, s_snapshotVersion script = Some v -> s_version script <= v)
  /\ (forall snapshot, s_snapshot script = Some snapshot ->
        Pos.lt (snapshot_id snapshot) next).

Definition scriptsOk (st : State) : Prop :=
  forall key script, mapGet (scripts st) key = Some script ->
                     scriptOk (nextSnapshot st) script.

Definition isChanged (change : FileEvent) : bool :=
  match fe_type change with Changed => true | _ => false end.

End Operations.

End Project.

(** ** A sample project *)

Module Sample3.

Definition sameKey (s : string) : string := s.

Definition noDocument (path : string) : option (Z * IScriptSnapshot) := None.

Definition sys : Project.FileSystem :=
  Project.mkFileSystem (fun _ => true) (Some (fun _ => Some 10)) (fun _ => Some "let x").

Definition initial : Project.State := Project.mkState [] 0 0 ["/a.ts"] 1%positive.

(** The project after it read the file once. *)
Definition afterRead : Project.State :=
  snd (Project.getScriptSnapshot sameKey noDocument sys None "/a.ts" initial).

Definition readScript : Project.Script :=
  Project.mkScript (-1) "/a.ts" (Some (mkSnapshot 1 "let x")) (Some (-1)).

End Sample3.

(** ** Server capabilities *)

Module Capabilities.

(** JavaScript values as far as the capability objects need them; an object
    is the list of its properties in insertion order. *)
Inductive Json : Type :=
| JUndefined
| JBool (b : bool)
| JNum (n : Z)
| JStr (s : string)
| JArr (items : list Json)
| JObj (props : list (string * Json)).

Definition truthy (v : Json) : bool :=
  match v with
  | JUndefined => false
  | JBool b => b
  | JNum n => negb (n =? 0)
  | JStr s => negb (String.eqb s "")
  | JArr _ => true
  | JObj _ => true
  end.

Fixpoint lookup (props : list (string * Json)) (key : string) : Json :=
  match props with
  | [] => JUndefined
  | (k, v) :: r => if String.eqb k key then v else lookup r key
  end.

(** [o.key], also for [o?.key]: [undefined] when [o] is not an object. *)
Definition getProp (o : Json) (key : string) : Json :=
  match o with
  | JObj props => lookup props key
  | _ => JUndefined
  end.

(** [o.key = value] on the properties of an object. *)
Fixpoint assign (props : list (string * Json)) (key : string) (value : Json)
    : list (string * Json) :=
  match props with
  | [] => [(key, value)]
  | (k, v) :: r =>
      if String.eqb k key then (k, value) :: r else (k, v) :: assign r key value
  end.

(** [DiagnosticModel] of [../../types]. *)
Inductive DiagnosticModel : Type := DiagnosticNone | DiagnosticPush | DiagnosticPull.

(** The fields of [LanguageServerInitializationOptions] the setup reads. *)
Record InitOptions : Type := mkInitOptions {
  respectClientCapabilities : bool;
  ignoreTriggerCharacters : option (list string);
  noPluginCommands : bool;
  diagnosticModel : option DiagnosticModel
}.

(** A language server plugin, by the extensions of its [extraFileExtensions]. *)
Record ServerPlugin : Type := mkServerPlugin {
  extraFileExtensions : list string
}.

Definition semanticTokensLegend : Json :=
  JObj
    [ ("tokenTypes",
       JArr (List.map JStr
         [ "namespace"; "class"; "enum"; "interface"; "struct"; "typeParameter"; "type";
           "parameter"; "variable"; "property"; "enumMember"; "decorator"; "event";
           "function"; "method"; "macro"; "label"; "comment"; "string"; "keyword";
           "number"; "regexp"; "operator" ]));
      ("tokenModifiers",
       JArr (List.map JStr
         [ "declaration"; "definition"; "readonly"; "static"; "deprecated"; "abstract";
           "async"; "modification"; "documentation"; "defaultLibrary" ])) ].

(** The test [!initOptions.respectClientCapabilities || params.<group>?.<name>]. *)
Definition wanted (initOptions : InitOptions) (params : Json) (group name : string) : bool :=
  negb (respectClientCapabilities initOptions)
  || truthy (getProp (getProp params group) name).

(** One [if (<test>) server.<key> = <value>] step. *)
Definition setIf (test : bool) (key : string) (value : Json)
    (server : list (string * Json)) : list (string * Json) :=
  if test then assign server key value else server.

Definition setupSyntacticCapabilities (params : Json) (server : list (string * Json))
    (initOptions : InitOptions) : list (string * Json) :=
  let w := wanted initOptions params "textDocument" in
  let server := setIf (w "selectionRange") "selectionRangeProvider" (JBool true) server in
  let server := setIf (w "foldingRange") "foldingRangeProvider" (JBool true) server in
  let server := setIf (w "linkedEditingRange") "linkedEditingRangeProvider" (JBool true) server in
  let server := setIf (w "colorProvider") "colorProvider" (JBool true) server in
  let server := setIf (w "documentSymbol") "documentSymbolProvider" (JBool true) server in
  let server := setIf (w "formatting") "documentFormattingProvider" (JBool true) server in
  let server := setIf (w "rangeFormatting") "documentRangeFormattingProvider" (JBool true) server in
  setIf (w "onTypeFormatting") "documentOnTypeFormattingProvider"
    (JObj [ ("firstTriggerCharacter", JStr ";");
            ("moreTriggerCharacter", JArr [JStr "}"; JStr (String "010"%char EmptyString)]) ])
    server.

(** [[...new Set(xs)]]: the first occurrence of every element, in order. *)
Fixpoint setOf (xs : list string) (seen : list string) : list string :=
  match xs with
  | [] => []
  | x :: r =>
      if existsb (String.eqb x) seen then setOf r seen
      else x :: setOf r (x :: seen)
  end.

Definition chars (s : string) : list string :=
  List.map (fun c => String c EmptyString) (list_ascii_of_string s).

Definition doubleQuote : string := String (ascii_of_nat 34) EmptyString.

(** The characters listed for [completionProvider.triggerCharacters]. *)
Definition listedTriggerCharacters : list string :=
  [ "/"; "-"; ":" ]
  ++ chars ">+^*()#.[]$@-{}"
  ++ [ "."; ":"; "<"; doubleQuote; "="; "/" ]
  ++ [ "@" ]
  ++ [ doubleQuote; ":" ]
  ++ [ "."; doubleQuote; "'"; "`"; "/"; "<"; "@"; "#"; " " ]
  ++ [ "*" ]
  ++ [ "@" ].

Definition triggerCharacters (initOptions : InitOptions) : list string :=
  let all := setOf listedTriggerCharacters [] in
  match ignoreTriggerCharacters initOptions with
  | Some ignored => List.filter (fun c => negb (existsb (String.eqb c) ignored)) all
  | None => all
  end.

Definition globPattern (glob : string) : Json :=
  JObj [ ("pattern", JObj [ ("glob", JStr glob) ]) ].

Definition extensionsOf (plugins : list ServerPlugin) : list string :=
  List.concat (List.map extraFileExtensions plugins).

(** [vscode.CodeActionKind]. *)
Definition codeActionKinds : list string :=
  [ ""; "quickfix"; "refactor"; "refactor.extract"; "refactor.inline"; "refactor.rewrite";
    "source"; "source.fixAll"; "source.organizeImports" ].

(** The commands of [server.executeCommandProvider?.commands ?? []]. *)
Definition commandsOf (server : list (string * Json)) : list Json :=
  match getProp (lookup server "executeCommandProvider") "commands" with
  | JArr commands => commands
  | _ => []
  end.

Section Semantic.

(** [embedded.executePluginCommand], a constant of [@volar/language-service]. *)
Variable executePluginCommand : string.

Definition setupCodeLens (initOptions : InitOptions) (server : list (string * Json))
    : list (string * Json) :=
  let commands := commandsOf server in
  let server := assign server "codeLensProvider" (JObj [ ("resolveProvider", JBool true) ]) in
  assign server "executeCommandProvider"
    (JObj [ ("commands",
             JArr (if noPluginCommands initOptions then commands
                   else commands ++ [JStr executePluginCommand])) ]).

Definition setupSemanticCapabilities (params : Json) (server : list (string * Json))
    (initOptions : InitOptions) (plugins : list ServerPlugin) : list (string * Json) :=
  let w := wanted initOptions params "textDocument" in
  let ww := wanted initOptions params "workspace" in
  let server := setIf (w "references") "referencesProvider" (JBool true) server in
  let server := setIf (w "implementation") "implementationProvider" (JBool true) server in
  let server := setIf (w "definition") "definitionProvider" (JBool true) server in
  let server := setIf (w "typeDefinition") "typeDefinitionProvider" (JBool true) server in
  let server := setIf (w "callHierarchy") "callHierarchyProvider" (JBool true) server in
  let server := setIf (w "hover") "hoverProvider" (JBool true) server in
  let server :=
    setIf (w "rename") "renameProvider" (JObj [ ("prepareProvider", JBool true) ]) server in
  let server :=
    setIf (ww "fileOperations") "workspace"
      (JObj [ ("fileOperations",
               JObj [ ("willRename",
                       JObj [ ("filters",
                               JArr (List.map (fun ext => globPattern ("**/*." ++ ext))
                                       (extensionsOf plugins)
                                     ++ List.map globPattern
                                          [ "**/*.js"; "**/*.cjs"; "**/*.mjs"; "**/*.ts";
                                            "**/*.cts"; "**/*.mts"; "**/*.jsx"; "**/*.tsx";
                                            "**/*.json" ])) ]) ]) ])
      server in
  let server :=
    setIf (w "signatureHelp") "signatureHelpProvider"
      (JObj [ ("triggerCharacters", JArr [JStr "("; JStr ","; JStr "<"]);
              ("retriggerCharacters", JArr [JStr ")"]) ])
      server in
  let server :=
    setIf (w "completion") "completionProvider"
      (JObj [ ("triggerCharacters", JArr (List.map JStr (triggerCharacters initOptions)));
              ("resolveProvider", JBool true) ])
      server in
  let server := setIf (w "documentHighlight") "documentHighlightProvider" (JBool true) server in
  let server :=
    setIf (w "documentLink") "documentLinkProvider"
      (JObj [ ("resolveProvider", JBool false) ]) server in
  let server := setIf (ww "symbol") "workspaceSymbolProvider" (JBool true) server in
  let server := if w "codeLens" then setupCodeLens initOptions server else server in
  let server :=
    setIf (w "semanticTokens") "semanticTokensProvider"
      (JObj [ ("range", JBool true); ("full", JBool false);
              ("legend", semanticTokensLegend) ])
      server in
  let server :=
    setIf (w "codeAction") "codeActionProvider"
      (JObj [ ("codeActionKinds", JArr (List.map JStr codeActionKinds));
              ("resolveProvider", JBool true) ])
      server in
  let server := setIf (w "inlayHint") "inlayHintProvider" (JBool true) server in
  setIf
    (negb (respectClientCapabilities initOptions)
     || (truthy (getProp (getProp params "textDocument") "diagnostic")
         && match diagnosticModel initOptions with
            | Some DiagnosticPull => true
            | _ => false
            end))
    "diagnosticProvider"
    (JObj [ ("documentSelector",
             JArr (List.map (fun ext => JObj [ ("pattern", JStr ("**/*." ++ ext)) ])
                     (extensionsOf plugins)
                   ++ [ JObj [ ("pattern", JStr "**/*.{ts,js,tsx,jsx}") ] ]));
            ("interFileDependencies", JBool true);
            ("workspaceDiagnostics", JBool false) ])
    server.

End Semantic.

(** The keys the two setups announce. *)
Definition syntacticProviders : list string :=
  [ "selectionRangeProvider"; "foldingRangeProvider"; "linkedEditingRangeProvider";
    "colorProvider"; "documentSymbolProvider"; "documentFormattingProvider";
    "documentRangeFormattingProvider"; "documentOnTypeFormattingProvider" ].

Definition semanticProviders : list string :=
  [ "referencesProvider"; "implementationProvider"; "definitionProvider";
    "typeDefinitionProvider"; "callHierarchyProvider"; "hoverProvider"; "renameProvider";
    "workspace"; "signatureHelpProvider"; "completionProvider";
    "documentHighlightProvider"; "documentLinkProvider"; "workspaceSymbolProvider";
    "codeLensProvider"; "executeCommandProvider"; "semanticTokensProvider";
    "codeActionProvider"; "inlayHintProvider"; "diagnosticProvider" ].

End Capabilities.

(** * Properties *)

(** ** The position generators, entry by entry *)

Section PositionFacts.

Context {Data : Type}.
Variable this : SourceMap Data.

Lemma matchOffset_within start fromR toR b :
  SourceMapBase.matchOffset start fromR toR b =
  if within fromR start then Some (fst toR + (start - fst fromR)) else None.
Proof. reflexivity. Qed.

(** [toPositions] yields, in table order, one translation for every entry
    that accepts the offset. *)
Lemma toPositions_spec position filter fromDoc toDoc from to baseOffset :
  toPositions this position filter fromDoc toDoc from to baseOffset =
  map (fun m => (positionAt toDoc (shifted from to baseOffset (offsetAt fromDoc position) m), m))
    (List.filter (accepts from (offsetAt fromDoc position) filter) (mappings this)).
Proof.
  unfold toPositions.
  generalize (offsetAt fromDoc position) as offset; intro offset.
  induction (mappings this) as [|m ms IH]; simpl; [reflexivity|].
  rewrite matchOffset_within. unfold accepts at 1.
  destruct (within (rangeOf from m) offset); simpl; [|exact IH].
  unfold toPositions_step at 1; simpl.
  destruct (filter (data m)); simpl; [|exact IH].
  rewrite IH. destruct baseOffset; reflexivity.
Qed.




End PositionFacts.

(** ** The range generators *)

Section RangeFacts.

Context {Data : Type}.
Variable this : SourceMap Data.

Lemma callApi_spec api position filter baseOffset :
  callApi this api position filter baseOffset =
  toPositions this position filter (fromDocOf this api) (toDocOf this api)
    (fromKey api) (toKey api) baseOffset.
Proof. destruct api; reflexivity. Qed.

Lemma callApi2_spec api position mapping baseOffset :
  callApi2 this (api2Of api) position mapping baseOffset =
  if within (rangeOf (fromKey api) mapping) (offsetAt (fromDocOf this api) position)
  then Some (positionAt (toDocOf this api)
               (shifted (fromKey api) (toKey api) Left
                  (offsetAt (fromDocOf this api) position) mapping))
  else None.
Proof.
  destruct api; simpl; unfold matchSourcePosition, matchGeneratedPosition;
    rewrite matchOffset_within; simpl;
    match goal with |- context [within ?r ?o] => destruct (within r o) end;
    reflexivity.
Qed.

Lemma toRanges_split range filter api :
  toRanges this range filter api (api2Of api) =
  sameEntryRanges this range filter api ++ fallbackRanges this range filter api.
Proof.
  unfold toRanges, sameEntryRanges, fallbackRanges.
  destruct (toRanges_first this (api2Of api) range
              (callApi this api (range_start range) filter Left)) as [y f].
  reflexivity.
Qed.

Lemma toSourceRanges_split range filter :
  toSourceRanges this range filter =
  sameEntryRanges this range filter ApiToSourcePositionsBase
  ++ fallbackRanges this range filter ApiToSourcePositionsBase.
Proof. exact (toRanges_split range filter ApiToSourcePositionsBase). Qed.

Lemma toGeneratedRanges_split range filter :
  toGeneratedRanges this range filter =
  sameEntryRanges this range filter ApiToGeneratedPositionsBase
  ++ fallbackRanges this range filter ApiToGeneratedPositionsBase.
Proof. exact (toRanges_split range filter ApiToGeneratedPositionsBase). Qed.


(** What the first loop leaves in [failedLookUps]. *)
Lemma toRanges_first_failed api range starts mapped :
  In mapped (snd (toRanges_first this (api2Of api) range starts)) ->
  In mapped starts
  /\ within (rangeOf (fromKey api) (snd mapped))
       (offsetAt (fromDocOf this api) (range_end range)) = false.
Proof.
  induction starts as [|m0 rest IH]; simpl; [intros []|].
  destruct (toRanges_first this (api2Of api) range rest) as [y f].
  rewrite callApi2_spec.
  destruct (within (rangeOf (fromKey api) (snd m0))
              (offsetAt (fromDocOf this api) (range_end range))) eqn:Hw; simpl.
  - intro Hin. destruct (IH Hin). auto.
  - intros [<-|Hin]; [auto|]. destruct (IH Hin). auto.
Qed.

Lemma toRanges_first_nil api2 range :
  toRanges_first this api2 range [] = ([], []).
Proof. reflexivity. Qed.




End RangeFacts.

(** ** Absent results *)

Section Absent.

Context {Data : Type}.
Variable this : SourceMap Data.





End Absent.


(** C9. Each singular lookup is the head of its plural sequence, and absent
    when that sequence is empty. *)
Theorem singular_is_head_of_plural
    {Data : Type} (this : SourceMap Data) (range : Range) (position : Position)
    (filter : Data -> bool) (baseOffset : BaseOffset) :
  toSourceRange this range filter = headOf (toSourceRanges this range filter)
  /\ toGeneratedRange this range filter = headOf (toGeneratedRanges this range filter)
  /\ toSourcePosition this position filter baseOffset
     = headOf (toSourcePositions this position filter baseOffset)
  /\ toGeneratedPosition this position filter baseOffset
     = headOf (toGeneratedPositions this position filter baseOffset).
Proof.
  unfold toSourceRange, toGeneratedRange, toSourcePosition, toGeneratedPosition.
  repeat split;
    match goal with |- firstOf ?l = headOf ?l => destruct l; reflexivity end.
Qed.

(** C10. An item with no data payload, or whose plugin id names no plugin, or
    whose plugin has no call hierarchy support, or whose embedded document has
    no source map, gets the empty list from [getIncomingCalls] and from
    [getOutgoingCalls], and no plugin is queried. *)
Theorem unanswerable_calls_empty
    (shared : Shared) (plugins : list Plugin)
    (documents_getMap : string -> option EmbeddedDocumentSourceMap)
    (item : CallHierarchyItem) :
  unanswerable plugins documents_getMap item ->
  getIncomingCalls shared plugins documents_getMap item = ([], [])
  /\ getOutgoingCalls shared plugins documents_getMap item = ([], []).
Proof.
  intro H. unfold getIncomingCalls, getOutgoingCalls.
  destruct H as [Hd | data Hd Hp | data plugin Hd Hp Hc | data u Hd Hm Hg].
  - rewrite Hd. split; reflexivity.
  - rewrite Hd, Hp. split; reflexivity.
  - rewrite Hd, Hp, Hc. split; reflexivity.
  - rewrite Hd, Hm, Hg.
    destruct (arrayGet plugins (data_pluginId data)) as [plugin|]; [|split; reflexivity].
    destruct (callHierarchy plugin); split; reflexivity.
Qed.


Lemma unanswerable_calls_empty_witness :
  getIncomingCalls Sample.shared [] Sample.noMap Sample.plainItem = ([], [])
  /\ getOutgoingCalls Sample.shared [] Sample.noMap Sample.plainItem = ([], []).
Proof.
  apply unanswerable_calls_empty. apply no_data. reflexivity.
Defined.

(** ** Order of positions *)

Lemma count_le_mono (L : list Z) (o1 o2 : Z) :
  o1 <= o2 ->
  Nat.le (List.length (List.filter (fun o => o <=? o1) L))
         (List.length (List.filter (fun o => o <=? o2) L)).
Proof.
  intro H. induction L as [|x L IH]; simpl; [lia|].
  destruct (x <=? o1) eqn:E1; destruct (x <=? o2) eqn:E2; simpl;
    try apply Z.leb_le in E1; try apply Z.leb_gt in E2;
    unfold Nat.le in *; lia.
Qed.

(** [positionAt] is monotone: a later offset is a later position. *)
Lemma positionAt_mono (d : TextDocument) (o1 o2 : Z) :
  o1 <= o2 -> Position_leb (positionAt d o1) (positionAt d o2) = true.
Proof.
  intro H. unfold positionAt, Position_leb. cbn [line character].
  generalize (getLineOffsets d) as L; intro L.
  set (len := strlen (doc_text d)).
  set (a := Z.max (Z.min o1 len) 0).
  set (b := Z.max (Z.min o2 len) 0).
  assert (Hab : a <= b) by (unfold a, b; lia).
  pose proof (count_le_mono L Hab) as Hc. unfold Nat.le in Hc.
  set (c1 := List.length (List.filter (fun o => o <=? a) L)) in *.
  set (c2 := List.length (List.filter (fun o => o <=? b) L)) in *.
  destruct (Z.of_nat c1 - 1 <? Z.of_nat c2 - 1) eqn:E; [reflexivity|].
  apply Z.ltb_ge in E.
  assert (Hc12 : c1 = c2) by lia. rewrite <- Hc12.
  rewrite Z.eqb_refl. simpl. apply Z.leb_le. lia.
Qed.


(** ** Offsets and positions of one document *)

Lemma lineBreaks_bounds (s : string) : forall i x,
  In x (lineBreaks s i) -> i < x <= i + strlen s.
Proof.
  unfold strlen.
  induction s as [|c rest IH]; intros i x; simpl lineBreaks; [intros []|].
  assert (Hrest : In x (lineBreaks rest (i + 1)) ->
                  i < x <= i + Z.of_nat (String.length (String c rest))).
  { intro H. apply IH in H. simpl String.length. lia. }
  assert (Hcons : In x ((i + 1) :: lineBreaks rest (i + 1)) ->
                  i < x <= i + Z.of_nat (String.length (String c rest))).
  { intros [<-|H]; [simpl String.length; lia|auto]. }
  destruct (isLF c); [exact Hcons|].
  destruct (isCR c); [|exact Hrest].
  destruct rest as [|d rest']; [exact Hcons|].
  destruct (isLF d); [exact Hrest|exact Hcons].
Qed.

Lemma lineBreaks_increasing (s : string) : forall i, increasing (lineBreaks s i).
Proof.
  induction s as [|c rest IH]; intro i; simpl lineBreaks; [constructor|].
  assert (Hcons : increasing ((i + 1) :: lineBreaks rest (i + 1))).
  { constructor; [|apply IH]. intros y Hy. apply lineBreaks_bounds in Hy. lia. }
  destruct (isLF c); [exact Hcons|].
  destruct (isCR c); [|apply IH].
  destruct rest as [|d rest']; [exact Hcons|].
  destruct (isLF d); [apply IH|exact Hcons].
Qed.

Lemma getLineOffsets_increasing (d : TextDocument) : increasing (getLineOffsets d).
Proof.
  unfold getLineOffsets. constructor; [|apply lineBreaks_increasing].
  intros y Hy. apply lineBreaks_bounds in Hy. lia.
Qed.

(** In an increasing table, the entries not greater than [o] are a prefix. *)
Lemma increasing_count (L : list Z) (o : Z) :
  increasing L ->
  (forall i, (i < countUpTo L o)%nat -> nth i L 0 <= o)
  /\ (forall i, (countUpTo L o <= i < List.length L)%nat -> o < nth i L 0).
Proof.
  unfold countUpTo. induction 1 as [|x l Hx Hl [IH1 IH2]]; simpl.
  - split; intros i Hi; lia.
  - destruct (x <=? o) eqn:E.
    + apply Z.leb_le in E. simpl. split; intros [|j] Hj; try lia.
      * apply IH1. lia.
      * apply IH2. lia.
    + apply Z.leb_gt in E.
      assert (Hnil : List.filter (fun x => x <=? o) l = []).
      { clear - Hx E. induction l as [|y l IH]; simpl; [reflexivity|].
        assert (x < y) by (apply Hx; left; reflexivity).
        destruct (y <=? o) eqn:Ey; [apply Z.leb_le in Ey; lia|].
        apply IH. intros z Hz. apply Hx. right. exact Hz. }
      rewrite Hnil. simpl.
      split; intros [|j] Hj; simpl; try lia.
      assert (x < nth j l 0) by (apply Hx, nth_In; lia). lia.
Qed.

(** An offset of the text is recovered from its position. *)
Lemma offsetAt_positionAt (d : TextDocument) (o : Z) :
  0 <= o <= strlen (doc_text d) ->
  offsetAt d (positionAt d o) = o.
Proof.
  intro Ho. unfold offsetAt, positionAt. cbn [line character].
  replace (Z.max (Z.min o (strlen (doc_text d))) 0) with o by lia.
  pose proof (increasing_count o (getLineOffsets_increasing d)) as [H1 H2].
  unfold countUpTo in H1, H2.
  pose proof (filter_length_le (fun x => x <=? o) (getLineOffsets d)) as Hle.
  assert (Hpos : (1 <= countUpTo (getLineOffsets d) o)%nat).
  { unfold countUpTo, getLineOffsets. simpl.
    destruct (0 <=? o) eqn:E; [simpl; lia|apply Z.leb_gt in E; lia]. }
  unfold countUpTo in Hpos.
  set (L := getLineOffsets d) in *.
  set (c := List.length (List.filter (fun x => x <=? o) L)) in *.
  assert (Hln : Z.to_nat (Z.of_nat c - 1) = (c - 1)%nat) by lia.
  assert (Hln1 : Z.to_nat (Z.of_nat c - 1 + 1) = c) by lia.
  rewrite Hln, Hln1.
  destruct (Z.of_nat (List.length L) <=? Z.of_nat c - 1) eqn:E1;
    [apply Z.leb_le in E1; lia|].
  destruct (Z.of_nat c - 1 <? 0) eqn:E2; [apply Z.ltb_lt in E2; lia|].
  assert (Hlow : nth (c - 1) L 0 <= o) by (apply H1; lia).
  destruct (Z.of_nat c - 1 + 1 <? Z.of_nat (List.length L)) eqn:E3.
  - apply Z.ltb_lt in E3.
    assert (o < nth c L 0) by (apply H2; lia). lia.
  - lia.
Qed.





(** ** C1: inverted ranges *)




(** ** C2: a position on a boundary shared by two entries *)

Lemma firstOf_map_filter {A B} (f : A -> B) (p : A -> bool) (l : list A) :
  firstOf (List.map f (List.filter p l)) = option_map f (List.find p l).
Proof.
  induction l as [|x l IH]; simpl; [reflexivity|].
  destruct (p x); [reflexivity|exact IH].
Qed.

Lemma firstOf_map {A B} (f : A -> B) (l : list A) :
  firstOf (List.map f l) = option_map f (firstOf l).
Proof. destruct l; reflexivity. Qed.



(** ** C3: round trip through one entry *)

Lemma within_bounds r o : within r o = true <-> fst r <= o <= snd r.
Proof.
  unfold within. rewrite andb_true_iff, !Z.leb_le. tauto.
Qed.

Lemma validEntry_bounds {Data} (this : SourceMap Data) (m : Mapping Data) :
  validEntry this m = true ->
  0 <= fst (sourceRange m) <= snd (sourceRange m)
  /\ snd (sourceRange m) <= strlen (doc_text (sourceDocument this))
  /\ 0 <= fst (generatedRange m) <= snd (generatedRange m)
  /\ snd (generatedRange m) <= strlen (doc_text (mappedDocument this)).
Proof.
  unfold validEntry. rewrite !andb_true_iff, !Z.leb_le. lia.
Qed.




(** ** C4: teleports *)

Lemma accepts_anyData {Data} from offset (m : Mapping Data) :
  accepts from offset anyData m = within (rangeOf from m) offset.
Proof. unfold accepts, anyData. apply andb_true_r. Qed.

Lemma findTeleports_spec (this : TeleportSourceMap) (start : Position) :
  findTeleports this start =
  List.map
    (fun m => (positionAt (mappedDocument (tsm_map this))
                 (shifted KSourceRange KGeneratedRange Left
                    (offsetAt (sourceDocument (tsm_map this)) start) m),
               toGenedCapabilities (data m)))
    (List.filter (accepts KSourceRange (offsetAt (sourceDocument (tsm_map this)) start) anyData)
       (mappings (tsm_map this)))
  ++
  List.map
    (fun m => (positionAt (sourceDocument (tsm_map this))
                 (shifted KGeneratedRange KSourceRange Left
                    (offsetAt (mappedDocument (tsm_map this)) start) m),
               toSourceCapabilities (data m)))
    (List.filter (accepts KGeneratedRange (offsetAt (mappedDocument (tsm_map this)) start) anyData)
       (mappings (tsm_map this))).
Proof.
  unfold findTeleports, toGeneratedPositionsBase, toSourcePositionsBase.
  rewrite !toPositions_spec, !map_map. reflexivity.
Qed.

(** C4, as amended.  For a teleport entry with valid ranges A (its source
    range) and B (its generated range): at a position inside A whose distance
    from the start of A does not exceed the length of B, [findTeleports]
    yields a position inside B paired with the entry's A-to-B capabilities;
    at a position inside B whose distance from the start of B does not exceed
    the length of A, it yields a position inside A paired with the entry's
    B-to-A capabilities.  Every pair it yields carries the capabilities of the
    direction of an entry that holds the position on its origin side. *)
Theorem teleports_carry_their_direction
    (file : VirtualFile) (document : TextDocument)
    (teleportMappings : list (Mapping TeleportMappingData))
    (m : Mapping TeleportMappingData) (start : Position) :
  In m teleportMappings ->
  validEntry (tsm_map (mkTeleportSourceMap file document teleportMappings)) m = true ->
  (within (sourceRange m) (offsetAt document start) = true ->
   offsetAt document start - fst (sourceRange m) <= rangeLength (generatedRange m) ->
   exists target,
     In (target, toGenedCapabilities (data m))
        (findTeleports (mkTeleportSourceMap file document teleportMappings) start)
     /\ within (generatedRange m) (offsetAt document target) = true)
  /\ (within (generatedRange m) (offsetAt document start) = true ->
      offsetAt document start - fst (generatedRange m) <= rangeLength (sourceRange m) ->
      exists target,
        In (target, toSourceCapabilities (data m))
           (findTeleports (mkTeleportSourceMap file document teleportMappings) start)
        /\ within (sourceRange m) (offsetAt document target) = true)
  /\ (forall target caps,
        In (target, caps)
           (findTeleports (mkTeleportSourceMap file document teleportMappings) start) ->
        exists m',
          In m' teleportMappings
          /\ ((within (sourceRange m') (offsetAt document start) = true
               /\ caps = toGenedCapabilities (data m'))
              \/ (within (generatedRange m') (offsetAt document start) = true
                  /\ caps = toSourceCapabilities (data m')))).
Proof.
  intros Hin Hv. apply validEntry_bounds in Hv as (Hs & Hs' & Hg & Hg').
  simpl in Hs', Hg'. unfold rangeLength.
  rewrite findTeleports_spec. simpl.
  set (o := offsetAt document start).
  split; [|split].
  - intros Hw Hlen. apply within_bounds in Hw.
    exists (positionAt document (fst (generatedRange m) + (o - fst (sourceRange m)))).
    split.
    + apply in_or_app. left. apply in_map_iff. exists m. split; [reflexivity|].
      apply filter_In. split; [exact Hin|].
      rewrite accepts_anyData. apply within_bounds. exact Hw.
    + rewrite offsetAt_positionAt by lia. apply within_bounds. lia.
  - intros Hw Hlen. apply within_bounds in Hw.
    exists (positionAt document (fst (sourceRange m) + (o - fst (generatedRange m)))).
    split.
    + apply in_or_app. right. apply in_map_iff. exists m. split; [reflexivity|].
      apply filter_In. split; [exact Hin|].
      rewrite accepts_anyData. apply within_bounds. exact Hw.
    + rewrite offsetAt_positionAt by lia. apply within_bounds. lia.
  - intros target caps H. apply in_app_or in H as [H|H];
      apply in_map_iff in H as [m' [Heq Hm']];
      apply filter_In in Hm' as [Hm' Hacc];
      rewrite accepts_anyData in Hacc;
      inversion Heq; subst; exists m'; auto.
Qed.

Lemma teleports_carry_their_direction_witness :
  (exists target,
     In (target, Sample.capsAB) (findTeleports Sample.evenTeleports (Sample.pos 3))
     /\ within (20, 25) (offsetAt Sample.generatedDoc target) = true)
  /\ (exists target,
        In (target, Sample.capsBA) (findTeleports Sample.evenTeleports (Sample.pos 22))
        /\ within (0, 5) (offsetAt Sample.generatedDoc target) = true).
Proof.
  split.
  - apply (teleports_carry_their_direction
             (Sample.teleportFile [Sample.evenTeleport]) Sample.generatedDoc
             [Sample.evenTeleport] Sample.evenTeleport (Sample.pos 3)).
    + left; reflexivity.
    + reflexivity.
    + reflexivity.
    + vm_compute. discriminate.
  - apply (teleports_carry_their_direction
             (Sample.teleportFile [Sample.evenTeleport]) Sample.generatedDoc
             [Sample.evenTeleport] Sample.evenTeleport (Sample.pos 22)).
    + left; reflexivity.
    + reflexivity.
    + reflexivity.
    + vm_compute. discriminate.
Defined.

(** C4 fails as stated: at offset 5, inside range A = [0,10] of a teleport
    entry whose range B = [20,22] is shorter, the only pair [findTeleports]
    yields points at offset 25, outside B. *)
Lemma teleport_target_outside_shorter_range :
  within (sourceRange Sample.shrinkingTeleport)
    (offsetAt Sample.generatedDoc (Sample.pos 5)) = true
  /\ findTeleports Sample.shrinkingTeleports (Sample.pos 5)
     = [(Sample.pos 25, Sample.capsAB)]
  /\ forallb
       (fun r => negb (within (generatedRange Sample.shrinkingTeleport)
                         (offsetAt Sample.generatedDoc (fst r))))
       (findTeleports Sample.shrinkingTeleports (Sample.pos 5)) = true.
Proof. repeat split; vm_compute; reflexivity. Qed.

(** ** C5: items that cannot be traced back *)


Section TransformFacts.

Variable shared : Shared.
Variable documents_getMap : string -> option EmbeddedDocumentSourceMap.




End TransformFacts.



(** An item whose range has no source correspondence while its selection
    range has one is kept: its range becomes the whole source document. *)
Example untraceable_range_falls_back :
  option_map (fun r => item_range (fst r))
    (transformCallHierarchyItem Sample.shared Sample.getMapOfEmbedded Sample.wideItem [])
  = Some (mkRange (Sample.pos 0) (Sample.pos 40)).
Proof. vm_compute. reflexivity. Qed.

(** ** C6: the snapshot-keyed cache *)

Lemma IScriptSnapshot_eqb_eq (a b : IScriptSnapshot) :
  IScriptSnapshot_eqb a b = true <-> a = b.
Proof.
  unfold IScriptSnapshot_eqb. rewrite andb_true_iff, Pos.eqb_eq, String.eqb_eq.
  destruct a, b; simpl. split.
  - intros [-> ->]. reflexivity.
  - intro H. inversion H. auto.
Qed.

Lemma IScriptSnapshot_eqb_refl (a : IScriptSnapshot) : IScriptSnapshot_eqb a a = true.
Proof. apply IScriptSnapshot_eqb_eq. reflexivity. Qed.

Lemma IScriptSnapshot_eqb_neq (a b : IScriptSnapshot) :
  a <> b -> IScriptSnapshot_eqb a b = false.
Proof.
  intro H. destruct (IScriptSnapshot_eqb a b) eqn:E; [|reflexivity].
  apply IScriptSnapshot_eqb_eq in E. contradiction.
Qed.

Lemma weakMapGet_set_same m k v : weakMapGet (weakMapSet m k v) k = Some v.
Proof.
  induction m as [|[k' v'] m IH]; simpl.
  - rewrite IScriptSnapshot_eqb_refl. reflexivity.
  - destruct (IScriptSnapshot_eqb k' k) eqn:E; simpl.
    + rewrite IScriptSnapshot_eqb_refl. reflexivity.
    + rewrite E. exact IH.
Qed.

Lemma weakMapGet_set_other m k v k' :
  k' <> k -> weakMapGet (weakMapSet m k v) k' = weakMapGet m k'.
Proof.
  intro Hne. induction m as [|[k0 v0] m IH]; simpl.
  - rewrite IScriptSnapshot_eqb_neq by congruence. reflexivity.
  - destruct (IScriptSnapshot_eqb k0 k) eqn:E; simpl.
    + apply IScriptSnapshot_eqb_eq in E. subst k0.
      rewrite !IScriptSnapshot_eqb_neq by congruence. reflexivity.
    + destruct (IScriptSnapshot_eqb k0 k'); [reflexivity|exact IH].
Qed.

Section RegistryFacts.

Variable shared : Shared.

Lemma buildBundle_bundleOf version fileName snapshot rootFile :
  bundleOf snapshot (fst (buildBundle shared version fileName snapshot rootFile)).
Proof.
  unfold buildBundle.
  destruct (fold_left _ _ _) as [[v maps] teleports]. split; reflexivity.
Qed.

Lemma getMaps_hit fileName snapshot rootFile st result :
  weakMapGet (snapshotsToMaps st) snapshot = Some result ->
  getMaps shared fileName snapshot rootFile st = (result, st).
Proof. intro H. unfold getMaps. rewrite H. reflexivity. Qed.

(** After a call of [getMaps] the cache holds the returned bundle under the
    snapshot, and every other key is as before. *)
Lemma getMaps_cached fileName snapshot rootFile st :
  weakMapGet (snapshotsToMaps (snd (getMaps shared fileName snapshot rootFile st))) snapshot
  = Some (fst (getMaps shared fileName snapshot rootFile st))
  /\ forall other, other <> snapshot ->
       weakMapGet (snapshotsToMaps (snd (getMaps shared fileName snapshot rootFile st))) other
       = weakMapGet (snapshotsToMaps st) other.
Proof.
  unfold getMaps.
  destruct (weakMapGet (snapshotsToMaps st) snapshot) as [result|] eqn:E; simpl.
  - auto.
  - destruct (buildBundle shared (version st) fileName snapshot rootFile) as [result v].
    simpl. split; [apply weakMapGet_set_same|].
    intros other Hne. apply weakMapGet_set_other. exact Hne.
Qed.

Lemma getMaps_cache_ok fileName snapshot rootFile st :
  cache_ok st -> cache_ok (snd (getMaps shared fileName snapshot rootFile st)).
Proof.
  intros Hok k b Hget.
  unfold getMaps in Hget.
  destruct (weakMapGet (snapshotsToMaps st) snapshot) as [result|] eqn:E; simpl in Hget.
  - apply Hok. exact Hget.
  - pose proof (buildBundle_bundleOf (version st) fileName snapshot rootFile) as Hb.
    destruct (buildBundle shared (version st) fileName snapshot rootFile) as [result v].
    simpl in Hget, Hb.
    destruct (IScriptSnapshot_eqb k snapshot) eqn:Ek.
    + apply IScriptSnapshot_eqb_eq in Ek. subst k.
      rewrite weakMapGet_set_same in Hget. inversion Hget; subst. exact Hb.
    + rewrite weakMapGet_set_other in Hget.
      * apply Hok. exact Hget.
      * intro Heq. subst k. rewrite IScriptSnapshot_eqb_refl in Ek. discriminate.
Qed.

Lemma reachable_cache_ok st : reachable shared st -> cache_ok st.
Proof.
  induction 1 as [|st fileName snapshot rootFile _ IH].
  - intros k b H. discriminate.
  - apply getMaps_cache_ok. exact IH.
Qed.

Lemma getMaps_bundleOf fileName snapshot rootFile st :
  cache_ok st -> bundleOf snapshot (fst (getMaps shared fileName snapshot rootFile st)).
Proof.
  intro Hok.
  pose proof (getMaps_cached fileName snapshot rootFile st) as [Hget _].
  apply (getMaps_cache_ok fileName snapshot rootFile Hok). exact Hget.
Qed.

End RegistryFacts.

(** C6. In any state the registry can reach, a lookup for a snapshot returns
    a bundle that holds that very snapshot and a document with its text; a
    second lookup for the same snapshot, under whatever file name and root
    file, returns the identical bundle and leaves the cache and the version
    counter as they are (nothing is rebuilt); and the lookup changes the cache
    at no other snapshot. *)
Theorem cache_keyed_by_snapshot_identity
    (shared : Shared) (st : RegistryState)
    (fileName fileName' : string) (snapshot : IScriptSnapshot)
    (rootFile rootFile' : VirtualFile) :
  reachable shared st ->
  b_snapshot (fst (getMaps shared fileName snapshot rootFile st)) = snapshot
  /\ doc_text (b_document (fst (getMaps shared fileName snapshot rootFile st)))
     = snapshot_text snapshot
  /\ getMaps shared fileName' snapshot rootFile'
       (snd (getMaps shared fileName snapshot rootFile st))
     = getMaps shared fileName snapshot rootFile st
  /\ (forall other, other <> snapshot ->
        weakMapGet (snapshotsToMaps (snd (getMaps shared fileName snapshot rootFile st))) other
        = weakMapGet (snapshotsToMaps st) other).
Proof.
  intro Hr. apply reachable_cache_ok in Hr.
  pose proof (getMaps_bundleOf shared fileName snapshot rootFile Hr) as [Hs Ht].
  pose proof (getMaps_cached shared fileName snapshot rootFile st) as [Hget Hother].
  split; [exact Hs|]. split; [exact Ht|]. split; [|exact Hother].
  rewrite (getMaps_hit shared fileName' snapshot rootFile' _ Hget).
  destruct (getMaps shared fileName snapshot rootFile st); reflexivity.
Qed.

Lemma cache_keyed_by_snapshot_identity_witness :
  b_snapshot (fst (getMaps Sample.shared "/a.vue" Sample.snapshotB Sample.embeddedFile
                     (snd (getMaps Sample.shared "/a.vue" Sample.snapshotA
                             Sample.embeddedFile initialRegistry))))
  = Sample.snapshotB
  /\ doc_text (b_document
       (fst (getMaps Sample.shared "/a.vue" Sample.snapshotB Sample.embeddedFile
               (snd (getMaps Sample.shared "/a.vue" Sample.snapshotA
                       Sample.embeddedFile initialRegistry)))))
     = snapshot_text Sample.snapshotB
  /\ getMaps Sample.shared "/b.vue" Sample.snapshotB (Sample.teleportFile [])
       (snd (getMaps Sample.shared "/a.vue" Sample.snapshotB Sample.embeddedFile
               (snd (getMaps Sample.shared "/a.vue" Sample.snapshotA
                       Sample.embeddedFile initialRegistry))))
     = getMaps Sample.shared "/a.vue" Sample.snapshotB Sample.embeddedFile
         (snd (getMaps Sample.shared "/a.vue" Sample.snapshotA
                 Sample.embeddedFile initialRegistry))
  /\ (forall other, other <> Sample.snapshotB ->
        weakMapGet
          (snapshotsToMaps
             (snd (getMaps Sample.shared "/a.vue" Sample.snapshotB Sample.embeddedFile
                     (snd (getMaps Sample.shared "/a.vue" Sample.snapshotA
                             Sample.embeddedFile initialRegistry))))) other
        = weakMapGet
            (snapshotsToMaps
               (snd (getMaps Sample.shared "/a.vue" Sample.snapshotA
                       Sample.embeddedFile initialRegistry))) other).
Proof.
  apply cache_keyed_by_snapshot_identity.
  apply reachable_getMaps. apply reachable_init.
Defined.

(** ** C7: call-site ranges of location-equal calls *)






















Example call_sites_of_both_contributions :
  dedupe.withCallHierarchyIncomingCalls [Sample.incomingA; Sample.incomingB]
  = [mkIncomingCall Sample.plainItem [Sample.someRange; Sample.laterSite]].
Proof. vm_compute. reflexivity. Qed.

(** * Further properties *)

(** ** The range generators, entry by entry *)

Section RangeSpec.

Context {Data : Type}.
Variable this : SourceMap Data.
Variable api : Api.
Variable range : Range.
Variable filter : Data -> bool.

Let so := offsetAt (fromDocOf this api) (range_start range).
Let eo := offsetAt (fromDocOf this api) (range_end range).

Lemma toRangesVia_toRanges :
  toRangesVia this api range filter = toRanges this range filter api (api2Of api).
Proof. destruct api; reflexivity. Qed.

Lemma toRangeVia_firstOf :
  toRangeVia this api range filter = firstOf (toRangesVia this api range filter).
Proof. destruct api; reflexivity. Qed.

Lemma toRanges_first_spec (starts : list (Position * Mapping Data)) :
  toRanges_first this (api2Of api) range starts
  = (List.map
       (fun mapped =>
          mkRange (fst mapped)
            (positionAt (toDocOf this api)
               (shifted (fromKey api) (toKey api) Left eo (snd mapped))))
       (List.filter (fun mapped => within (rangeOf (fromKey api) (snd mapped)) eo) starts),
     List.filter (fun mapped => negb (within (rangeOf (fromKey api) (snd mapped)) eo)) starts).
Proof.
  induction starts as [|mapped rest IH]; simpl; [reflexivity|].
  rewrite IH, callApi2_spec. fold eo.
  destruct (within (rangeOf (fromKey api) (snd mapped)) eo); reflexivity.
Qed.

Lemma filter_map_comm {A B} (f : A -> B) (p : B -> bool) (l : list A) :
  List.filter p (List.map f l) = List.map f (List.filter (fun x => p (f x)) l).
Proof.
  induction l as [|x l IH]; simpl; [reflexivity|].
  rewrite IH. destruct (p (f x)); reflexivity.
Qed.

(** Step 1: one range for every entry that accepts the start and holds the
    end, in table order. *)
Lemma sameEntryRanges_spec :
  sameEntryRanges this range filter api
  = List.map (fun m => translated this api so eo m m Left)
      (List.filter (fun m => within (rangeOf (fromKey api) m) eo)
         (List.filter (accepts (fromKey api) so filter) (mappings this))).
Proof.
  unfold sameEntryRanges. rewrite toRanges_first_spec. simpl.
  rewrite callApi_spec, toPositions_spec. fold so.
  rewrite filter_map_comm, map_map. reflexivity.
Qed.


End RangeSpec.

Lemma firstOf_filter {A} (p : A -> bool) (l : list A) :
  firstOf (List.filter p l) = List.find p l.
Proof.
  induction l as [|x l IH]; simpl; [reflexivity|].
  destruct (p x); [reflexivity|exact IH].
Qed.

Lemma find_filter_head {A} (p : A -> bool) (l : list A) (x : A) :
  List.find p l = Some x -> exists rest, List.filter p l = x :: rest.
Proof.
  rewrite <- firstOf_filter. destruct (List.filter p l) as [|y rest]; simpl; [discriminate|].
  intro H. inversion H; subst. exists rest. reflexivity.
Qed.

Lemma toRangeVia_through_first {Data} (this : SourceMap Data) (api : Api) (range : Range)
    (filter : Data -> bool) (m : Mapping Data) :
  firstAccepting this (fromKey api)
    (offsetAt (fromDocOf this api) (range_start range)) filter = Some m ->
  within (rangeOf (fromKey api) m) (offsetAt (fromDocOf this api) (range_end range)) = true ->
  toRangeVia this api range filter
  = Some (translated this api
            (offsetAt (fromDocOf this api) (range_start range))
            (offsetAt (fromDocOf this api) (range_end range)) m m Left).
Proof.
  intros Hfirst Hend.
  rewrite toRangeVia_firstOf, toRangesVia_toRanges, toRanges_split, sameEntryRanges_spec.
  apply find_filter_head in Hfirst as [rest ->]. simpl. rewrite Hend. reflexivity.
Qed.







(** ** Maps whose entries have sides of equal length *)

Lemma evenEntries_In {Data} (this : SourceMap Data) (m : Mapping Data) :
  evenEntries this = true -> In m (mappings this) ->
  validEntry this m = true
  /\ rangeLength (sourceRange m) = rangeLength (generatedRange m).
Proof.
  unfold evenEntries. rewrite forallb_forall. intros H Hin.
  specialize (H m Hin). apply andb_prop in H as [Hv Hl].
  apply Z.eqb_eq in Hl. auto.
Qed.

Lemma shifted_even {Data} from to (m : Mapping Data) offset :
  rangeLength (sourceRange m) = rangeLength (generatedRange m) ->
  shifted from to Right offset m = shifted from to Left offset m.
Proof. unfold shifted. intro H. rewrite H. lia. Qed.

Lemma toPositions_bias_even {Data} (this : SourceMap Data) position filter
    fromDoc toDoc from to :
  evenEntries this = true ->
  toPositions this position filter fromDoc toDoc from to Right
  = toPositions this position filter fromDoc toDoc from to Left.
Proof.
  intro He. rewrite !toPositions_spec. apply map_ext_in.
  intros m Hm. apply filter_In in Hm as [Hin _].
  destruct (evenEntries_In this m He Hin) as [_ Hl].
  rewrite shifted_even by exact Hl. reflexivity.
Qed.

Lemma plural_bias_even {Data} (this : SourceMap Data) position filter baseOffset :
  evenEntries this = true ->
  toGeneratedPositions this position filter baseOffset
  = toGeneratedPositions this position filter Left
  /\ toSourcePositions this position filter baseOffset
     = toSourcePositions this position filter Left.
Proof.
  intro He. destruct baseOffset; [split; reflexivity|].
  unfold toGeneratedPositions, toSourcePositions, toGeneratedPositionsBase,
    toSourcePositionsBase.
  rewrite !toPositions_bias_even by exact He. split; reflexivity.
Qed.

(** X4. On a map whose entries have sides of equal length the bias changes
    nothing: the position lookups give the same results at left and at right
    bias, in both directions. *)
Theorem bias_immaterial_on_even_entries
    {Data : Type} (this : SourceMap Data) (position : Position) (filter : Data -> bool) :
  evenEntries this = true ->
  toGeneratedPositions this position filter Right
  = toGeneratedPositions this position filter Left
  /\ toSourcePositions this position filter Right
     = toSourcePositions this position filter Left
  /\ toGeneratedPosition this position filter Right
     = toGeneratedPosition this position filter Left
  /\ toSourcePosition this position filter Right
     = toSourcePosition this position filter Left.
Proof.
  intro He.
  destruct (plural_bias_even this position filter Right He) as [Hg Hs].
  unfold toGeneratedPosition, toSourcePosition.
  rewrite Hg, Hs. repeat split.
Qed.

Lemma bias_immaterial_on_even_entries_witness :
  toGeneratedPositions Sample.farMap (Sample.pos 3) anyData Right
  = toGeneratedPositions Sample.farMap (Sample.pos 3) anyData Left
  /\ toSourcePositions Sample.farMap (Sample.pos 3) anyData Right
     = toSourcePositions Sample.farMap (Sample.pos 3) anyData Left
  /\ toGeneratedPosition Sample.farMap (Sample.pos 3) anyData Right
     = toGeneratedPosition Sample.farMap (Sample.pos 3) anyData Left
  /\ toSourcePosition Sample.farMap (Sample.pos 3) anyData Right
     = toSourcePosition Sample.farMap (Sample.pos 3) anyData Left.
Proof.
  apply bias_immaterial_on_even_entries. reflexivity.
Defined.

Lemma accepts_bounds {Data} from offset (filter : Data -> bool) (m : Mapping Data) :
  accepts from offset filter m = true ->
  fst (rangeOf from m) <= offset <= snd (rangeOf from m) /\ filter (data m) = true.
Proof.
  unfold accepts. intro H. apply andb_prop in H as [Hw Hf].
  apply within_bounds in Hw. auto.
Qed.

(** X5. On a map whose entries have valid sides of equal length, every
    generated position found for a source position leads back to it: the
    source position (as [positionAt] of its offset) is among the source
    positions of the generated one, under the same filter.  The same holds
    from the generated side. *)
Theorem positions_lead_back
    {Data : Type} (this : SourceMap Data) (p q : Position) (filter : Data -> bool)
    (there back : BaseOffset) :
  evenEntries this = true ->
  (In q (toGeneratedPositions this p filter there) ->
   In (positionAt (sourceDocument this) (offsetAt (sourceDocument this) p))
      (toSourcePositions this q filter back))
  /\ (In q (toSourcePositions this p filter there) ->
      In (positionAt (mappedDocument this) (offsetAt (mappedDocument this) p))
         (toGeneratedPositions this q filter back)).
Proof.
  intro He.
  destruct (plural_bias_even this p filter there He) as [Hg Hs].
  destruct (plural_bias_even this q filter back He) as [Hg' Hs'].
  rewrite Hg, Hs, Hg', Hs'.
  unfold toGeneratedPositions, toSourcePositions, toGeneratedPositionsBase, toSourcePositionsBase.
  rewrite !toPositions_spec, !map_map. simpl.
  split; intro H; apply in_map_iff in H as [m [<- Hm]];
    apply filter_In in Hm as [Hin Hacc];
    destruct (evenEntries_In this m He Hin) as [Hv Hl];
    apply validEntry_bounds in Hv as (Hs1 & Hs2 & Hg1 & Hg2);
    apply accepts_bounds in Hacc as [Hb Hf];
    unfold rangeLength in Hl; simpl in Hb;
    apply in_map_iff; exists m; unfold shifted; simpl;
    rewrite offsetAt_positionAt by lia;
    (split; [f_equal; lia|]);
    apply filter_In; (split; [exact Hin|]);
    unfold accepts; rewrite Hf, andb_true_r; apply within_bounds; simpl; lia.
Qed.

Lemma positions_lead_back_witness :
  (In (Sample.pos 13) (toGeneratedPositions Sample.farMap (Sample.pos 3) anyData Left) ->
   In (positionAt (sourceDocument Sample.farMap) (offsetAt (sourceDocument Sample.farMap) (Sample.pos 3)))
      (toSourcePositions Sample.farMap (Sample.pos 13) anyData Left))
  /\ (In (Sample.pos 13) (toSourcePositions Sample.farMap (Sample.pos 3) anyData Left) ->
      In (positionAt (mappedDocument Sample.farMap) (offsetAt (mappedDocument Sample.farMap) (Sample.pos 3)))
         (toGeneratedPositions Sample.farMap (Sample.pos 13) anyData Left)).
Proof.
  apply positions_lead_back. reflexivity.
Defined.

(** X6. On a map whose entries have valid sides of equal length, a source
    range that lies in the first entry accepting its start is recovered from
    its generated range, when that entry is also the first to accept the
    generated start: [toSourceRange] of [toGeneratedRange] gives the range
    back, each end as [positionAt] of its offset. *)
Theorem range_leads_back
    {Data : Type} (this : SourceMap Data) (range : Range) (filter : Data -> bool)
    (m : Mapping Data) :
  evenEntries this = true ->
  firstAccepting this KSourceRange
    (offsetAt (sourceDocument this) (range_start range)) filter = Some m ->
  within (sourceRange m) (offsetAt (sourceDocument this) (range_end range)) = true ->
  firstAccepting this KGeneratedRange
    (shifted KSourceRange KGeneratedRange Left
       (offsetAt (sourceDocument this) (range_start range)) m) filter = Some m ->
  exists generated,
    toGeneratedRange this range filter = Some generated
    /\ toSourceRange this generated filter
       = Some (mkRange
                 (positionAt (sourceDocument this) (offsetAt (sourceDocument this) (range_start range)))
                 (positionAt (sourceDocument this) (offsetAt (sourceDocument this) (range_end range)))).
Proof.
  intros He Hfirst Hend Hback.
  pose proof (@toRangeVia_through_first Data this ApiToGeneratedPositionsBase range filter m
                Hfirst Hend) as Hgen.
  simpl in Hgen. eexists. split; [exact Hgen|].
  assert (Hin : In m (mappings this)).
  { unfold firstAccepting in Hfirst. apply find_some in Hfirst. tauto. }
  assert (Hacc : accepts KSourceRange (offsetAt (sourceDocument this) (range_start range))
                   filter m = true).
  { unfold firstAccepting in Hfirst. apply find_some in Hfirst. tauto. }
  destruct (evenEntries_In this m He Hin) as [Hv Hl].
  apply validEntry_bounds in Hv as (Hs1 & Hs2 & Hg1 & Hg2).
  apply accepts_bounds in Hacc as [Hb _]. simpl in Hb.
  apply within_bounds in Hend. unfold rangeLength in Hl.
  set (so := offsetAt (sourceDocument this) (range_start range)) in *.
  set (eo := offsetAt (sourceDocument this) (range_end range)) in *.
  set (g := translated this ApiToGeneratedPositionsBase so eo m m Left).
  assert (Hgs : offsetAt (mappedDocument this) (range_start g)
                = fst (generatedRange m) + (so - fst (sourceRange m))).
  { unfold g, translated, shifted. simpl. apply offsetAt_positionAt. lia. }
  assert (Hge : offsetAt (mappedDocument this) (range_end g)
                = fst (generatedRange m) + (eo - fst (sourceRange m))).
  { unfold g, translated, shifted. simpl. apply offsetAt_positionAt. lia. }
  pose proof (@toRangeVia_through_first Data this ApiToSourcePositionsBase g filter m) as Hsrc.
  cbn [fromDocOf fromKey toKey toDocOf rangeOf toRangeVia] in Hsrc.
  rewrite Hgs, Hge in Hsrc.
  unfold shifted in Hback. cbn [rangeOf] in Hback.
  rewrite Hsrc.
  - unfold translated, shifted. cbn [fromDocOf fromKey toKey toDocOf rangeOf].
    f_equal. f_equal; f_equal; lia.
  - exact Hback.
  - apply within_bounds. lia.
Qed.

Lemma range_leads_back_witness :
  exists generated,
    toGeneratedRange Sample.farMap (mkRange (Sample.pos 1) (Sample.pos 4)) anyData
    = Some generated
    /\ toSourceRange Sample.farMap generated anyData
       = Some (mkRange
                 (positionAt (sourceDocument Sample.farMap)
                    (offsetAt (sourceDocument Sample.farMap) (Sample.pos 1)))
                 (positionAt (sourceDocument Sample.farMap)
                    (offsetAt (sourceDocument Sample.farMap) (Sample.pos 4)))).
Proof.
  apply (@range_leads_back unit Sample.farMap (mkRange (Sample.pos 1) (Sample.pos 4))
           anyData (mkMapping (0, 5) (10, 15) tt)); reflexivity.
Defined.

(** ** Teleports, there and back *)

(** X7. On a teleport map whose entries have valid ranges of equal length,
    every teleport can be taken back: if [findTeleports] at a position yields
    a target with the capabilities of one direction of an entry, then
    [findTeleports] at the target yields the position ([positionAt] of its
    offset) with the capabilities of the other direction of that entry. *)
Theorem teleports_reversible
    (file : VirtualFile) (document : TextDocument)
    (teleportMappings : list (Mapping TeleportMappingData))
    (start target : Position) (caps : PositionCapabilities) :
  evenEntries (tsm_map (mkTeleportSourceMap file document teleportMappings)) = true ->
  In (target, caps)
     (findTeleports (mkTeleportSourceMap file document teleportMappings) start) ->
  exists m,
    In m teleportMappings
    /\ ((caps = toGenedCapabilities (data m)
         /\ In (positionAt document (offsetAt document start), toSourceCapabilities (data m))
               (findTeleports (mkTeleportSourceMap file document teleportMappings) target))
        \/ (caps = toSourceCapabilities (data m)
            /\ In (positionAt document (offsetAt document start), toGenedCapabilities (data m))
                  (findTeleports (mkTeleportSourceMap file document teleportMappings) target))).
Proof.
  intros He H.
  rewrite findTeleports_spec in H. rewrite findTeleports_spec.
  cbn [tsm_map mkTeleportSourceMap sourceDocument mappedDocument mappings] in *.
  set (o := offsetAt document start) in *.
  apply in_app_or in H as [H|H];
    apply in_map_iff in H as [m [Heq Hm]];
    apply filter_In in Hm as [Hin Hacc];
    inversion Heq; subst target caps; clear Heq;
    destruct (@evenEntries_In _ (tsm_map (mkTeleportSourceMap file document teleportMappings))
                m He Hin) as [Hv Hl];
    apply validEntry_bounds in Hv as (Hs1 & Hs2 & Hg1 & Hg2);
    cbn [tsm_map mkTeleportSourceMap sourceDocument mappedDocument] in Hs2, Hg2;
    apply accepts_bounds in Hacc as [Hb _]; cbn [rangeOf] in Hb;
    unfold rangeLength in Hl;
    exists m; (split; [exact Hin|]).
  - left. split; [reflexivity|]. apply in_or_app. right.
    apply in_map_iff. exists m. unfold shifted; cbn [rangeOf].
    rewrite offsetAt_positionAt by lia.
    split; [f_equal; f_equal; lia|].
    apply filter_In. split; [exact Hin|].
    rewrite accepts_anyData. apply within_bounds. cbn [rangeOf]. lia.
  - right. split; [reflexivity|]. apply in_or_app. left.
    apply in_map_iff. exists m. unfold shifted; cbn [rangeOf].
    rewrite offsetAt_positionAt by lia.
    split; [f_equal; f_equal; lia|].
    apply filter_In. split; [exact Hin|].
    rewrite accepts_anyData. apply within_bounds. cbn [rangeOf]. lia.
Qed.

Lemma teleports_reversible_witness :
  exists m,
    In m [Sample.evenTeleport]
    /\ ((Sample.capsAB = toGenedCapabilities (data m)
         /\ In (positionAt Sample.generatedDoc (offsetAt Sample.generatedDoc (Sample.pos 3)),
                toSourceCapabilities (data m))
               (findTeleports Sample.evenTeleports (Sample.pos 23)))
        \/ (Sample.capsAB = toSourceCapabilities (data m)
            /\ In (positionAt Sample.generatedDoc (offsetAt Sample.generatedDoc (Sample.pos 3)),
                   toGenedCapabilities (data m))
                  (findTeleports Sample.evenTeleports (Sample.pos 23)))).
Proof.
  apply (teleports_reversible (Sample.teleportFile [Sample.evenTeleport])
           Sample.generatedDoc [Sample.evenTeleport] (Sample.pos 3) (Sample.pos 23)
           Sample.capsAB).
  - reflexivity.
  - vm_compute. left. reflexivity.
Defined.

(** ** The registry, bundle by bundle *)

Section BundleFacts.

Variable shared : Shared.

Lemma numbered_length {A} (l : list A) : forall start,
  List.length (numbered start l) = List.length l.
Proof. induction l as [|x l IH]; intro start; simpl; [reflexivity|]. rewrite IH. reflexivity. Qed.

Lemma numbered_In {A} (l : list A) : forall start i x,
  In (i, x) (numbered start l) -> start <= i < start + Z.of_nat (List.length l) /\ In x l.
Proof.
  induction l as [|y l IH]; intros start i x; simpl; [intros []|].
  intros [H|H].
  - inversion H; subst. split; [lia|auto].
  - apply IH in H as [H1 H2]. split; [lia|auto].
Qed.

Lemma numbered_NoDup {A} (l : list A) : forall start,
  NoDup (List.map fst (numbered start l)).
Proof.
  induction l as [|y l IH]; intro start; simpl; constructor; [|apply IH].
  intro H. apply in_map_iff in H as [[i x] [Hi Hin]]. simpl in Hi. subst i.
  apply numbered_In in Hin as [Hin _]. lia.
Qed.

Lemma fold_embedStep rootFile document files : forall version maps teleports,
  fold_left (embedStep shared rootFile document) files (version, maps, teleports)
  = (version + Z.of_nat (List.length files),
     maps ++ List.map (mapOfFile shared rootFile document) (numbered version files),
     teleports ++ notEmpty (List.map (teleportOfFile shared) (numbered version files))).
Proof.
  induction files as [|file files IH]; intros version maps teleports.
  - simpl. rewrite !app_nil_r. f_equal. f_equal. lia.
  - cbn [fold_left numbered List.map List.length].
    unfold embedStep at 2. rewrite IH.
    unfold mapOfFile at 2, teleportOfFile at 2, embeddedDocument. cbn [fst snd].
    destruct (vf_teleportMappings file); cbn [notEmpty];
      rewrite <- !app_assoc; cbn [app]; f_equal; f_equal; lia.
Qed.

Lemma buildBundle_spec version fileName snapshot rootFile :
  buildBundle shared version fileName snapshot rootFile
  = (let document :=
       mkTextDocument (getUriByPath shared fileName) "vue" version (snapshot_text snapshot) in
     mkBundle fileName snapshot document rootFile
       (List.map (mapOfFile shared rootFile document)
          (numbered (version + 1) (forEachEmbeddeds rootFile)))
       (notEmpty (List.map (teleportOfFile shared)
                    (numbered (version + 1) (forEachEmbeddeds rootFile)))),
     version + 1 + Z.of_nat (List.length (forEachEmbeddeds rootFile))).
Proof.
  unfold buildBundle. rewrite fold_embedStep. reflexivity.
Qed.

Lemma buildBundle_built version fileName snapshot rootFile :
  builtBundle shared (fst (buildBundle shared version fileName snapshot rootFile)).
Proof.
  exists version. rewrite !buildBundle_spec. simpl. split; reflexivity.
Qed.

(** A property of bundles that every freshly built bundle has holds of every
    bundle in the cache of a reachable state. *)
Lemma reachable_bundles (P : IScriptSnapshot -> Bundle -> Prop) :
  (forall version fileName snapshot rootFile,
      P snapshot (fst (buildBundle shared version fileName snapshot rootFile))) ->
  forall st, reachable shared st ->
  forall k b, weakMapGet (snapshotsToMaps st) k = Some b -> P k b.
Proof.
  intros Hbuild st Hr.
  induction Hr as [|st fileName snapshot rootFile _ IH]; intros k b Hget.
  - discriminate.
  - unfold getMaps in Hget.
    destruct (weakMapGet (snapshotsToMaps st) snapshot) as [result|] eqn:E; simpl in Hget.
    + apply IH. exact Hget.
    + pose proof (Hbuild (version st) fileName snapshot rootFile) as Hb.
      destruct (buildBundle shared (version st) fileName snapshot rootFile) as [result v].
      simpl in Hget, Hb.
      destruct (IScriptSnapshot_eqb k snapshot) eqn:Ek.
      * apply IScriptSnapshot_eqb_eq in Ek. subst k.
        rewrite weakMapGet_set_same in Hget. inversion Hget; subst. exact Hb.
      * rewrite weakMapGet_set_other in Hget; [apply IH; exact Hget|].
        intro Heq. subst k. rewrite IScriptSnapshot_eqb_refl in Ek. discriminate.
Qed.

(** The bundle [getMaps] returns in a reachable state is a built bundle for
    the snapshot asked for. *)
Lemma getMaps_built fileName snapshot rootFile st :
  reachable shared st ->
  builtBundle shared (fst (getMaps shared fileName snapshot rootFile st))
  /\ bundleOf snapshot (fst (getMaps shared fileName snapshot rootFile st)).
Proof.
  intro Hr.
  pose proof (reachable_getMaps fileName snapshot rootFile Hr) as Hr'.
  pose proof (getMaps_cached shared fileName snapshot rootFile st) as [Hget _].
  split.
  - eapply (@reachable_bundles (fun _ b => builtBundle shared b));
      [intros; apply buildBundle_built|exact Hr'|exact Hget].
  - eapply (@reachable_bundles bundleOf);
      [intros; apply buildBundle_bundleOf|exact Hr'|exact Hget].
Qed.

End BundleFacts.

Section BuiltFacts.

Variable shared : Shared.

Lemma built_structure (b : Bundle) :
  builtBundle shared b ->
  exists version,
    doc_version (b_document b) = version
    /\ b_maps b
       = List.map (mapOfFile shared (b_file b) (b_document b))
           (numbered (version + 1) (forEachEmbeddeds (b_file b)))
    /\ b_teleports b
       = notEmpty (List.map (teleportOfFile shared)
                     (numbered (version + 1) (forEachEmbeddeds (b_file b)))).
Proof.
  intros [version [Hb _]]. exists version.
  rewrite buildBundle_spec in Hb. cbn [fst] in Hb.
  pose proof (f_equal b_document Hb) as Hdoc. cbn [b_document] in Hdoc.
  pose proof (f_equal b_maps Hb) as Hmaps. cbn [b_maps] in Hmaps.
  pose proof (f_equal b_teleports Hb) as Htel. cbn [b_teleports] in Htel.
  rewrite <- Hdoc in Hmaps.
  split; [rewrite Hdoc; reflexivity|]. split; assumption.
Qed.

Lemma map_fst_mapOfFile rootFile document (l : list (Z * VirtualFile)) :
  List.map fst (List.map (mapOfFile shared rootFile document) l) = List.map snd l.
Proof. rewrite map_map. reflexivity. Qed.

Lemma map_snd_numbered {A} (l : list A) : forall start,
  List.map snd (numbered start l) = l.
Proof. induction l as [|x l IH]; intro start; simpl; [reflexivity|]. rewrite IH. reflexivity. Qed.

Lemma notEmpty_In {A} (x : A) (l : list (option A)) :
  In x (notEmpty l) <-> In (Some x) l.
Proof.
  induction l as [|[y|] l IH]; simpl; [tauto| |].
  - rewrite IH. split; intros [H|H]; auto; left; congruence.
  - rewrite IH. split; [auto|]. intros [H|H]; [discriminate|exact H].
Qed.

Lemma findByFileName_Some {K V} (file : V -> VirtualFile) fileName
    (entries : list (K * V)) (v : V) :
  findByFileName file fileName entries = Some v ->
  toLowerCase (vf_fileName (file v)) = toLowerCase fileName
  /\ exists k, In (k, v) entries.
Proof.
  induction entries as [|[k v0] entries IH]; simpl; [discriminate|].
  destruct (String.eqb (toLowerCase (vf_fileName (file v0))) (toLowerCase fileName)) eqn:E.
  - intro H. inversion H; subst. apply String.eqb_eq in E. split; [exact E|].
    exists k. left. reflexivity.
  - intro H. destruct (IH H) as [H1 [k' H2]]. split; [exact H1|].
    exists k'. right. exact H2.
Qed.

Lemma findByFileName_None {K V} (file : V -> VirtualFile) fileName
    (entries : list (K * V)) :
  findByFileName file fileName entries = None ->
  forall k v, In (k, v) entries ->
    toLowerCase (vf_fileName (file v)) <> toLowerCase fileName.
Proof.
  induction entries as [|[k0 v0] entries IH]; simpl; [intros _ k v []|].
  destruct (String.eqb (toLowerCase (vf_fileName (file v0))) (toLowerCase fileName)) eqn:E;
    [discriminate|].
  intros H k v [Heq|Hin].
  - inversion Heq; subst. apply String.eqb_neq. exact E.
  - apply (IH H k v Hin).
Qed.

End BuiltFacts.

(** X8. In any state the registry can reach, the bundle a lookup returns has
    one source map for every file of its tree, in walk order: the map of a
    file is between the bundle's source document and a document that holds
    the file's text under the file's uri, and has the file's mappings.  It
    has a teleport map exactly for the files that have teleport mappings,
    with both sides on the embedded document of the file. *)
Theorem bundle_covers_the_tree
    (shared : Shared) (st : RegistryState) (fileName : string)
    (snapshot : IScriptSnapshot) (rootFile : VirtualFile) :
  reachable shared st ->
  List.map fst (b_maps (fst (getMaps shared fileName snapshot rootFile st)))
  = forEachEmbeddeds (b_file (fst (getMaps shared fileName snapshot rootFile st)))
  /\ (forall file map,
        In (file, map) (b_maps (fst (getMaps shared fileName snapshot rootFile st))) ->
        esm_file map = file
        /\ esm_rootFile map = b_file (fst (getMaps shared fileName snapshot rootFile st))
        /\ sourceDocument (esm_map map)
           = b_document (fst (getMaps shared fileName snapshot rootFile st))
        /\ doc_text (mappedDocument (esm_map map)) = vf_text file
        /\ doc_uri (mappedDocument (esm_map map)) = getUriByPath shared (vf_fileName file)
        /\ mappings (esm_map map) = vf_mappings file)
  /\ (forall file teleport,
        In (file, teleport)
           (b_teleports (fst (getMaps shared fileName snapshot rootFile st))) ->
        tsm_file teleport = file
        /\ vf_teleportMappings file = Some (mappings (tsm_map teleport))
        /\ sourceDocument (tsm_map teleport) = tsm_document teleport
        /\ mappedDocument (tsm_map teleport) = tsm_document teleport
        /\ exists map,
             In (file, map) (b_maps (fst (getMaps shared fileName snapshot rootFile st)))
             /\ mappedDocument (esm_map map) = tsm_document teleport)
  /\ (forall file teleportMappings,
        In file (forEachEmbeddeds (b_file (fst (getMaps shared fileName snapshot rootFile st)))) ->
        vf_teleportMappings file = Some teleportMappings ->
        exists teleport,
          In (file, teleport)
             (b_teleports (fst (getMaps shared fileName snapshot rootFile st)))).
Proof.
  intro Hr.
  destruct (@getMaps_built shared fileName snapshot rootFile st Hr) as [Hb _].
  set (b := fst (getMaps shared fileName snapshot rootFile st)) in *.
  destruct (built_structure Hb) as [v (Hv & Hmaps & Htel)].
  split; [|split; [|split]].
  - rewrite Hmaps, map_fst_mapOfFile, map_snd_numbered. reflexivity.
  - intros file map Hin. rewrite Hmaps in Hin.
    apply in_map_iff in Hin as [[i f] [Heq _]].
    unfold mapOfFile in Heq. cbn [fst snd] in Heq. inversion Heq; subst file map.
    repeat split; reflexivity.
  - intros file teleport Hin. rewrite Htel in Hin.
    apply notEmpty_In in Hin. apply in_map_iff in Hin as [[i f] [Heq Hnum]].
    unfold teleportOfFile in Heq. cbn [fst snd] in Heq.
    destruct (vf_teleportMappings f) as [t|] eqn:Et; [|discriminate].
    inversion Heq; subst file teleport. cbn.
    repeat split; try reflexivity; try exact Et.
    exists (snd (mapOfFile shared (b_file b) (b_document b) (i, f))).
    split; [|reflexivity].
    rewrite Hmaps. apply in_map_iff. exists (i, f). split; [reflexivity|exact Hnum].
  - intros file t Hin Ht. rewrite Htel.
    rewrite <- (map_snd_numbered (forEachEmbeddeds (b_file b)) (v + 1)) in Hin.
    apply in_map_iff in Hin as [[i f] [Hf Hnum]]. cbn [snd] in Hf. subst f.
    exists (mkTeleportSourceMap file (embeddedDocument shared i file) t).
    apply notEmpty_In. apply in_map_iff. exists (i, file).
    split; [|exact Hnum]. unfold teleportOfFile. cbn [fst snd]. rewrite Ht. reflexivity.
Qed.

Lemma bundle_covers_the_tree_witness :
  List.map fst (b_maps (fst (getMaps Sample.shared "/a.vue" Sample.snapshotA
                              (Sample.teleportFile [Sample.evenTeleport]) initialRegistry)))
  = [Sample.teleportFile [Sample.evenTeleport]].
Proof.
  destruct (@bundle_covers_the_tree Sample.shared initialRegistry "/a.vue" Sample.snapshotA
              (Sample.teleportFile [Sample.evenTeleport]) (reachable_init Sample.shared))
    as [H _].
  exact H.
Defined.

(** X9. In any state the registry can reach, the map [getMap] returns for an
    embedded uri belongs to a file whose name equals the requested path up to
    letter case; it translates into a source document that holds the text of
    the snapshot the uri is registered under, and carries the text and the
    mappings of its file.  When [getMap] returns nothing for a registered
    uri, it is because no map of the bundle has a file of that name. *)
Theorem getMap_returns_the_named_file
    (shared : Shared) (mapper : DocumentRegistry) (st : RegistryState)
    (virtualFileUri sourceName : string) (snapshot : IScriptSnapshot)
    (rootFile : VirtualFile) :
  reachable shared st ->
  getSourceByVirtualFileName mapper (getPathOfUri shared virtualFileUri)
  = Some (sourceName, snapshot, rootFile) ->
  (forall map,
     fst (getMap shared mapper virtualFileUri st) = Some map ->
     toLowerCase (vf_fileName (esm_file map))
     = toLowerCase (getPathOfUri shared virtualFileUri)
     /\ doc_text (sourceDocument (esm_map map)) = snapshot_text snapshot
     /\ doc_text (mappedDocument (esm_map map)) = vf_text (esm_file map)
     /\ mappings (esm_map map) = vf_mappings (esm_file map))
  /\ (fst (getMap shared mapper virtualFileUri st) = None ->
      forall file,
        In file (forEachEmbeddeds
                   (b_file (fst (getMaps shared sourceName snapshot rootFile st)))) ->
        toLowerCase (vf_fileName file)
        <> toLowerCase (getPathOfUri shared virtualFileUri))
  /\ snd (getMap shared mapper virtualFileUri st)
     = snd (getMaps shared sourceName snapshot rootFile st).
Proof.
  intros Hr Hsrc. unfold getMap. rewrite Hsrc.
  destruct (@getMaps_built shared sourceName snapshot rootFile st Hr) as [Hb [_ Htext]].
  destruct (getMaps shared sourceName snapshot rootFile st) as [b st'] eqn:E.
  cbn [fst snd] in *.
  destruct (built_structure Hb) as [v (Hv & Hmaps & _)].
  split; [|split; [|reflexivity]].
  - intros map Hfind. apply findByFileName_Some in Hfind as [Hname [file Hin]].
    split; [exact Hname|].
    rewrite Hmaps in Hin. apply in_map_iff in Hin as [[i f] [Heq _]].
    unfold mapOfFile in Heq. cbn [fst snd] in Heq. inversion Heq; subst file map.
    cbn. repeat split; try reflexivity. exact Htext.
  - intros Hnone file Hfile.
    rewrite <- (map_snd_numbered (forEachEmbeddeds (b_file b)) (v + 1)) in Hfile.
    apply in_map_iff in Hfile as [[i f] [Hf Hnum]]. cbn [snd] in Hf. subst f.
    apply (findByFileName_None esm_file _ _ Hnone file
             (snd (mapOfFile shared (b_file b) (b_document b) (i, file)))).
    rewrite Hmaps. apply in_map_iff. exists (i, file). split; [reflexivity|exact Hnum].
Qed.

Lemma getMap_returns_the_named_file_witness :
  toLowerCase (vf_fileName Sample.embeddedFile) = toLowerCase "FILE:///A.vue.ts"
  /\ snd (getMap Sample.shared
            (mkDocumentRegistry (fun _ => None)
               (fun _ => Some ("/a.vue", Sample.snapshotA, Sample.embeddedFile)))
            "FILE:///A.vue.ts" initialRegistry)
     = snd (getMaps Sample.shared "/a.vue" Sample.snapshotA Sample.embeddedFile
              initialRegistry).
Proof.
  destruct (@getMap_returns_the_named_file Sample.shared
              (mkDocumentRegistry (fun _ => None)
                 (fun _ => Some ("/a.vue", Sample.snapshotA, Sample.embeddedFile)))
              initialRegistry "FILE:///A.vue.ts" "/a.vue" Sample.snapshotA
              Sample.embeddedFile (reachable_init Sample.shared) eq_refl) as [H [_ H']].
  split; [|exact H'].
  apply (H (snd (mapOfFile Sample.shared Sample.embeddedFile
                   (mkTextDocument "/a.vue" "vue" 0 (snapshot_text Sample.snapshotA))
                   (1, Sample.embeddedFile)))).
  vm_compute. reflexivity.
Defined.

(** The sample lookup does find the map, under a uri in other letter case. *)
Example getMap_ignores_letter_case :
  option_map (fun m => vf_fileName (esm_file m))
    (fst (getMap Sample.shared
            (mkDocumentRegistry (fun _ => None)
               (fun _ => Some ("/a.vue", Sample.snapshotA, Sample.embeddedFile)))
            "FILE:///A.vue.ts" initialRegistry))
  = Some "file:///a.vue.ts".
Proof. vm_compute. reflexivity. Qed.

(** X10. In any state the registry can reach, the teleport map [getTeleport]
    returns for an embedded uri belongs to a file whose name equals the
    requested path up to letter case; both of its sides are one document,
    which holds the text of the file, and its entries are the teleport
    mappings of the file. *)
Theorem getTeleport_returns_the_named_file
    (shared : Shared) (mapper : DocumentRegistry) (st : RegistryState)
    (virtualFileUri sourceName : string) (snapshot : IScriptSnapshot)
    (rootFile : VirtualFile) (teleport : TeleportSourceMap) :
  reachable shared st ->
  getSourceByVirtualFileName mapper (getPathOfUri shared virtualFileUri)
  = Some (sourceName, snapshot, rootFile) ->
  fst (getTeleport shared mapper virtualFileUri st) = Some teleport ->
  toLowerCase (vf_fileName (tsm_file teleport))
  = toLowerCase (getPathOfUri shared virtualFileUri)
  /\ sourceDocument (tsm_map teleport) = tsm_document teleport
  /\ mappedDocument (tsm_map teleport) = tsm_document teleport
  /\ doc_text (tsm_document teleport) = vf_text (tsm_file teleport)
  /\ vf_teleportMappings (tsm_file teleport) = Some (mappings (tsm_map teleport)).
Proof.
  intros Hr Hsrc. unfold getTeleport. rewrite Hsrc.
  destruct (@getMaps_built shared sourceName snapshot rootFile st Hr) as [Hb _].
  destruct (getMaps shared sourceName snapshot rootFile st) as [b st'] eqn:E.
  cbn [fst snd] in *.
  destruct (built_structure Hb) as [v (_ & _ & Htel)].
  intro Hfind. apply findByFileName_Some in Hfind as [Hname [file Hin]].
  split; [exact Hname|].
  rewrite Htel in Hin. apply notEmpty_In in Hin.
  apply in_map_iff in Hin as [[i f] [Heq _]].
  unfold teleportOfFile in Heq. cbn [fst snd] in Heq.
  destruct (vf_teleportMappings f) as [t|] eqn:Et; [|discriminate].
  inversion Heq; subst file teleport. cbn. repeat split; try reflexivity. exact Et.
Qed.

Lemma getTeleport_returns_the_named_file_witness :
  toLowerCase (vf_fileName (tsm_file
     (mkTeleportSourceMap (Sample.teleportFile [Sample.evenTeleport])
        (embeddedDocument Sample.shared 1 (Sample.teleportFile [Sample.evenTeleport]))
        [Sample.evenTeleport])))
  = toLowerCase "/A.VUE.TS".
Proof.
  apply (@getTeleport_returns_the_named_file Sample.shared
           (mkDocumentRegistry (fun _ => None)
              (fun _ => Some ("/a.vue", Sample.snapshotA,
                              Sample.teleportFile [Sample.evenTeleport])))
           initialRegistry "/A.VUE.TS" "/a.vue" Sample.snapshotA
           (Sample.teleportFile [Sample.evenTeleport])
           (mkTeleportSourceMap (Sample.teleportFile [Sample.evenTeleport])
              (embeddedDocument Sample.shared 1 (Sample.teleportFile [Sample.evenTeleport]))
              [Sample.evenTeleport])
           (reachable_init Sample.shared) eq_refl).
  vm_compute. reflexivity.
Defined.

(** ** Document versions *)

Section VersionFacts.

Variable shared : Shared.

Lemma bundleVersions_built version fileName snapshot rootFile :
  bundleVersions (fst (buildBundle shared version fileName snapshot rootFile))
  = version :: List.map fst (numbered (version + 1) (forEachEmbeddeds rootFile)).
Proof.
  rewrite buildBundle_spec. unfold bundleVersions. cbn.
  f_equal. rewrite map_map. apply map_ext. intros [i f]. reflexivity.
Qed.

Lemma bundleVersions_range version fileName snapshot rootFile v :
  In v (bundleVersions (fst (buildBundle shared version fileName snapshot rootFile))) ->
  version <= v < snd (buildBundle shared version fileName snapshot rootFile).
Proof.
  rewrite bundleVersions_built, buildBundle_spec. cbn [snd].
  intros [<-|H]; [lia|].
  apply in_map_iff in H as [[i f] [Hi Hin]]. cbn [fst] in Hi. subst i.
  apply numbered_In in Hin as [Hin _]. lia.
Qed.

Lemma buildBundle_counter version fileName snapshot rootFile :
  version < snd (buildBundle shared version fileName snapshot rootFile).
Proof. rewrite buildBundle_spec. cbn [snd]. lia. Qed.

Lemma getMaps_versionsBelowCounter fileName snapshot rootFile st :
  versionsBelowCounter st ->
  versionsBelowCounter (snd (getMaps shared fileName snapshot rootFile st)).
Proof.
  intros Hinv k b v Hget Hv. unfold getMaps in *.
  destruct (weakMapGet (snapshotsToMaps st) snapshot) as [result|] eqn:E; cbn [snd] in *.
  - apply (Hinv k b v Hget Hv).
  - pose proof (@bundleVersions_range (version st) fileName snapshot rootFile) as Hrange.
    pose proof (buildBundle_counter (version st) fileName snapshot rootFile) as Hcount.
    destruct (buildBundle shared (version st) fileName snapshot rootFile) as [result v'].
    cbn [fst snd version snapshotsToMaps] in *.
    destruct (IScriptSnapshot_eqb k snapshot) eqn:Ek.
    + apply IScriptSnapshot_eqb_eq in Ek. subst k.
      rewrite weakMapGet_set_same in Hget. inversion Hget; subst.
      apply Hrange in Hv. lia.
    + rewrite weakMapGet_set_other in Hget.
      * pose proof (Hinv k b v Hget Hv). lia.
      * intro Heq. subst k. rewrite IScriptSnapshot_eqb_refl in Ek. discriminate.
Qed.

Lemma reachable_versionsBelowCounter st :
  reachable shared st -> versionsBelowCounter st.
Proof.
  induction 1 as [|st fileName snapshot rootFile _ IH].
  - intros k b v H. discriminate.
  - apply getMaps_versionsBelowCounter. exact IH.
Qed.

End VersionFacts.

(** X11. The documents the registry creates never share a version.  When a
    lookup misses the cache of a reachable state, the documents of the new
    bundle have pairwise distinct versions, each greater than the version of
    every document of every cached bundle, and the counter advances by one
    more than the number of files of the tree; a lookup that hits leaves the
    counter as it is. *)
Theorem document_versions_are_fresh
    (shared : Shared) (st : RegistryState) (fileName : string)
    (snapshot : IScriptSnapshot) (rootFile : VirtualFile) :
  reachable shared st ->
  (weakMapGet (snapshotsToMaps st) snapshot = None ->
   NoDup (bundleVersions (fst (getMaps shared fileName snapshot rootFile st)))
   /\ (forall k b v v',
         weakMapGet (snapshotsToMaps st) k = Some b ->
         In v (bundleVersions b) ->
         In v' (bundleVersions (fst (getMaps shared fileName snapshot rootFile st))) ->
         v < v')
   /\ version (snd (getMaps shared fileName snapshot rootFile st))
      = version st + 1 + Z.of_nat (List.length (forEachEmbeddeds rootFile)))
  /\ (weakMapGet (snapshotsToMaps st) snapshot <> None ->
      version (snd (getMaps shared fileName snapshot rootFile st)) = version st).
Proof.
  intro Hr. apply reachable_versionsBelowCounter in Hr.
  unfold getMaps. split.
  - intro Hmiss. rewrite Hmiss.
    pose proof (@bundleVersions_range shared (version st) fileName snapshot rootFile) as Hrange.
    pose proof (bundleVersions_built shared (version st) fileName snapshot rootFile) as Hbv.
    pose proof (buildBundle_spec shared (version st) fileName snapshot rootFile) as Hspec.
    destruct (buildBundle shared (version st) fileName snapshot rootFile) as [result v'].
    cbn [fst snd version] in *.
    split; [|split].
    + rewrite Hbv. constructor; [|apply numbered_NoDup].
      intro H. apply in_map_iff in H as [[i f] [Hi Hin]]. cbn [fst] in Hi. subst i.
      apply numbered_In in Hin as [Hin _]. lia.
    + intros k b v w Hget Hv Hw. apply Hrange in Hw.
      pose proof (Hr k b v Hget Hv). lia.
    + inversion Hspec. reflexivity.
  - intro Hhit.
    destruct (weakMapGet (snapshotsToMaps st) snapshot); [reflexivity|congruence].
Qed.

Lemma document_versions_are_fresh_witness :
  version (snd (getMaps Sample.shared "/a.vue" Sample.snapshotA Sample.embeddedFile
                  (snd (getMaps Sample.shared "/a.vue" Sample.snapshotA Sample.embeddedFile
                          initialRegistry))))
  = version (snd (getMaps Sample.shared "/a.vue" Sample.snapshotA Sample.embeddedFile
                    initialRegistry))
  /\ version (snd (getMaps Sample.shared "/a.vue" Sample.snapshotB Sample.embeddedFile
                     (snd (getMaps Sample.shared "/a.vue" Sample.snapshotA
                             Sample.embeddedFile initialRegistry))))
     = version (snd (getMaps Sample.shared "/a.vue" Sample.snapshotA Sample.embeddedFile
                       initialRegistry))
       + 1 + Z.of_nat (List.length (forEachEmbeddeds Sample.embeddedFile)).
Proof.
  split.
  - apply (@document_versions_are_fresh Sample.shared
             (snd (getMaps Sample.shared "/a.vue" Sample.snapshotA Sample.embeddedFile
                     initialRegistry))
             "/a.vue" Sample.snapshotA Sample.embeddedFile).
    + apply reachable_getMaps. apply reachable_init.
    + vm_compute. discriminate.
  - apply (@document_versions_are_fresh Sample.shared
             (snd (getMaps Sample.shared "/a.vue" Sample.snapshotA Sample.embeddedFile
                     initialRegistry))
             "/a.vue" Sample.snapshotB Sample.embeddedFile).
    + apply reachable_getMaps. apply reachable_init.
    + vm_compute. reflexivity.
Defined.

(** ** Lookups repeated *)

Lemma getMaps_twice shared fileName snapshot rootFile fileName' rootFile' st :
  getMaps shared fileName' snapshot rootFile'
    (snd (getMaps shared fileName snapshot rootFile st))
  = getMaps shared fileName snapshot rootFile st.
Proof.
  pose proof (getMaps_cached shared fileName snapshot rootFile st) as [Hget _].
  rewrite (getMaps_hit shared fileName' snapshot rootFile' _ Hget).
  destruct (getMaps shared fileName snapshot rootFile st); reflexivity.
Qed.

(** X12. A lookup repeated is a lookup answered from the cache: [get],
    [getMap] and [getTeleport] asked again for the same uri return what they
    returned before and leave the registry as the first call left it, and
    after [getMap] for a uri [getTeleport] for that uri changes nothing
    either. *)
Theorem lookups_repeat_from_cache
    (shared : Shared) (mapper : DocumentRegistry) (uri : string) (st : RegistryState) :
  registry_get shared mapper uri (snd (registry_get shared mapper uri st))
  = registry_get shared mapper uri st
  /\ getMap shared mapper uri (snd (getMap shared mapper uri st))
     = getMap shared mapper uri st
  /\ getTeleport shared mapper uri (snd (getTeleport shared mapper uri st))
     = getTeleport shared mapper uri st
  /\ snd (getTeleport shared mapper uri (snd (getMap shared mapper uri st)))
     = snd (getMap shared mapper uri st).
Proof.
  unfold registry_get, getMap, getTeleport.
  destruct (mapper_get mapper (getPathOfUri shared uri)) as [[snapshot rootFile]|];
    destruct (getSourceByVirtualFileName mapper (getPathOfUri shared uri))
      as [[[s0 s1] s2]|];
    repeat split; try reflexivity;
    try (destruct (getMaps shared (getPathOfUri shared uri) snapshot rootFile st)
           as [b st'] eqn:E; cbn [fst snd];
         pose proof (getMaps_twice shared (getPathOfUri shared uri) snapshot rootFile
                       (getPathOfUri shared uri) rootFile st) as Ht;
         rewrite E in Ht; cbn [snd] in Ht; rewrite Ht; reflexivity);
    try (destruct (getMaps shared s0 s1 s2 st) as [b st'] eqn:E; cbn [fst snd];
         pose proof (getMaps_twice shared s0 s1 s2 s0 s2 st) as Ht;
         rewrite E in Ht; cbn [snd] in Ht; rewrite Ht; reflexivity).
Qed.

(** ** Call hierarchy: what is asked of the plugins *)

(** X13. [getIncomingCalls] and [getOutgoingCalls] put at most one query, and
    only to the plugin whose index the item records; the item asked about is
    the item itself or the original item its data holds. *)
Theorem at_most_one_query_to_the_recorded_plugin
    (shared : Shared) (plugins : list Plugin)
    (documents_getMap : string -> option EmbeddedDocumentSourceMap)
    (item : CallHierarchyItem) (q : PluginQuery) :
  In q (snd (getIncomingCalls shared plugins documents_getMap item))
  \/ In q (snd (getOutgoingCalls shared plugins documents_getMap item)) ->
  (List.length (snd (getIncomingCalls shared plugins documents_getMap item)) <= 1)%nat
  /\ (List.length (snd (getOutgoingCalls shared plugins documents_getMap item)) <= 1)%nat
  /\ exists data plugin,
       item_data item = Some data
       /\ queryPluginId q = data_pluginId data
       /\ arrayGet plugins (data_pluginId data) = Some plugin
       /\ callHierarchy plugin <> None
       /\ (queryItem q = item \/ queryItem q = data_originalItem data).
Proof.
  unfold getIncomingCalls, getOutgoingCalls.
  destruct (item_data item) as [data|] eqn:Ed; [|simpl; intros [[]|[]]].
  destruct (arrayGet plugins (data_pluginId data)) as [plugin|] eqn:Ep;
    [|simpl; intros [[]|[]]].
  destruct (callHierarchy plugin) as [api|] eqn:Eapi; [|simpl; intros [[]|[]]].
  assert (Hfin : forall q0,
            queryPluginId q0 = data_pluginId data ->
            queryItem q0 = item \/ queryItem q0 = data_originalItem data ->
            exists data0 plugin0,
              Some data = Some data0
              /\ queryPluginId q0 = data_pluginId data0
              /\ arrayGet plugins (data_pluginId data0) = Some plugin0
              /\ callHierarchy plugin0 <> None
              /\ (queryItem q0 = item \/ queryItem q0 = data_originalItem data0)).
  { intros q0 H1 H2. exists data, plugin.
    split; [reflexivity|]. split; [exact H1|]. split; [exact Ep|].
    split; [rewrite Eapi; discriminate|exact H2]. }
  destruct (data_map data) as [u|].
  - destruct (documents_getMap u); simpl; [|intros [[]|[]]].
    intros [[<-|[]]|[<-|[]]]; (split; [lia|]); (split; [lia|]);
      apply Hfin; simpl; auto.
  - simpl.
    intros [[<-|[]]|[<-|[]]]; (split; [lia|]); (split; [lia|]);
      apply Hfin; simpl; auto.
Qed.

Lemma at_most_one_query_to_the_recorded_plugin_witness :
  (List.length (snd (getIncomingCalls Sample.shared [Sample2.quietPlugin] Sample.noMap
                       Sample2.preparedPlain)) <= 1)%nat
  /\ (List.length (snd (getOutgoingCalls Sample.shared [Sample2.quietPlugin] Sample.noMap
                          Sample2.preparedPlain)) <= 1)%nat
  /\ exists data plugin,
       item_data Sample2.preparedPlain = Some data
       /\ queryPluginId (QueryIncomingCalls 0 Sample2.preparedPlain) = data_pluginId data
       /\ arrayGet [Sample2.quietPlugin] (data_pluginId data) = Some plugin
       /\ callHierarchy plugin <> None
       /\ (queryItem (QueryIncomingCalls 0 Sample2.preparedPlain) = Sample2.preparedPlain
           \/ queryItem (QueryIncomingCalls 0 Sample2.preparedPlain) = data_originalItem data).
Proof.
  apply (@at_most_one_query_to_the_recorded_plugin Sample.shared [Sample2.quietPlugin]
           Sample.noMap Sample2.preparedPlain (QueryIncomingCalls 0 Sample2.preparedPlain)).
  left. vm_compute. left. reflexivity.
Defined.

(** ** Call hierarchy: from [doPrepare] to the calls *)


Section TransformShape.

Variable shared : Shared.
Variable documents_getMap : string -> option EmbeddedDocumentSourceMap.

Lemma Range_eta (r : Range) : mkRange (range_start r) (range_end r) = r.
Proof. destruct r; reflexivity. Qed.

(** The two ways [transformCallHierarchyItem] returns a result. *)
Lemma transform_Some tsItem tsRanges vueItem vueRanges :
  transformCallHierarchyItem shared documents_getMap tsItem tsRanges
  = Some (vueItem, vueRanges) ->
  (documents_getMap (item_uri tsItem) = None /\ vueItem = tsItem /\ vueRanges = tsRanges)
  \/ (exists map,
        documents_getMap (item_uri tsItem) = Some map
        /\ toSourceRange (esm_map map) (item_selectionRange tsItem) anyData
           = Some (item_selectionRange vueItem)
        /\ item_uri vueItem = doc_uri (sourceDocument (esm_map map))
        /\ item_kind vueItem = item_kind tsItem
        /\ item_data vueItem = item_data tsItem
        /\ item_range vueItem
           = match toSourceRange (esm_map map) (item_range tsItem) anyData with
             | Some range => range
             | None =>
                 mkRange (positionAt (sourceDocument (esm_map map)) 0)
                   (positionAt (sourceDocument (esm_map map))
                      (strlen (doc_text (sourceDocument (esm_map map)))))
             end
        /\ vueRanges
           = notEmpty (List.map (fun tsRange => toSourceRange (esm_map map) tsRange anyData)
                         tsRanges)).
Proof.
  unfold transformCallHierarchyItem.
  destruct (documents_getMap (item_uri tsItem)) as [map|].
  - destruct (toSourceRange (esm_map map) (item_selectionRange tsItem) anyData)
      as [sel|] eqn:Esel; [|discriminate].
    intro H. inversion H; subst. right. exists map. cbn.
    rewrite !Range_eta, Esel.
    destruct (toSourceRange (esm_map map) (item_range tsItem) anyData);
      repeat split; reflexivity.
  - intro H. inversion H; subst. left. auto.
Qed.


End TransformShape.



(** X15. Every call that the loop of [getIncomingCalls] keeps comes from a
    call of the plugin: unchanged
    when its item is not in a virtual file, and otherwise with its item moved
    to the source document of the map, its selection range the source range
    of the plugin's selection range, and each of its call sites the source
    range of a call site of the plugin.  No call is added. *)
Theorem kept_calls_are_in_source_coordinates
    (shared : Shared) (documents_getMap : string -> option EmbeddedDocumentSourceMap)
    (_calls : list CallHierarchyIncomingCall) (call : CallHierarchyIncomingCall) :
  In call (pushIncoming shared documents_getMap _calls) ->
  (List.length (pushIncoming shared documents_getMap _calls) <= List.length _calls)%nat
  /\ exists _call,
       In _call _calls
       /\ ((documents_getMap (item_uri (from _call)) = None /\ call = _call)
           \/ exists map,
                documents_getMap (item_uri (from _call)) = Some map
                /\ item_uri (from call) = doc_uri (sourceDocument (esm_map map))
                /\ toSourceRange (esm_map map) (item_selectionRange (from _call)) anyData
                   = Some (item_selectionRange (from call))
                /\ forall r, In r (in_fromRanges call) ->
                     exists tsRange,
                       In tsRange (in_fromRanges _call)
                       /\ toSourceRange (esm_map map) tsRange anyData = Some r).
Proof.
  intro Hin. split.
  - clear Hin. induction _calls as [|c cs IH]; simpl; [lia|].
    destruct (transformCallHierarchyItem shared documents_getMap (from c) (in_fromRanges c));
      simpl; lia.
  - induction _calls as [|c cs IH]; simpl in Hin; [destruct Hin|].
    destruct (transformCallHierarchyItem shared documents_getMap (from c) (in_fromRanges c))
      as [[v rs]|] eqn:E.
    + destruct Hin as [<-|Hin].
      * exists c. split; [left; reflexivity|]. cbn.
        apply transform_Some in E
          as [(Hnone & -> & ->)|[map (Hmap & Hsel & Huri & _ & _ & _ & Hrs)]].
        -- left. split; [exact Hnone|]. destruct c; reflexivity.
        -- right. exists map. repeat split; auto.
           intros r Hr. rewrite Hrs in Hr. apply notEmpty_In in Hr.
           apply in_map_iff in Hr as [t [Ht Hint]]. exists t. auto.
      * destruct (IH Hin) as [c0 [Hc0 H]]. exists c0. split; [right; exact Hc0|exact H].
    + destruct (IH Hin) as [c0 [Hc0 H]]. exists c0. split; [right; exact Hc0|exact H].
Qed.

Lemma kept_calls_are_in_source_coordinates_witness :
  (List.length (pushIncoming Sample.shared Sample.getMapOfEmbedded
                  (onIncomingCalls Sample2.busyApi Sample.plainItem))
   <= List.length (onIncomingCalls Sample2.busyApi Sample.plainItem))%nat.
Proof.
  apply (@kept_calls_are_in_source_coordinates Sample.shared Sample.getMapOfEmbedded
           (onIncomingCalls Sample2.busyApi Sample.plainItem)
           (mkIncomingCall Sample.plainItem [Sample.someRange])).
  vm_compute. right. left. reflexivity.
Defined.

(** X16. When the range of an item of a virtual file has no source range
    while its selection range has one, the item is kept and its range becomes
    the whole source document: it starts at offset 0, ends at the length of
    the text, and is not inverted. *)
Theorem untraceable_range_becomes_whole_document
    (shared : Shared) (documents_getMap : string -> option EmbeddedDocumentSourceMap)
    (map : EmbeddedDocumentSourceMap) (tsItem : CallHierarchyItem)
    (tsRanges : list Range) (selectionRange : Range) :
  documents_getMap (item_uri tsItem) = Some map ->
  toSourceRange (esm_map map) (item_range tsItem) anyData = None ->
  toSourceRange (esm_map map) (item_selectionRange tsItem) anyData = Some selectionRange ->
  exists vueItem vueRanges,
    transformCallHierarchyItem shared documents_getMap tsItem tsRanges
    = Some (vueItem, vueRanges)
    /\ item_selectionRange vueItem = selectionRange
    /\ offsetAt (sourceDocument (esm_map map)) (range_start (item_range vueItem)) = 0
    /\ offsetAt (sourceDocument (esm_map map)) (range_end (item_range vueItem))
       = strlen (doc_text (sourceDocument (esm_map map)))
    /\ inverted (item_range vueItem) = false.
Proof.
  intros Hmap Hrange Hsel.
  unfold transformCallHierarchyItem. rewrite Hmap, Hrange, Hsel.
  eexists. eexists. split; [reflexivity|]. cbn.
  assert (Hlen : 0 <= strlen (doc_text (sourceDocument (esm_map map))))
    by (unfold strlen; lia).
  split; [apply Range_eta|].
  split; [apply offsetAt_positionAt; lia|].
  split; [apply offsetAt_positionAt; unfold getText; lia|].
  unfold inverted. cbn. unfold getText. rewrite positionAt_mono by lia. reflexivity.
Qed.

Lemma untraceable_range_becomes_whole_document_witness :
  exists vueItem vueRanges,
    transformCallHierarchyItem Sample.shared Sample.getMapOfEmbedded Sample.wideItem []
    = Some (vueItem, vueRanges)
    /\ item_selectionRange vueItem = mkRange (Sample.pos 1) (Sample.pos 2)
    /\ offsetAt (sourceDocument (esm_map Sample.embeddedMap)) (range_start (item_range vueItem)) = 0
    /\ offsetAt (sourceDocument (esm_map Sample.embeddedMap)) (range_end (item_range vueItem))
       = strlen (doc_text (sourceDocument (esm_map Sample.embeddedMap)))
    /\ inverted (item_range vueItem) = false.
Proof.
  apply (@untraceable_range_becomes_whole_document Sample.shared Sample.getMapOfEmbedded
           Sample.embeddedMap Sample.wideItem [] (mkRange (Sample.pos 1) (Sample.pos 2)));
    vm_compute; reflexivity.
Defined.

Lemma IncomingCall_eta (c : CallHierarchyIncomingCall) :
  mkIncomingCall (from c) (in_fromRanges c) = c.
Proof. destruct c; reflexivity. Qed.

Lemma OutgoingCall_eta (c : CallHierarchyOutgoingCall) :
  mkOutgoingCall (to c) (out_fromRanges c) = c.
Proof. destruct c; reflexivity. Qed.

(** X17. When none of the calls a plugin returned has its item in a virtual
    file, the loops of [getIncomingCalls] and [getOutgoingCalls] keep all of
    them, unchanged and in order. *)
Theorem plain_calls_pass_unchanged
    (shared : Shared) (documents_getMap : string -> option EmbeddedDocumentSourceMap)
    (incoming : list CallHierarchyIncomingCall) (outgoing : list CallHierarchyOutgoingCall) :
  plainIncoming documents_getMap incoming = true ->
  plainOutgoing documents_getMap outgoing = true ->
  pushIncoming shared documents_getMap incoming = incoming
  /\ pushOutgoing shared documents_getMap outgoing = outgoing.
Proof.
  intros Hi Ho. split.
  - clear Ho. induction incoming as [|c cs IH]; simpl in *; [reflexivity|].
    apply andb_prop in Hi as [Hc Hcs].
    unfold transformCallHierarchyItem.
    destruct (documents_getMap (item_uri (from c))); [discriminate|].
    cbn. rewrite IncomingCall_eta, (IH Hcs). reflexivity.
  - clear Hi. induction outgoing as [|c cs IH]; simpl in *; [reflexivity|].
    apply andb_prop in Ho as [Hc Hcs].
    unfold transformCallHierarchyItem.
    destruct (documents_getMap (item_uri (to c))); [discriminate|].
    cbn. rewrite OutgoingCall_eta, (IH Hcs). reflexivity.
Qed.

Lemma plain_calls_pass_unchanged_witness :
  pushIncoming Sample.shared Sample.getMapOfEmbedded [Sample.incomingA; Sample.incomingB]
  = [Sample.incomingA; Sample.incomingB]
  /\ pushOutgoing Sample.shared Sample.getMapOfEmbedded [Sample.outgoingA]
     = [Sample.outgoingA].
Proof.
  apply plain_calls_pass_unchanged; reflexivity.
Defined.

(** ** Auto insert *)



(** ** Pug hover *)

(** X19. When the pug hover returns a result, the position was resolved
    through the first entry, in table order, that holds it and is not an
    empty-tag completion entry: the html service was asked at the position
    shifted through that entry, and the result is its answer passed through
    [transformHover] with [toSourceRange] of the map. *)
Theorem hover_resolved_past_empty_tag_entries
    {MappingKind Hover HTMLDocument HoverSettings : Type}
    (isEmptyTagCompletion : MappingKind -> bool)
    (doHover : TextDocument -> Position -> HTMLDocument -> option HoverSettings -> option Hover)
    (transformHover : Hover -> (Range -> option Range) -> option Hover)
    (pugDoc : PugDocument MappingKind HTMLDocument) (pos : Position)
    (options : option HoverSettings) (result : Hover) :
  pugHover isEmptyTagCompletion doHover transformHover pugDoc pos options = Some result ->
  exists m htmlResult,
    firstAccepting (pug_map pugDoc) KSourceRange
      (offsetAt (sourceDocument (pug_map pugDoc)) pos)
      (fun data => negb (isEmptyTagCompletion data)) = Some m
    /\ isEmptyTagCompletion (data m) = false
    /\ within (sourceRange m) (offsetAt (sourceDocument (pug_map pugDoc)) pos) = true
    /\ doHover (mappedDocument (pug_map pugDoc))
         (positionAt (mappedDocument (pug_map pugDoc))
            (shifted KSourceRange KGeneratedRange Left
               (offsetAt (sourceDocument (pug_map pugDoc)) pos) m))
         (htmlDocument pugDoc) options = Some htmlResult
    /\ transformHover htmlResult
         (fun htmlRange => toSourceRange (pug_map pugDoc) htmlRange anyData) = Some result.
Proof.
  unfold pugHover, toGeneratedPosition, toGeneratedPositions, toGeneratedPositionsBase,
    firstAccepting.
  rewrite toPositions_spec, map_map, firstOf_map_filter. cbn [fst].
  destruct (List.find _ (mappings (pug_map pugDoc))) as [m|] eqn:Efind;
    cbn [option_map]; [|discriminate].
  destruct (doHover _ _ _ _) as [htmlResult|] eqn:Ehover; [|discriminate].
  intro Htr. exists m, htmlResult.
  apply find_some in Efind as [_ Hacc].
  unfold accepts in Hacc. apply andb_prop in Hacc as [Hw Hf].
  split; [reflexivity|].
  split; [destruct (isEmptyTagCompletion (data m)); [discriminate|reflexivity]|].
  split; [exact Hw|]. split; [exact Ehover|exact Htr].
Qed.

Lemma hover_resolved_past_empty_tag_entries_witness :
  exists m htmlResult,
    firstAccepting (pug_map Sample2.pugDoc) KSourceRange
      (offsetAt (sourceDocument (pug_map Sample2.pugDoc)) (Sample.pos 2))
      (fun data => negb data) = Some m
    /\ data m = false
    /\ within (sourceRange m)
         (offsetAt (sourceDocument (pug_map Sample2.pugDoc)) (Sample.pos 2)) = true
    /\ Some (positionAt (mappedDocument (pug_map Sample2.pugDoc))
               (shifted KSourceRange KGeneratedRange Left
                  (offsetAt (sourceDocument (pug_map Sample2.pugDoc)) (Sample.pos 2)) m))
       = Some htmlResult
    /\ Some htmlResult = Some (Sample.pos 12).
Proof.
  apply (@hover_resolved_past_empty_tag_entries bool Position unit unit
           (fun k : bool => k) (fun _ p _ _ => Some p) (fun h _ => Some h)
           Sample2.pugDoc (Sample.pos 2) None (Sample.pos 12)).
  vm_compute. reflexivity.
Defined.

(** ** Positions and the entries they come from *)


(** * The project *)

Module ProjectFacts.

Import Project.

Lemma mapGet_mapSet_same m key v : mapGet (mapSet m key v) key = Some v.
Proof.
  induction m as [|[k v'] m IH]; simpl.
  - rewrite String.eqb_refl. reflexivity.
  - destruct (String.eqb k key) eqn:E; simpl; rewrite E; [reflexivity|exact IH].
Qed.

Lemma mapGet_mapSet_other m key v key' :
  key' <> key -> mapGet (mapSet m key v) key' = mapGet m key'.
Proof.
  intro Hne. induction m as [|[k v'] m IH]; simpl.
  - destruct (String.eqb key key') eqn:E; [apply String.eqb_eq in E; congruence|reflexivity].
  - destruct (String.eqb k key) eqn:E; simpl.
    + apply String.eqb_eq in E. subst k.
      destruct (String.eqb key key') eqn:E'; [apply String.eqb_eq in E'; congruence|reflexivity].
    + destruct (String.eqb k key'); [reflexivity|exact IH].
Qed.

Lemma mapGet_mapDelete_same m key : mapGet (mapDelete m key) key = None.
Proof.
  induction m as [|[k v] m IH]; simpl; [reflexivity|].
  destruct (String.eqb k key) eqn:E; simpl; [exact IH|]. rewrite E. exact IH.
Qed.

Lemma mapGet_mapDelete_other m key key' :
  key' <> key -> mapGet (mapDelete m key) key' = mapGet m key'.
Proof.
  intro Hne. induction m as [|[k v] m IH]; simpl; [reflexivity|].
  destruct (String.eqb k key) eqn:E; simpl.
  - apply String.eqb_eq in E. subst k.
    destruct (String.eqb key key') eqn:E'; [apply String.eqb_eq in E'; congruence|exact IH].
  - destruct (String.eqb k key'); [reflexivity|exact IH].
Qed.

Lemma existsb_eqb_In (x : string) (l : list string) :
  existsb (String.eqb x) l = true <-> In x l.
Proof.
  rewrite existsb_exists. split.
  - intros [y [Hy E]]. apply String.eqb_eq in E. subst y. exact Hy.
  - intro H. exists x. split; [exact H|apply String.eqb_refl].
Qed.

(** X21. [tryAddFile] adds a file name once: afterwards the name is among the
    file names; a name already there changes nothing, so that a second call
    is without effect; a name not yet there is put at the end and the project
    version goes up by one; and the file names stay free of duplicates. *)
Theorem tryAddFile_adds_once (fileName : string) (st : State) :
  In fileName (fileNames (tryAddFile fileName st))
  /\ tryAddFile fileName (tryAddFile fileName st) = tryAddFile fileName st
  /\ (In fileName (fileNames st) -> tryAddFile fileName st = st)
  /\ (~ In fileName (fileNames st) ->
      fileNames (tryAddFile fileName st) = fileNames st ++ [fileName]
      /\ projectVersion (tryAddFile fileName st) = projectVersion st + 1)
  /\ (NoDup (fileNames st) -> NoDup (fileNames (tryAddFile fileName st))).
Proof.
  assert (Hin : In fileName (fileNames (tryAddFile fileName st))).
  { unfold tryAddFile.
    destruct (existsb (String.eqb fileName) (fileNames st)) eqn:E.
    - apply existsb_eqb_In. exact E.
    - simpl. apply in_or_app. right. left. reflexivity. }
  assert (Hkeep : forall s, In fileName (fileNames s) -> tryAddFile fileName s = s).
  { intros s H. unfold tryAddFile. apply existsb_eqb_In in H. rewrite H. reflexivity. }
  split; [exact Hin|]. split; [apply Hkeep; exact Hin|]. split; [apply Hkeep|]. split.
  - intro Hnot. unfold tryAddFile.
    destruct (existsb (String.eqb fileName) (fileNames st)) eqn:E;
      [apply existsb_eqb_In in E; contradiction|].
    simpl. split; reflexivity.
  - intro Hnd. unfold tryAddFile.
    destruct (existsb (String.eqb fileName) (fileNames st)) eqn:E; [exact Hnd|].
    simpl. apply NoDup_app; [exact Hnd|constructor; [intros []|constructor]|].
    intros x Hx [<-|[]]. apply existsb_eqb_In in Hx. congruence.
Qed.


Section ProjectInvariant.

Variable uriKey : string -> string.
Variable pathKey : string -> string.
Variable openDocument : string -> option (Z * IScriptSnapshot).
Variable sys : FileSystem.
Variable maxFileSize : option Z.
Variable parsedFileNames : list string.

Lemma scriptOk_later next next' script :
  Pos.le next next' -> scriptOk next script -> scriptOk next' script.
Proof.
  intros Hle (Hv & Hs & Hid). split; [exact Hv|]. split; [exact Hs|].
  intros snap Hsnap. specialize (Hid snap Hsnap). lia.
Qed.

Lemma touched_ok next script : scriptOk next script -> scriptOk next (touched script).
Proof.
  intros (Hv & Hs & Hid). unfold touched, scriptOk. cbn.
  destruct (0 <=? s_version script) eqn:E; [apply Z.leb_le in E; lia|].
  split; [lia|]. split; [|exact Hid].
  intros v Hsv. specialize (Hs v Hsv). lia.
Qed.

Lemma applyChange_ok st change :
  scriptsOk st -> scriptsOk (applyChange uriKey st change).
Proof.
  intros Hok key script. unfold applyChange, uriGet.
  destruct (mapGet (scripts st) (uriKey (fe_uri change))) as [s|] eqn:E; [|apply Hok].
  destruct (fe_type change); cbn;
    destruct (String.eqb key (uriKey (fe_uri change))) eqn:Ek;
    try (apply String.eqb_eq in Ek; subst key);
    try (apply String.eqb_neq in Ek);
    rewrite ?mapGet_mapSet_same, ?mapGet_mapDelete_same,
      ?(mapGet_mapSet_other _ _ Ek), ?(mapGet_mapDelete_other _ Ek);
    intro H; try discriminate; try (apply (Hok _ _ H));
    inversion H; subst; apply touched_ok; apply (Hok _ _ E).
Qed.

Lemma applyChange_next st change :
  nextSnapshot (applyChange uriKey st change) = nextSnapshot st.
Proof.
  unfold applyChange. destruct (uriGet uriKey st (fe_uri change)); [|reflexivity].
  destruct (fe_type change); reflexivity.
Qed.

Lemma foldChanges_ok changes : forall st,
  scriptsOk st -> scriptsOk (fold_left (applyChange uriKey) changes st).
Proof.
  induction changes as [|c cs IH]; intros st Hok; simpl; [exact Hok|].
  apply IH. apply applyChange_ok. exact Hok.
Qed.

Lemma onWorkspaceFilesChanged_ok changes st :
  scriptsOk st -> scriptsOk (onWorkspaceFilesChanged uriKey parsedFileNames changes st).
Proof.
  intro Hok. unfold onWorkspaceFilesChanged.
  pose proof (foldChanges_ok changes Hok) as H.
  destruct (List.filter isCreated changes); destruct (List.filter isDeleted changes);
    exact H.
Qed.

Lemma getScriptSnapshot_ok fileName st :
  scriptsOk st ->
  scriptsOk (snd (getScriptSnapshot pathKey openDocument sys maxFileSize fileName st)).
Proof.
  intro Hok.
  assert (Hlater : forall key script,
            mapGet (scripts st) key = Some script ->
            scriptOk (Pos.succ (nextSnapshot st)) script).
  { intros key script H. apply (scriptOk_later (next := nextSnapshot st)); [lia|].
    apply (Hok _ _ H). }
  assert (Hset : forall v name text key script,
            v < 0 ->
            mapGet (mapSet (scripts st) (pathKey fileName)
                      (mkScript v name (Some (mkSnapshot (nextSnapshot st) text)) (Some v)))
              key = Some script ->
            scriptOk (Pos.succ (nextSnapshot st)) script).
  { intros v name text key script Hv H.
    destruct (String.eqb key (pathKey fileName)) eqn:Ek.
    - apply String.eqb_eq in Ek. subst key. rewrite mapGet_mapSet_same in H.
      inversion H; subst. unfold scriptOk. cbn. split; [exact Hv|]. split.
      + intros v' Hv'. inversion Hv'. lia.
      + intros snap Hsnap. inversion Hsnap. cbn. lia.
    - apply String.eqb_neq in Ek. rewrite (mapGet_mapSet_other _ _ Ek) in H.
      apply (Hlater _ _ H). }
  unfold getScriptSnapshot.
  destruct (openDocument fileName); [exact Hok|].
  unfold pathGet.
  destruct (mapGet (scripts st) (pathKey fileName)) as [s|] eqn:E.
  - destruct (cachedSnapshot s); [exact Hok|].
    destruct (fileExists sys fileName); [|exact Hok].
    destruct (tooLarge sys maxFileSize fileName); cbn; [exact Hlater|].
    destruct (readFile sys fileName) as [text|]; cbn; [|exact Hok].
    intros key script H. apply (Hset _ _ _ _ _ (proj1 (Hok _ _ E)) H).
  - destruct (fileExists sys fileName); [|exact Hok].
    destruct (tooLarge sys maxFileSize fileName); cbn; [exact Hlater|].
    destruct (readFile sys fileName) as [text|]; cbn; [|exact Hok].
    intros key script H. apply (Hset (-1) _ _ _ _ ltac:(lia) H).
Qed.

Lemma reachable_scriptsOk st :
  reachable uriKey pathKey openDocument sys maxFileSize parsedFileNames st ->
  scriptsOk st.
Proof.
  induction 1 as [names|st fileName _ IH|st changes _ IH|st fileName _ IH|st _ IH|st _ IH].
  - intros key script H. discriminate.
  - unfold tryAddFile. destruct (existsb _ _); exact IH.
  - apply onWorkspaceFilesChanged_ok. exact IH.
  - apply getScriptSnapshot_ok. exact IH.
  - exact IH.
  - intros key script H. discriminate.
Qed.

End ProjectInvariant.

End ProjectFacts.

Module ProjectTheorems.

Import Project ProjectFacts.

(** X22. In any state a project can reach, a change or creation event for a
    uri whose script is known lowers the version of that script by one, which
    leaves the script without a valid cached snapshot, and raises the project
    version. *)
Theorem change_invalidates_cached_snapshot
    (uriKey pathKey : string -> string)
    (openDocument : string -> option (Z * IScriptSnapshot))
    (sys : FileSystem) (maxFileSize : option Z) (parsedFileNames : list string)
    (st : State) (uri : string) (changeType : FileChangeType) (script : Script) :
  reachable uriKey pathKey openDocument sys maxFileSize parsedFileNames st ->
  uriGet uriKey st uri = Some script ->
  changeType <> Deleted ->
  exists script',
    uriGet uriKey
      (onWorkspaceFilesChanged uriKey parsedFileNames [mkFileEvent uri changeType] st) uri
    = Some script'
    /\ s_version script' = s_version script - 1
    /\ s_snapshot script' = s_snapshot script
    /\ cachedSnapshot script' = false
    /\ projectVersion st
       < projectVersion
           (onWorkspaceFilesChanged uriKey parsedFileNames [mkFileEvent uri changeType] st).
Proof.
  intros Hr Hget Hnot.
  apply reachable_scriptsOk in Hr.
  destruct (Hr _ _ Hget) as (Hv & Hs & _).
  exists (touched script).
  assert (Htouched : s_version (touched script) = s_version script - 1).
  { unfold touched. cbn. destruct (0 <=? s_version script) eqn:E;
      [apply Z.leb_le in E; lia|reflexivity]. }
  unfold onWorkspaceFilesChanged, applyChange, uriGet in *. cbn.
  rewrite Hget.
  destruct changeType; [| |congruence]; cbn;
    rewrite mapGet_mapSet_same;
    (split; [reflexivity|]); (split; [exact Htouched|]); (split; [reflexivity|]);
    (split; [|lia]);
    unfold cachedSnapshot; rewrite Htouched; cbn;
    (destruct (s_snapshotVersion script) as [v|] eqn:Ev; [|reflexivity]);
    specialize (Hs v eq_refl); apply Z.eqb_neq; lia.
Qed.

Lemma change_invalidates_cached_snapshot_witness :
  exists script',
    uriGet Sample3.sameKey
      (onWorkspaceFilesChanged Sample3.sameKey []
         [mkFileEvent "/a.ts" Changed] Sample3.afterRead) "/a.ts"
    = Some script'
    /\ s_version script' = s_version Sample3.readScript - 1
    /\ s_snapshot script' = s_snapshot Sample3.readScript
    /\ cachedSnapshot script' = false
    /\ projectVersion Sample3.afterRead
       < projectVersion
           (onWorkspaceFilesChanged Sample3.sameKey []
              [mkFileEvent "/a.ts" Changed] Sample3.afterRead).
Proof.
  apply (@change_invalidates_cached_snapshot Sample3.sameKey Sample3.sameKey
           Sample3.noDocument Sample3.sys None [] Sample3.afterRead "/a.ts" Changed
           Sample3.readScript).
  - apply reachable_snapshot. apply reachable_init.
  - reflexivity.
  - discriminate.
Defined.

(** X23. In any state a project can reach, after a change or creation event
    for a known script the next [getScriptSnapshot] for its path (not open as
    a document, present, within the size limit and readable) reads the file
    again: it returns a new snapshot object with the text read, different
    from every snapshot held by a script before, and records it in the script
    as its valid cached snapshot. *)
Theorem changed_file_is_read_again
    (uriKey pathKey : string -> string)
    (openDocument : string -> option (Z * IScriptSnapshot))
    (sys : FileSystem) (maxFileSize : option Z) (parsedFileNames : list string)
    (st : State) (uri fileName text : string) (changeType : FileChangeType)
    (script : Script) :
  reachable uriKey pathKey openDocument sys maxFileSize parsedFileNames st ->
  uriGet uriKey st uri = Some script ->
  changeType <> Deleted ->
  pathKey fileName = uriKey uri ->
  openDocument fileName = None ->
  fileExists sys fileName = true ->
  tooLarge sys maxFileSize fileName = false ->
  readFile sys fileName = Some text ->
  fst (getScriptSnapshot pathKey openDocument sys maxFileSize fileName
         (onWorkspaceFilesChanged uriKey parsedFileNames [mkFileEvent uri changeType] st))
  = Some (mkSnapshot (nextSnapshot st) text)
  /\ (forall key held snapshot,
        mapGet (scripts st) key = Some held ->
        s_snapshot held = Some snapshot ->
        snapshot <> mkSnapshot (nextSnapshot st) text)
  /\ exists script',
       pathGet pathKey
         (snd (getScriptSnapshot pathKey openDocument sys maxFileSize fileName
                 (onWorkspaceFilesChanged uriKey parsedFileNames
                    [mkFileEvent uri changeType] st))) fileName
       = Some script'
       /\ s_snapshot script' = Some (mkSnapshot (nextSnapshot st) text)
       /\ cachedSnapshot script' = true.
Proof.
  intros Hr Hget Hnot Hkey Hdoc Hex Hsize Hread.
  apply reachable_scriptsOk in Hr.
  destruct (Hr _ _ Hget) as (Hv & Hs & _).
  assert (Htouched : s_version (touched script) = s_version script - 1).
  { unfold touched. cbn. destruct (0 <=? s_version script) eqn:E;
      [apply Z.leb_le in E; lia|reflexivity]. }
  assert (Hstale : cachedSnapshot (touched script) = false).
  { unfold cachedSnapshot. rewrite Htouched. cbn.
    destruct (s_snapshotVersion script) as [v|] eqn:Ev; [|reflexivity].
    specialize (Hs v eq_refl). apply Z.eqb_neq. lia. }
  split; [|split].
  - unfold getScriptSnapshot, pathGet, onWorkspaceFilesChanged, applyChange, uriGet in *.
    cbn. rewrite Hget, Hdoc, Hkey.
    destruct changeType; [| |congruence]; cbn;
      rewrite mapGet_mapSet_same, Hstale, Hex, Hsize, Hread; reflexivity.
  - intros key held snap Hheld Hsnap Heq.
    destruct (Hr _ _ Hheld) as (_ & _ & Hid). specialize (Hid snap Hsnap).
    rewrite Heq in Hid. cbn in Hid. lia.
  - unfold getScriptSnapshot, pathGet, onWorkspaceFilesChanged, applyChange, uriGet in *.
    cbn. rewrite Hget, Hdoc, Hkey.
    eexists.
    destruct changeType; [| |congruence]; cbn;
      rewrite mapGet_mapSet_same, Hstale, Hex, Hsize, Hread; cbn;
      rewrite mapGet_mapSet_same;
      (split; [reflexivity|]); (split; [reflexivity|]);
      unfold cachedSnapshot; cbn; apply Z.eqb_refl.
Qed.

Lemma changed_file_is_read_again_witness :
  fst (getScriptSnapshot Sample3.sameKey Sample3.noDocument Sample3.sys None "/a.ts"
         (onWorkspaceFilesChanged Sample3.sameKey []
            [mkFileEvent "/a.ts" Changed] Sample3.afterRead))
  = Some (mkSnapshot (nextSnapshot Sample3.afterRead) "let x").
Proof.
  apply (@changed_file_is_read_again Sample3.sameKey Sample3.sameKey
           Sample3.noDocument Sample3.sys None [] Sample3.afterRead "/a.ts" "/a.ts" "let x"
           Changed Sample3.readScript).
  - apply reachable_snapshot. apply reachable_init.
  - reflexivity.
  - discriminate.
  - reflexivity.
  - reflexivity.
  - reflexivity.
  - reflexivity.
  - reflexivity.
Defined.

(** X24. For a file that is not over the size limit, [getScriptSnapshot]
    asked twice in a row answers the second time what it answered the first
    time, the same snapshot object included, and leaves the state as the first
    call left it: the file is read once.  For a present file over the size
    limit whose script holds no valid cached snapshot, every call makes a new
    empty snapshot, so two calls in a row return different objects. *)
Theorem snapshot_read_once
    (pathKey : string -> string)
    (openDocument : string -> option (Z * IScriptSnapshot))
    (sys : FileSystem) (maxFileSize : option Z) (fileName : string) (st : State) :
  (tooLarge sys maxFileSize fileName = false ->
   getScriptSnapshot pathKey openDocument sys maxFileSize fileName
     (snd (getScriptSnapshot pathKey openDocument sys maxFileSize fileName st))
   = getScriptSnapshot pathKey openDocument sys maxFileSize fileName st)
  /\ (tooLarge sys maxFileSize fileName = true ->
      openDocument fileName = None ->
      fileExists sys fileName = true ->
      match pathGet pathKey st fileName with
      | Some script => cachedSnapshot script = false
      | None => True
      end ->
      fst (getScriptSnapshot pathKey openDocument sys maxFileSize fileName st)
      = Some (mkSnapshot (nextSnapshot st) "")
      /\ fst (getScriptSnapshot pathKey openDocument sys maxFileSize fileName
                (snd (getScriptSnapshot pathKey openDocument sys maxFileSize fileName st)))
         = Some (mkSnapshot (Pos.succ (nextSnapshot st)) "")).
Proof.
  split.
  - intro Hsize. unfold getScriptSnapshot, pathGet.
    destruct (openDocument fileName) eqn:Hdoc; [reflexivity|].
    destruct (mapGet (scripts st) (pathKey fileName)) as [s|] eqn:E.
    + destruct (cachedSnapshot s) eqn:Ec; [cbn; rewrite E, Ec; reflexivity|].
      destruct (fileExists sys fileName) eqn:Hex; [|cbn; rewrite E, Ec; reflexivity].
      rewrite Hsize.
      destruct (readFile sys fileName) as [text|] eqn:Hread;
        [|cbn; rewrite E, Ec; reflexivity].
      cbn. rewrite mapGet_mapSet_same.
      unfold cachedSnapshot. cbn. rewrite Z.eqb_refl. reflexivity.
    + destruct (fileExists sys fileName) eqn:Hex; [|cbn; rewrite E; reflexivity].
      rewrite Hsize.
      destruct (readFile sys fileName) as [text|] eqn:Hread;
        [|cbn; rewrite E; reflexivity].
      cbn. rewrite mapGet_mapSet_same.
      unfold cachedSnapshot. cbn. reflexivity.
  - intros Hsize Hdoc Hex Hstale. unfold getScriptSnapshot, pathGet in *.
    rewrite Hdoc.
    destruct (mapGet (scripts st) (pathKey fileName)) as [s|] eqn:E.
    + rewrite Hstale, Hex, Hsize. cbn. rewrite E, Hstale. cbn.
      split; reflexivity.
    + rewrite Hex, Hsize. cbn. rewrite E. cbn. split; reflexivity.
Qed.

Lemma foldChanges_unknown uriKey changes : forall st,
  forallb (fun change =>
             match uriGet uriKey st (fe_uri change) with Some _ => false | None => true end)
          changes = true ->
  fold_left (applyChange uriKey) changes st = st.
Proof.
  induction changes as [|c cs IH]; intros st H; simpl in *; [reflexivity|].
  apply andb_prop in H as [Hc Hcs].
  unfold applyChange at 2.
  destruct (uriGet uriKey st (fe_uri c)); [discriminate|]. apply IH. exact Hcs.
Qed.

Lemma applyChange_steps uriKey st change :
  projectVersion st <= projectVersion (applyChange uriKey st change)
  /\ typeRootVersion (applyChange uriKey st change) = typeRootVersion st
  /\ fileNames (applyChange uriKey st change) = fileNames st
  /\ forall key script',
       mapGet (scripts (applyChange uriKey st change)) key = Some script' ->
       exists script, mapGet (scripts st) key = Some script.
Proof.
  unfold applyChange, uriGet.
  destruct (mapGet (scripts st) (uriKey (fe_uri change))) as [s|] eqn:E.
  - destruct (fe_type change); cbn; (split; [lia|]); (split; [reflexivity|]);
      (split; [reflexivity|]); intros key script' H;
      destruct (String.eqb key (uriKey (fe_uri change))) eqn:Ek;
      try (apply String.eqb_eq in Ek; subst key; exists s; exact E);
      apply String.eqb_neq in Ek;
      rewrite ?(mapGet_mapSet_other _ _ Ek), ?(mapGet_mapDelete_other _ Ek) in H;
      exists script'; exact H.
  - split; [lia|]. split; [reflexivity|]. split; [reflexivity|].
    intros key script' H. exists script'. exact H.
Qed.

Lemma foldChanges_steps uriKey changes : forall st,
  projectVersion st <= projectVersion (fold_left (applyChange uriKey) changes st)
  /\ typeRootVersion (fold_left (applyChange uriKey) changes st) = typeRootVersion st
  /\ fileNames (fold_left (applyChange uriKey) changes st) = fileNames st
  /\ forall key script',
       mapGet (scripts (fold_left (applyChange uriKey) changes st)) key = Some script' ->
       exists script, mapGet (scripts st) key = Some script.
Proof.
  induction changes as [|c cs IH]; intro st; simpl.
  - split; [lia|]. split; [reflexivity|]. split; [reflexivity|].
    intros key script' H. exists script'. exact H.
  - destruct (IH (applyChange uriKey st c)) as (H1 & H2 & H3 & H4).
    destruct (applyChange_steps uriKey st c) as (G1 & G2 & G3 & G4).
    split; [lia|]. split; [congruence|]. split; [congruence|].
    intros key script' H. destruct (H4 _ _ H) as [s Hs]. apply (G4 _ _ Hs).
Qed.

(** X25. File events only move a project forward.  [onWorkspaceFilesChanged]
    never lowers the project version or the type-root version and never adds
    a script.  A batch without creations and deletions keeps the file names
    and the type-root version; a batch with one replaces the file names by
    those of the newly parsed command line and raises the type-root version
    by one.  A batch of change events for uris without a script changes
    nothing at all. *)
Theorem file_events_move_forward
    (uriKey : string -> string) (parsedFileNames : list string)
    (changes : list FileEvent) (st : State) :
  projectVersion st
  <= projectVersion (onWorkspaceFilesChanged uriKey parsedFileNames changes st)
  /\ (forall key script',
        mapGet (scripts (onWorkspaceFilesChanged uriKey parsedFileNames changes st)) key
        = Some script' ->
        exists script, mapGet (scripts st) key = Some script)
  /\ (existsb (fun c => isCreated c || isDeleted c) changes = false ->
      fileNames (onWorkspaceFilesChanged uriKey parsedFileNames changes st) = fileNames st
      /\ typeRootVersion (onWorkspaceFilesChanged uriKey parsedFileNames changes st)
         = typeRootVersion st)
  /\ (existsb (fun c => isCreated c || isDeleted c) changes = true ->
      fileNames (onWorkspaceFilesChanged uriKey parsedFileNames changes st) = parsedFileNames
      /\ typeRootVersion (onWorkspaceFilesChanged uriKey parsedFileNames changes st)
         = typeRootVersion st + 1)
  /\ (forallb (fun c => isChanged c
                        && match uriGet uriKey st (fe_uri c) with
                           | Some _ => false
                           | None => true
                           end) changes = true ->
      onWorkspaceFilesChanged uriKey parsedFileNames changes st = st).
Proof.
  destruct (foldChanges_steps uriKey changes st) as (H1 & H2 & H3 & H4).
  assert (Hfilter : existsb (fun c => isCreated c || isDeleted c) changes = false ->
                    List.filter isCreated changes = [] /\ List.filter isDeleted changes = []).
  { clear. induction changes as [|c cs IH]; simpl; [auto|].
    intro H. apply orb_false_iff in H as [Hc Hcs]. apply orb_false_iff in Hc as [Ha Hb].
    rewrite Ha, Hb. apply IH. exact Hcs. }
  assert (Hsome : existsb (fun c => isCreated c || isDeleted c) changes = true ->
                  List.filter isCreated changes <> [] \/ List.filter isDeleted changes <> []).
  { clear. induction changes as [|c cs IH]; simpl; [discriminate|].
    intro H. destruct (isCreated c); [left; discriminate|].
    destruct (isDeleted c); [right; discriminate|]. apply IH. exact H. }
  unfold onWorkspaceFilesChanged.
  split; [|split; [|split; [|split]]].
  - destruct (List.filter isCreated changes); destruct (List.filter isDeleted changes);
      cbn; lia.
  - destruct (List.filter isCreated changes); destruct (List.filter isDeleted changes);
      cbn; exact H4.
  - intro H. destruct (Hfilter H) as [-> ->]. split; assumption.
  - intro H. apply Hsome in H.
    destruct (List.filter isCreated changes); destruct (List.filter isDeleted changes);
      cbn; try (split; [reflexivity|rewrite H2; reflexivity]).
    destruct H; congruence.
  - intro H.
    assert (Hunknown : forallb (fun change =>
                          match uriGet uriKey st (fe_uri change) with
                          | Some _ => false | None => true end) changes = true).
    { clear - H. induction changes as [|c cs IH]; simpl in *; [reflexivity|].
      apply andb_prop in H as [Hc Hcs]. apply andb_prop in Hc as [_ Hc].
      rewrite Hc. apply IH. exact Hcs. }
    assert (Hnone : existsb (fun c => isCreated c || isDeleted c) changes = false).
    { clear - H. induction changes as [|c cs IH]; simpl in *; [reflexivity|].
      apply andb_prop in H as [Hc Hcs]. apply andb_prop in Hc as [Hc _].
      unfold isChanged, isCreated, isDeleted in *.
      destruct (fe_type c); try discriminate. simpl. apply IH. exact Hcs. }
    destruct (Hfilter Hnone) as [-> ->].
    apply foldChanges_unknown. exact Hunknown.
Qed.

End ProjectTheorems.

(** * Server capabilities *)

Module CapabilityFacts.

Import Capabilities.

Lemma lookup_assign_same s key v : lookup (assign s key v) key = v.
Proof.
  induction s as [|[k v'] s IH]; simpl.
  - rewrite String.eqb_refl. reflexivity.
  - destruct (String.eqb k key) eqn:E; simpl; rewrite E; [reflexivity|exact IH].
Qed.

Lemma lookup_assign_other s key v key' :
  key' <> key -> lookup (assign s key v) key' = lookup s key'.
Proof.
  intro Hne. induction s as [|[k v'] s IH]; simpl.
  - destruct (String.eqb key key') eqn:E; [apply String.eqb_eq in E; congruence|reflexivity].
  - destruct (String.eqb k key) eqn:E; simpl.
    + apply String.eqb_eq in E. subst k.
      destruct (String.eqb key key') eqn:E'; [apply String.eqb_eq in E'; congruence|reflexivity].
    + destruct (String.eqb k key'); [reflexivity|exact IH].
Qed.

Lemma lookup_setIf_other test s key v key' :
  key' <> key -> lookup (setIf test key v s) key' = lookup s key'.
Proof.
  intro Hne. unfold setIf. destruct test; [apply lookup_assign_other; exact Hne|reflexivity].
Qed.

Lemma lookup_setIf_true s key v : lookup (setIf true key v s) key = v.
Proof. apply lookup_assign_same. Qed.

(** A step that assigns a truthy value keeps every truthy property truthy. *)
Lemma setIf_keeps test s key v key' :
  truthy v = true ->
  truthy (lookup s key') = true ->
  truthy (lookup (setIf test key v s) key') = true.
Proof.
  intros Hv H. unfold setIf. destruct test; [|exact H].
  destruct (string_dec key' key) as [->|Hne].
  - rewrite lookup_assign_same. exact Hv.
  - rewrite lookup_assign_other by exact Hne. exact H.
Qed.

Lemma setupCodeLens_keeps cmd initOptions s key' :
  truthy (lookup s key') = true ->
  truthy (lookup (setupCodeLens cmd initOptions s) key') = true.
Proof.
  intro H. unfold setupCodeLens.
  apply (setIf_keeps true); [reflexivity|].
  apply (setIf_keeps true); [reflexivity|exact H].
Qed.

Lemma setupCodeLens_other cmd initOptions s key' :
  key' <> "codeLensProvider" -> key' <> "executeCommandProvider" ->
  lookup (setupCodeLens cmd initOptions s) key' = lookup s key'.
Proof.
  intros H1 H2. unfold setupCodeLens.
  rewrite !lookup_assign_other by assumption. reflexivity.
Qed.

Lemma lookup_assign s key v key' :
  lookup (assign s key v) key' = if String.eqb key key' then v else lookup s key'.
Proof.
  destruct (String.eqb key key') eqn:E.
  - apply String.eqb_eq in E. subst. apply lookup_assign_same.
  - apply String.eqb_neq in E. apply lookup_assign_other. congruence.
Qed.

Lemma assign_keeps s key v key' :
  truthy v = true ->
  truthy (lookup s key') = true ->
  truthy (lookup (assign s key v) key') = true.
Proof. exact (setIf_keeps true s key v key'). Qed.

Lemma setOf_In xs : forall seen c,
  In c (setOf xs seen) <-> In c xs /\ ~ In c seen.
Proof.
  induction xs as [|x xs IH]; intros seen c; simpl; [tauto|].
  destruct (existsb (String.eqb x) seen) eqn:E.
  - rewrite IH. apply existsb_exists in E as [y [Hy Exy]]. apply String.eqb_eq in Exy. subst y.
    split; [tauto|]. intros [[->|H] Hn]; [contradiction|tauto].
  - assert (Hx : ~ In x seen).
    { intro H. assert (existsb (String.eqb x) seen = true); [|congruence].
      apply existsb_exists. exists x. split; [exact H|apply String.eqb_refl]. }
    simpl. rewrite IH. simpl. split.
    + intros [<-|[H1 H2]]; [tauto|]. split; [tauto|]. intro H. apply H2. right. exact H.
    + intros [[<-|H1] H2]; [tauto|].
      destruct (string_dec x c) as [->|Hne]; [tauto|]. right. split; [exact H1|].
      intros [H|H]; [congruence|contradiction].
Qed.

Lemma setOf_NoDup xs : forall seen, NoDup (setOf xs seen).
Proof.
  induction xs as [|x xs IH]; intro seen; simpl; [constructor|].
  destruct (existsb (String.eqb x) seen); [apply IH|].
  constructor; [|apply IH].
  intro H. apply setOf_In in H as [_ H]. apply H. left. reflexivity.
Qed.

End CapabilityFacts.

Module CapabilityTheorems.

Import Capabilities CapabilityFacts.

Ltac announced :=
  repeat first
    [ rewrite lookup_setIf_true; reflexivity
    | rewrite lookup_assign_same; reflexivity
    | apply setIf_keeps; [reflexivity|]
    | apply assign_keeps; [reflexivity|] ].

(** X26. When the client capabilities are not respected, the two setups
    announce every provider they know, whatever the client declares and
    whatever the server object held: all eight syntactic providers, and all
    semantic ones, the diagnostic provider included even when the diagnostic
    model is not the pull model. *)
Theorem everything_announced_without_respect
    (executePluginCommand : string) (params : Json) (server : list (string * Json))
    (initOptions : InitOptions) (plugins : list ServerPlugin) :
  respectClientCapabilities initOptions = false ->
  forallb
    (fun key => truthy (lookup (setupSyntacticCapabilities params server initOptions) key))
    syntacticProviders = true
  /\ forallb
       (fun key =>
          truthy (lookup (setupSemanticCapabilities executePluginCommand params server
                            initOptions plugins) key))
       semanticProviders = true.
Proof.
  intro Hr. split.
  - cbv delta [setupSyntacticCapabilities wanted]. cbv beta.
    rewrite Hr. cbn [negb orb].
    unfold syntacticProviders, forallb.
    repeat (apply andb_true_intro; split); try reflexivity; announced.
  - cbv delta [setupSemanticCapabilities wanted]. cbv beta.
    rewrite Hr. cbn [negb orb]. unfold setupCodeLens.
    unfold semanticProviders, forallb.
    repeat (apply andb_true_intro; split); try reflexivity; announced.
Qed.

Lemma everything_announced_without_respect_witness :
  forallb
    (fun key =>
       truthy (lookup (setupSyntacticCapabilities (JObj []) []
                         (mkInitOptions false None false (Some DiagnosticPush))) key))
    syntacticProviders = true
  /\ forallb
       (fun key =>
          truthy (lookup (setupSemanticCapabilities "volar.executePluginCommand" (JObj []) []
                            (mkInitOptions false None false (Some DiagnosticPush)) []) key))
       semanticProviders = true.
Proof.
  apply everything_announced_without_respect. reflexivity.
Defined.

Ltac keeps :=
  repeat first
    [ assumption
    | apply setIf_keeps; [reflexivity|]
    | apply setupCodeLens_keeps
    | match goal with
      | |- context [if ?c then setupCodeLens _ _ _ else _] => destruct c
      end ].

(** X27. The setups only add to the server object: a property that was set
    (truthy) before is set afterwards, and a property that is not one of the
    providers a setup announces is left exactly as it was. *)
Theorem setup_only_adds
    (executePluginCommand : string) (params : Json) (server : list (string * Json))
    (initOptions : InitOptions) (plugins : list ServerPlugin) (key : string) :
  (truthy (lookup server key) = true ->
   truthy (lookup (setupSyntacticCapabilities params server initOptions) key) = true
   /\ truthy (lookup (setupSemanticCapabilities executePluginCommand params server
                        initOptions plugins) key) = true)
  /\ (~ In key syntacticProviders ->
      lookup (setupSyntacticCapabilities params server initOptions) key = lookup server key)
  /\ (~ In key semanticProviders ->
      lookup (setupSemanticCapabilities executePluginCommand params server
                initOptions plugins) key = lookup server key).
Proof.
  split; [|split].
  - intro H. split.
    + cbv delta [setupSyntacticCapabilities]. cbv beta zeta. keeps.
    + cbv delta [setupSemanticCapabilities]. cbv beta zeta. keeps.
  - intro Hnot. cbv delta [setupSyntacticCapabilities]. cbv beta zeta.
    rewrite !lookup_setIf_other; [reflexivity|..];
      intro Heq; apply Hnot; rewrite Heq; unfold syntacticProviders; simpl; tauto.
  - intro Hnot.
    assert (Hne : forall k, In k semanticProviders -> key <> k).
    { intros k Hk Heq. apply Hnot. rewrite Heq. exact Hk. }
    cbv delta [setupSemanticCapabilities]. cbv beta zeta.
    rewrite !lookup_setIf_other
      by (apply Hne; unfold semanticProviders; simpl; tauto).
    match goal with
    | |- context [if ?c then setupCodeLens _ _ _ else _] => destruct c
    end.
    + rewrite setupCodeLens_other
        by (apply Hne; unfold semanticProviders; simpl; tauto).
      rewrite !lookup_setIf_other
        by (apply Hne; unfold semanticProviders; simpl; tauto).
      reflexivity.
    + rewrite !lookup_setIf_other
        by (apply Hne; unfold semanticProviders; simpl; tauto).
      reflexivity.
Qed.

(** X28. When completion is wanted, the completion provider announced has
    resolve support and, as trigger characters, the listed characters without
    repetition and without the characters the options ask to ignore: each
    listed character that is not ignored occurs exactly once, and nothing
    else does. *)
Theorem completion_triggers_once_and_not_ignored
    (executePluginCommand : string) (params : Json) (server : list (string * Json))
    (initOptions : InitOptions) (plugins : list ServerPlugin) :
  wanted initOptions params "textDocument" "completion" = true ->
  lookup (setupSemanticCapabilities executePluginCommand params server initOptions plugins)
    "completionProvider"
  = JObj [ ("triggerCharacters", JArr (List.map JStr (triggerCharacters initOptions)));
           ("resolveProvider", JBool true) ]
  /\ NoDup (triggerCharacters initOptions)
  /\ (forall c,
        In c (triggerCharacters initOptions) <->
        In c listedTriggerCharacters
        /\ match ignoreTriggerCharacters initOptions with
           | Some ignored => ~ In c ignored
           | None => True
           end).
Proof.
  intro Hw. split; [|split].
  - cbv delta [setupSemanticCapabilities]. cbv beta zeta.
    rewrite !lookup_setIf_other by discriminate.
    match goal with
    | |- context [if ?c then setupCodeLens _ _ _ else _] => destruct c
    end.
    + rewrite setupCodeLens_other by discriminate.
      rewrite !lookup_setIf_other by discriminate.
      rewrite Hw. apply lookup_setIf_true.
    + rewrite !lookup_setIf_other by discriminate.
      rewrite Hw. apply lookup_setIf_true.
  - unfold triggerCharacters.
    destruct (ignoreTriggerCharacters initOptions);
      [apply NoDup_filter|]; apply setOf_NoDup.
  - intro c. unfold triggerCharacters.
    destruct (ignoreTriggerCharacters initOptions) as [ignored|].
    + rewrite filter_In, setOf_In. simpl In at 2.
      rewrite negb_true_iff. split.
      * intros [[H _] Hn]. split; [exact H|]. intro Hi.
        assert (existsb (String.eqb c) ignored = true); [|congruence].
        apply existsb_exists. exists c. split; [exact Hi|apply String.eqb_refl].
      * intros [H Hn]. split; [tauto|].
        destruct (existsb (String.eqb c) ignored) eqn:E; [|reflexivity].
        apply existsb_exists in E as [y [Hy Ey]]. apply String.eqb_eq in Ey. subst y.
        contradiction.
    + rewrite setOf_In. simpl. tauto.
Qed.

Lemma completion_triggers_once_and_not_ignored_witness :
  NoDup (triggerCharacters (mkInitOptions true (Some ["@"; " "]) false None)).
Proof.
  apply (@completion_triggers_once_and_not_ignored "volar.executePluginCommand"
           (JObj [ ("textDocument", JObj [ ("completion", JObj []) ]) ]) []
           (mkInitOptions true (Some ["@"; " "]) false None) []).
  reflexivity.
Defined.

Lemma commandsOf_untouched test key v s :
  key <> "executeCommandProvider" ->
  commandsOf (setIf test key v s) = commandsOf s.
Proof.
  intro H. unfold commandsOf. rewrite lookup_setIf_other by congruence. reflexivity.
Qed.

(** X29. When code lenses are wanted, the semantic setup keeps the commands
    the server object already announced, in their order, and puts the plugin
    command after them unless plugin commands are switched off.  It does not
    look whether the command is there already: set up twice, the server
    announces the plugin command twice. *)
Theorem code_lens_commands_appended
    (executePluginCommand : string) (params : Json) (server : list (string * Json))
    (initOptions : InitOptions) (plugins : list ServerPlugin) :
  wanted initOptions params "textDocument" "codeLens" = true ->
  commandsOf (setupSemanticCapabilities executePluginCommand params server
                initOptions plugins)
  = commandsOf server
    ++ (if noPluginCommands initOptions then [] else [JStr executePluginCommand])
  /\ commandsOf
       (setupSemanticCapabilities executePluginCommand params
          (setupSemanticCapabilities executePluginCommand params server initOptions plugins)
          initOptions plugins)
     = commandsOf server
       ++ (if noPluginCommands initOptions then []
           else [JStr executePluginCommand; JStr executePluginCommand]).
Proof.
  intro Hw.
  assert (Hone : forall s,
            commandsOf (setupSemanticCapabilities executePluginCommand params s
                          initOptions plugins)
            = commandsOf s
              ++ (if noPluginCommands initOptions then [] else [JStr executePluginCommand])).
  { intro s. cbv delta [setupSemanticCapabilities]. cbv beta zeta.
    rewrite Hw.
    rewrite !commandsOf_untouched by discriminate.
    unfold setupCodeLens, commandsOf at 1.
    rewrite lookup_assign_same. cbn [getProp lookup String.eqb].
    rewrite !commandsOf_untouched by discriminate.
    destruct (noPluginCommands initOptions); [rewrite app_nil_r|]; reflexivity. }
  split; [apply Hone|].
  rewrite !Hone, <- app_assoc.
  destruct (noPluginCommands initOptions); reflexivity.
Qed.

Lemma code_lens_commands_appended_witness :
  commandsOf (setupSemanticCapabilities "volar.executePluginCommand"
                (JObj [ ("textDocument", JObj [ ("codeLens", JObj []) ]) ])
                [ ("executeCommandProvider", JObj [ ("commands", JArr [JStr "a.b"]) ]) ]
                (mkInitOptions true None false None) [])
  = [JStr "a.b"; JStr "volar.executePluginCommand"].
Proof.
  apply (@code_lens_commands_appended "volar.executePluginCommand"
           (JObj [ ("textDocument", JObj [ ("codeLens", JObj []) ]) ])
           [ ("executeCommandProvider", JObj [ ("commands", JArr [JStr "a.b"]) ]) ]
           (mkInitOptions true None false None) []).
  reflexivity.
Defined.

End CapabilityTheorems.

(** * Language of an embedded document *)

Lemma afterLastDot_dotless s : dotless s = true -> afterLastDot s = None.
Proof.
  induction s as [|c s IH]; simpl; [reflexivity|].
  intro H. apply andb_prop in H as [Hc Hs]. rewrite (IH Hs).
  destruct (Ascii.eqb c "."%char); [discriminate|reflexivity].
Qed.

Lemma afterLastDot_app base ext :
  dotless ext = true -> afterLastDot (base ++ "." ++ ext)%string = Some ext.
Proof.
  intro Hext. induction base as [|c base IH]; simpl.
  - rewrite (afterLastDot_dotless ext Hext). reflexivity.
  - simpl in IH. rewrite IH. reflexivity.
Qed.

(** X30. The language of the document [getMaps] creates for an embedded file
    is decided by what follows the last dot of the file name: for a name that
    ends in a dot and a dotless extension it is [syntaxToLanguageId] of that
    extension, whatever dots come before; a name without any dot is passed
    whole. *)
Theorem language_from_last_extension
    (shared : Shared) (rootFile : VirtualFile) (document : TextDocument)
    (version : Z) (maps : list (VirtualFile * EmbeddedDocumentSourceMap))
    (teleports : list (VirtualFile * TeleportSourceMap))
    (base ext text : string) (mappings : list (Mapping PositionCapabilities))
    (teleportMappings : option (list (Mapping TeleportMappingData)))
    (embeddeds : list VirtualFile) :
  dotless ext = true ->
  (exists map,
     snd (fst (embedStep shared rootFile document (version, maps, teleports)
                 (mkVirtualFile (base ++ "." ++ ext) text mappings teleportMappings embeddeds)))
     = maps ++ [(mkVirtualFile (base ++ "." ++ ext) text mappings teleportMappings embeddeds, map)]
     /\ doc_languageId (mappedDocument (esm_map map)) = syntaxToLanguageId shared ext
     /\ doc_version (mappedDocument (esm_map map)) = version)
  /\ extensionOf (base ++ "." ++ ext) = ext
  /\ extensionOf ext = ext.
Proof.
  intro Hext.
  assert (He : extensionOf (base ++ "." ++ ext) = ext).
  { unfold extensionOf. rewrite afterLastDot_app by exact Hext. reflexivity. }
  split; [|split; [exact He|]].
  - eexists. split; [destruct teleportMappings; reflexivity|].
    cbn [esm_map mappedDocument doc_languageId doc_version vf_fileName].
    rewrite He. split; reflexivity.
  - unfold extensionOf. rewrite afterLastDot_dotless by exact Hext. reflexivity.
Qed.

Lemma language_from_last_extension_witness :
  extensionOf ("/src/App.vue" ++ "." ++ "ts") = "ts"
  /\ extensionOf "ts" = "ts".
Proof.
  destruct (@language_from_last_extension Sample.shared Sample.embeddedFile Sample.sourceDoc
              0 [] [] "/src/App.vue" "ts" "" [] None [] eq_refl) as [_ H].
  exact H.
Defined.
